(** * Civicomfy: the chunked download engine

    A shallow embedding of [downloader/chunk_downloader.py] (class
    [ChunkDownloader]) and the properties of its specification.

    Modelling conventions.
    - Python integers are [Z]; [//] is [Z.div] (both round towards minus
      infinity).  Python floats (clock readings, percentages, speeds) are
      exact rationals [Q]: the formulas are those of the source, rounding is
      not modelled.
    - A file is represented by its length in bytes: the downloader never
      inspects the bytes it moves.  The temp directory is an association list
      from part index to length, [None] when the directory does not exist.
    - The file system is a store.  An operation fails on it when the store
      says so: removing or opening what is absent, creating a directory that
      exists.  Failures of the device (permissions, a full disk) are not
      modelled.  The catch-all [except Exception] of [download] is left
      out: nothing raises into it here.
    - The network, the clock, the user and the thread scheduler are the
      environment: every outcome the source handles (a response, an
      exception of each class it distinguishes, a cancellation, a keyboard
      interrupt) is an input of the model.  A segment thread interleaves
      with the other actors at the points where it waits: at its loop
      test, while its request is under way, and before each chunk and the
      end of its stream.  The code between two such points, a call of
      [cancel()] and a call of [_update_progress] are atomic.
    - [print] calls are not modelled. *)

From Stdlib Require Import ZArith QArith Qminmax List String Ascii Bool Lia.
From Stdlib Require Import DecimalString Lqa.
Import ListNotations.
Open Scope string_scope.
Open Scope list_scope.
Open Scope Z_scope.

Infix "@@" := String.append (right associativity, at level 60).

(* ------------------------------------------------------------------ *)
(** ** Python helpers *)

(** [str(n)] for an integer. *)
Definition str (z : Z) : string := NilZero.string_of_int (Z.to_int z).

Definition lower_char (c : ascii) : ascii :=
  let n := N_of_ascii c in
  if ((65 <=? n) && (n <=? 90))%N then ascii_of_N (n + 32) else c.

(** [s.lower()] on the ASCII range. *)
Fixpoint lower (s : string) : string :=
  match s with
  | EmptyString => EmptyString
  | String c r => String (lower_char c) (lower r)
  end.

(** Truth value of an [Optional[str]]: [None] and the empty string are false. *)
Definition truthy (o : option string) : bool :=
  match o with
  | Some s => negb (String.eqb s "")
  | None => false
  end.

(** [a or b] where [a] is an [Optional[str]] and [b] a string. *)
Definition or_else (o : option string) (d : string) : option string :=
  if truthy o then o else Some d.

(** [range(n)]. *)
Definition range (n : Z) : list Z := map Z.of_nat (seq 0 (Z.to_nat n)).

Definition Qpos_b (x : Q) : bool := negb (Qle_bool x 0).

(* ------------------------------------------------------------------ *)
(** ** Data model *)

(** The attributes that [__init__] fixes for the lifetime of the object.
    [output_path] and [temp_dir] are the paths as strings. *)
Record config := {
  initial_url : string;
  output_path : string;
  temp_dir : string;
  requested_connections : Z;
  chunk_size : Z;
  manager : bool;
  download_id : option string;
  api_key : option string
}.

(** [self.num_connections = max(1, num_connections)]. *)
Definition num_connections (cfg : config) : Z :=
  Z.max 1 (requested_connections cfg).

Definition STATUS_UPDATE_INTERVAL : Q := 1 # 2.
Definition HEAD_REQUEST_TIMEOUT : Z := 25.
Definition MIN_SIZE_FOR_MULTI_MB : Z := 10.

(** A sparse update sent to [manager._update_download_status]: a field is
    [None] when the keyword argument is not passed.  [error=self.error]
    passes the attribute as it is, so the field is an option of an option. *)
Record status_update := {
  upd_status : option string;
  upd_progress : option Q;
  upd_speed : option Q;
  upd_error : option (option string);
  upd_connection_type : option string
}.

(** The mutable attributes of the downloader together with what it touches
    outside: the temp directory, the output file and the updates the manager
    has received. *)
Record state := {
  url : string;
  total_size : Z;
  downloaded : Z;
  cancel_event : bool;
  error : option string;
  part_files : list Z;
  connection_type : string;
  _start_time : Q;
  _last_update_time : Q;
  _last_downloaded_bytes : Z;
  _speed : Q;
  fs_temp : option (list (Z * Z));
  fs_output : option Z;
  notifications : list status_update
}.

Definition set_url (v : string) (s : state) : state :=
  {| url := v; total_size := total_size s; downloaded := downloaded s;
     cancel_event := cancel_event s; error := error s;
     part_files := part_files s; connection_type := connection_type s;
     _start_time := _start_time s; _last_update_time := _last_update_time s;
     _last_downloaded_bytes := _last_downloaded_bytes s; _speed := _speed s;
     fs_temp := fs_temp s; fs_output := fs_output s;
     notifications := notifications s |}.

Definition set_total_size (v : Z) (s : state) : state :=
  {| url := url s; total_size := v; downloaded := downloaded s;
     cancel_event := cancel_event s; error := error s;
     part_files := part_files s; connection_type := connection_type s;
     _start_time := _start_time s; _last_update_time := _last_update_time s;
     _last_downloaded_bytes := _last_downloaded_bytes s; _speed := _speed s;
     fs_temp := fs_temp s; fs_output := fs_output s;
     notifications := notifications s |}.

Definition set_downloaded (v : Z) (s : state) : state :=
  {| url := url s; total_size := total_size s; downloaded := v;
     cancel_event := cancel_event s; error := error s;
     part_files := part_files s; connection_type := connection_type s;
     _start_time := _start_time s; _last_update_time := _last_update_time s;
     _last_downloaded_bytes := _last_downloaded_bytes s; _speed := _speed s;
     fs_temp := fs_temp s; fs_output := fs_output s;
     notifications := notifications s |}.

Definition set_cancel_event (v : bool) (s : state) : state :=
  {| url := url s; total_size := total_size s; downloaded := downloaded s;
     cancel_event := v; error := error s;
     part_files := part_files s; connection_type := connection_type s;
     _start_time := _start_time s; _last_update_time := _last_update_time s;
     _last_downloaded_bytes := _last_downloaded_bytes s; _speed := _speed s;
     fs_temp := fs_temp s; fs_output := fs_output s;
     notifications := notifications s |}.

Definition set_error (v : option string) (s : state) : state :=
  {| url := url s; total_size := total_size s; downloaded := downloaded s;
     cancel_event := cancel_event s; error := v;
     part_files := part_files s; connection_type := connection_type s;
     _start_time := _start_time s; _last_update_time := _last_update_time s;
     _last_downloaded_bytes := _last_downloaded_bytes s; _speed := _speed s;
     fs_temp := fs_temp s; fs_output := fs_output s;
     notifications := notifications s |}.

Definition set_part_files (v : list Z) (s : state) : state :=
  {| url := url s; total_size := total_size s; downloaded := downloaded s;
     cancel_event := cancel_event s; error := error s;
     part_files := v; connection_type := connection_type s;
     _start_time := _start_time s; _last_update_time := _last_update_time s;
     _last_downloaded_bytes := _last_downloaded_bytes s; _speed := _speed s;
     fs_temp := fs_temp s; fs_output := fs_output s;
     notifications := notifications s |}.

Definition set_connection_type (v : string) (s : state) : state :=
  {| url := url s; total_size := total_size s; downloaded := downloaded s;
     cancel_event := cancel_event s; error := error s;
     part_files := part_files s; connection_type := v;
     _start_time := _start_time s; _last_update_time := _last_update_time s;
     _last_downloaded_bytes := _last_downloaded_bytes s; _speed := _speed s;
     fs_temp := fs_temp s; fs_output := fs_output s;
     notifications := notifications s |}.

Definition set_start_time (v : Q) (s : state) : state :=
  {| url := url s; total_size := total_size s; downloaded := downloaded s;
     cancel_event := cancel_event s; error := error s;
     part_files := part_files s; connection_type := connection_type s;
     _start_time := v; _last_update_time := _last_update_time s;
     _last_downloaded_bytes := _last_downloaded_bytes s; _speed := _speed s;
     fs_temp := fs_temp s; fs_output := fs_output s;
     notifications := notifications s |}.

(** The three fields that a notification in [_update_progress] refreshes,
    and that [fallback_download] resets. *)
Definition set_rate (t : Q) (bytes : Z) (v : Q) (s : state) : state :=
  {| url := url s; total_size := total_size s; downloaded := downloaded s;
     cancel_event := cancel_event s; error := error s;
     part_files := part_files s; connection_type := connection_type s;
     _start_time := _start_time s; _last_update_time := t;
     _last_downloaded_bytes := bytes; _speed := v;
     fs_temp := fs_temp s; fs_output := fs_output s;
     notifications := notifications s |}.

Definition set_fs_temp (v : option (list (Z * Z))) (s : state) : state :=
  {| url := url s; total_size := total_size s; downloaded := downloaded s;
     cancel_event := cancel_event s; error := error s;
     part_files := part_files s; connection_type := connection_type s;
     _start_time := _start_time s; _last_update_time := _last_update_time s;
     _last_downloaded_bytes := _last_downloaded_bytes s; _speed := _speed s;
     fs_temp := v; fs_output := fs_output s;
     notifications := notifications s |}.

Definition set_fs_output (v : option Z) (s : state) : state :=
  {| url := url s; total_size := total_size s; downloaded := downloaded s;
     cancel_event := cancel_event s; error := error s;
     part_files := part_files s; connection_type := connection_type s;
     _start_time := _start_time s; _last_update_time := _last_update_time s;
     _last_downloaded_bytes := _last_downloaded_bytes s; _speed := _speed s;
     fs_temp := fs_temp s; fs_output := v;
     notifications := notifications s |}.

Definition set_notifications (v : list status_update) (s : state) : state :=
  {| url := url s; total_size := total_size s; downloaded := downloaded s;
     cancel_event := cancel_event s; error := error s;
     part_files := part_files s; connection_type := connection_type s;
     _start_time := _start_time s; _last_update_time := _last_update_time s;
     _last_downloaded_bytes := _last_downloaded_bytes s; _speed := _speed s;
     fs_temp := fs_temp s; fs_output := fs_output s;
     notifications := v |}.

(** The object as [__init__] leaves it, on a given file system. *)
Definition init (cfg : config) (known_size : option Z)
    (temp : option (list (Z * Z))) (out : option Z) : state :=
  {| url := initial_url cfg;
     total_size := match known_size with
                   | Some k => if 0 <? k then k else 0
                   | None => 0
                   end;
     downloaded := 0; cancel_event := false; error := None;
     part_files := []; connection_type := "N/A";
     _start_time := 0; _last_update_time := 0;
     _last_downloaded_bytes := 0; _speed := 0;
     fs_temp := temp; fs_output := out; notifications := [] |}.

(* ------------------------------------------------------------------ *)
(** ** The environment *)

Inductive exn_class := Timeout | RequestException | ValueError | OtherException.

(** A raised exception: its class, the text of [f"{e}"], and the status code
    of [e.response] when that attribute is not [None]. *)
Record py_exn := {
  exn_kind : exn_class;
  exn_text : string;
  exn_response : option Z
}.

(** [content-length] as [int()] sees it: the header is absent, holds an
    integer, or holds text on which [int()] raises [ValueError]. *)
Inductive int_header :=
| HeaderAbsent
| HeaderInt (n : Z)
| HeaderMalformed (text : string).

(** What the source reads from a [requests.Response]. [resp_truthy] is the
    truth value of the object in [if response]. *)
Record http_response := {
  resp_truthy : bool;
  resp_status_code : Z;
  resp_url : string;
  resp_accept_ranges : option string;
  resp_content_length : int_header
}.

(** [requests.head]/[requests.get] followed by [raise_for_status]: the call
    raises, or it returns a response on which [raise_for_status] raises
    [HTTPError] (a [RequestException] carrying that response), or it returns
    a response that passes. *)
Inductive request_outcome :=
| CallRaises (e : py_exn)
| StatusRaises (r : http_response) (text : string)
| ResponseOk (r : http_response).

Definition http_error (r : http_response) (text : string) : py_exn :=
  {| exn_kind := RequestException; exn_text := text;
     exn_response := Some (resp_status_code r) |}.

(** How [iter_content] ends: exhausted, or raising. *)
Inductive stream_end :=
| StreamEnd
| StreamRaises (e : py_exn).

(** One attempt of a segment request: the response and, when it passes, the
    chunks [iter_content] yields, each a length with the reading of
    [time.monotonic()] in the [_update_progress] call that follows it. *)
Record attempt := {
  att_request : request_outcome;
  att_chunks : list (Z * Q);
  att_end : stream_end
}.

(** What happens while the single stream of [fallback_download] is read: a
    chunk arrives, the user calls [cancel()] from another thread, or
    [KeyboardInterrupt] is raised in this one. *)
Inductive stream_event :=
| Chunk (len : Z) (now : Q)
| UserCancels
| KeyboardInterrupt.

Record fallback_exchange := {
  fb_request : request_outcome;
  fb_events : list stream_event;
  fb_end : stream_end
}.

(** Who moves next while the segment threads run. *)
Inductive actor :=
| Orchestrator
| Worker (segment_index : Z)
| User
| Interrupt.

Definition headers := list (string * string).

Record environment := {
  clock_start : Q;
  clock_fallback : Q;
  net_head : string -> headers -> request_outcome;
  net_get_segment : string -> headers -> nat -> attempt;
  net_get_fallback : string -> headers -> fallback_exchange;
  schedule : list actor
}.

(* ------------------------------------------------------------------ *)
(** ** Segment calculation (the loop inside [download]) *)

Record segment := {
  seg_index : Z;
  start_byte : Z;
  end_byte : Z
}.

(** The body of [for i in range(self.num_connections)], with both [break]s. *)
Fixpoint segment_loop (total_size num_connections segment_size : Z)
    (indices : list Z) (current_byte : Z) : list segment :=
  match indices with
  | [] => []
  | i :: rest =>
      if total_size <=? current_byte then []
      else
        let start_byte := current_byte in
        let end_byte := Z.min (current_byte + segment_size - 1) (total_size - 1) in
        let end_byte := if i =? num_connections - 1 then total_size - 1 else end_byte in
        if (start_byte <=? end_byte) && (end_byte <? total_size)
        then {| seg_index := i; start_byte := start_byte; end_byte := end_byte |}
             :: segment_loop total_size num_connections segment_size rest (end_byte + 1)
        else []
  end.

(** [segments] after the loop, for [self.total_size] and
    [self.num_connections]; the latter is at least 1 by [__init__] (with 0
    the division of the source raises, which is not modelled). *)
Definition calculate_segments (total_size num_connections : Z) : list segment :=
  let segment_size := total_size / num_connections in
  let segment_size := if segment_size =? 0 then total_size else segment_size in
  segment_loop total_size num_connections segment_size (range num_connections) 0.

(** [use_multi_connection] as [download] computes it. *)
Definition use_multi_connection (supports_ranges : bool)
    (num_connections total_size : Z) : bool :=
  supports_ranges && (1 <? num_connections) && (0 <? total_size)
  && (MIN_SIZE_FOR_MULTI_MB * 1024 * 1024 <? total_size).

(** Vocabulary of the segment invariant. *)
Definition seg_len (g : segment) : Z := end_byte g - start_byte g + 1.

Fixpoint contiguous (from : Z) (segs : list segment) : Prop :=
  match segs with
  | [] => True
  | g :: rest => start_byte g = from /\ contiguous (end_byte g + 1) rest
  end.

Definition covers (g : segment) (x : Z) : Prop :=
  start_byte g <= x <= end_byte g.

Definition non_overlapping (segs : list segment) : Prop :=
  forall i j a b, i <> j ->
    nth_error segs i = Some a -> nth_error segs j = Some b ->
    forall x, ~ (covers a x /\ covers b x).

Definition sum_len (segs : list segment) : Z :=
  fold_right (fun g acc => seg_len g + acc) 0 segs.

(* ------------------------------------------------------------------ *)
(** ** The file store *)

Definition lookup_file (i : Z) (files : list (Z * Z)) : option Z :=
  match find (fun p => fst p =? i) files with
  | Some p => Some (snd p)
  | None => None
  end.

Definition put_file (i size : Z) (files : list (Z * Z)) : list (Z * Z) :=
  (i, size) :: filter (fun p => negb (fst p =? i)) files.

Definition is_some {A : Type} (o : option A) : bool :=
  match o with Some _ => true | None => false end.

(** [open(part_file_path, 'wb')]: creates or truncates part [i]; fails when
    the temp directory is missing. *)
Definition open_part (i : Z) (st : state) : option state :=
  match fs_temp st with
  | Some files => Some (set_fs_temp (Some (put_file i 0 files)) st)
  | None => None
  end.

(** [f.write(chunk)] on part [i]. *)
Definition write_part (i len : Z) (st : state) : state :=
  match fs_temp st with
  | Some files =>
      match lookup_file i files with
      | Some size => set_fs_temp (Some (put_file i (size + len) files)) st
      | None => st
      end
  | None => st
  end.

(** [f.write(...)] on the output file, opened before. *)
Definition write_output (len : Z) (st : state) : state :=
  match fs_output st with
  | Some size => set_fs_output (Some (size + len)) st
  | None => st
  end.

Definition file_not_found (path : string) : py_exn :=
  {| exn_kind := OtherException;
     exn_text := "[Errno 2] No such file or directory: '" @@ path @@ "'";
     exn_response := None |}.

(** The text of the error that [merge_parts] records on a size mismatch. *)
Definition merged_size_error (final_size total_size : Z) : string :=
  "Merged size (" @@ str final_size @@ ") differs significantly from expected ("
  @@ str total_size @@ "). File may be corrupt.".

(** [sorted(self.part_files, key=...)] on the part indices. *)
Fixpoint insert_sorted (i : Z) (l : list Z) : list Z :=
  match l with
  | [] => [i]
  | j :: rest => if i <=? j then i :: l else j :: insert_sorted i rest
  end.

Definition sorted (l : list Z) : list Z := fold_right insert_sorted [] l.

(** [int(response.headers.get('content-length', 0))]. *)
Definition content_length (r : http_response) : Z + py_exn :=
  match resp_content_length r with
  | HeaderAbsent => inl 0
  | HeaderInt n => inl n
  | HeaderMalformed text =>
      inr {| exn_kind := ValueError; exn_text := text; exn_response := None |}
  end.

(* ------------------------------------------------------------------ *)
(** ** The methods of [ChunkDownloader] *)

Inductive exit_reason :=
| SegmentComplete
| LoopEnded
| CancelObserved
| RangeNotSatisfiable
| RetriesExhausted
| CriticalError.

(** Where a thread running [download_segment] stands: at the [while] test,
    inside [requests.get] (past the test, the response not yet there),
    inside the [for chunk in ...] loop, or returned. *)
Inductive worker_state :=
| AtLoop (current_try : nat)
| Requesting (current_try : nat)
| Streaming (current_try : nat) (response : http_response)
    (bytes_written_this_segment : Z) (pending : list (Z * Q)) (fin : stream_end)
| Finished (why : exit_reason).

Inductive merge_outcome :=
| MergeCopied
| MergeAborted
| MergeRaises (e : py_exn).

Inductive stream_result :=
| StreamDone
| StreamCancelled
| StreamFailed (e : py_exn)
| StreamInterrupted.

(** How a call that may be interrupted ends. *)
Inductive call_result :=
| Returns (success : bool)
| RaisesKeyboardInterrupt.

Record thread := {
  th_segment : segment;
  th_state : worker_state
}.

(** The orchestrator inside the multi-connection branch: starting threads,
    in the waiting loop with its [active_threads], past the loop, or
    unwound by [KeyboardInterrupt]. *)
Inductive orchestrator_state :=
| Starting (todo : list segment)
| Waiting (active_threads : list Z)
| LoopLeft
| Interrupted.

Record pool := {
  orch : orchestrator_state;
  threads : list thread;
  shared : state
}.

Definition retries : nat := 3.

Section Downloader.

Variable cfg : config.
Variable env : environment.

Definition header_if (name prefix : string) (v : option string) : headers :=
  match v with
  | Some s => if String.eqb s "" then [] else [(name, prefix @@ s)]
  | None => []
  end.

Definition _get_request_headers (add_range : option string) : headers :=
  header_if "Authorization" "Bearer " (api_key cfg)
  ++ header_if "Range" "" add_range.

(** [self.manager._update_download_status(self.download_id, ...)] under its
    guard [if self.manager and self.download_id]. *)
Definition manager_attached : bool := manager cfg && truthy (download_id cfg).

Definition manager_update (u : status_update) (st : state) : state :=
  if manager_attached
  then set_notifications (notifications st ++ [u]) st
  else st.

Definition is_cancelled (st : state) : bool := cancel_event st.

Definition cancel (st : state) : state :=
  if negb (is_cancelled st) then
    let st := set_cancel_event true st in
    let st := set_error (Some "Download cancelled by user") st in
    manager_update
      {| upd_status := Some "cancelled"; upd_progress := None;
         upd_speed := None; upd_error := Some (error st);
         upd_connection_type := None |} st
  else st.

(** [shutil.rmtree(self.temp_dir)]. *)
Definition rmtree_temp (st : state) : state + py_exn :=
  if is_some (fs_temp st) then inl (set_fs_temp None st)
  else inr (file_not_found (temp_dir cfg)).

(** [self.output_path.unlink()]. *)
Definition unlink_output (st : state) : state + py_exn :=
  if is_some (fs_output st) then inl (set_fs_output None st)
  else inr (file_not_found (output_path cfg)).

(** [self.temp_dir.mkdir(parents=True)]. *)
Definition mkdir_temp (st : state) : state + py_exn :=
  if is_some (fs_temp st)
  then inr {| exn_kind := OtherException;
              exn_text := "[Errno 17] File exists: '" @@ temp_dir cfg @@ "'";
              exn_response := None |}
  else inl (set_fs_temp (Some []) st).

Definition _cleanup_temp (success : bool) (st : state) : state :=
  let st :=
    if is_some (fs_temp st) then
      match rmtree_temp st with
      | inl st => st
      | inr _ => st
      end
    else st in
  if negb success && is_some (fs_output st) then
    match unlink_output st with
    | inl st => st
    | inr _ => st
    end
  else st.

(** The [try] block of [_get_range_support_and_url]: its return value, or
    the exception raised together with the state reached. *)
Definition head_try (st : state) : (string * bool * state) + (py_exn * state) :=
  let request_headers := _get_request_headers None in
  match net_head env (initial_url cfg) request_headers with
  | CallRaises e => inr (e, st)
  | StatusRaises r text => inr (http_error r text, st)
  | ResponseOk response =>
      let final_url := resp_url response in
      let st := set_url final_url st in
      let accept_ranges :=
        lower (match resp_accept_ranges response with
               | Some v => v
               | None => "none"
               end) in
      let supports_ranges := String.eqb accept_ranges "bytes" in
      if total_size st <=? 0 then
        match content_length response with
        | inr e => inr (e, st)
        | inl head_size =>
            let st := if 0 <? head_size then set_total_size head_size st else st in
            inl (final_url, supports_ranges, st)
        end
      else inl (final_url, supports_ranges, st)
  end.

Definition _get_range_support_and_url (st : state) : string * bool * state :=
  match head_try st with
  | inl result => result
  | inr (e, st) =>
      match exn_kind e with
      | Timeout =>
          let st := set_error
            (Some ("HEAD request timed out (" @@ str HEAD_REQUEST_TIMEOUT
                   @@ "s) checking range support: " @@ exn_text e)) st in
          (initial_url cfg, false, st)
      | RequestException => (initial_url cfg, false, st)
      | ValueError | OtherException =>
          let st := set_error
            (Some ("Unexpected error during HEAD request: " @@ exn_text e)) st in
          (initial_url cfg, false, st)
      end
  end.

Definition _update_progress (chunk_len : Z) (current_time : Q) (st : state) : state :=
  let st := set_downloaded (downloaded st + chunk_len) st in
  let time_diff := (current_time - _last_update_time st)%Q in
  if Qle_bool STATUS_UPDATE_INTERVAL time_diff || (downloaded st =? total_size st)
  then
    let progress :=
      if 0 <? total_size st
      then Qmin (inject_Z (downloaded st) / inject_Z (total_size st) * 100) 100
      else 0%Q in
    let speed :=
      if Qpos_b time_diff
      then (inject_Z (downloaded st - _last_downloaded_bytes st) / time_diff)%Q
      else _speed st in
    let st := set_rate current_time (downloaded st) speed st in
    manager_update
      {| upd_status := None; upd_progress := Some progress;
         upd_speed := Some (_speed st); upd_error := None;
         upd_connection_type := None |} st
  else st.

(* ---- download_segment ---- *)

Definition part_file_path (segment_index : Z) : string :=
  temp_dir cfg @@ "/part_" @@ str segment_index.

(** [response and response.status_code == 416] on the local [response]. *)
Definition response_is_416 (response : option http_response) : bool :=
  match response with
  | Some r => resp_truthy r && (resp_status_code r =? 416)
  | None => false
  end.

(** The end of the first [except] clause: give up after the last try,
    otherwise sleep and go round the loop again. *)
Definition retry_or_give_up (segment_index : Z) (current_try : nat)
    (error_msg_detail : string) (st : state) : worker_state * state :=
  let error_msg :=
    "Segment " @@ str segment_index @@ " failed (Try "
    @@ str (Z.of_nat current_try) @@ "/" @@ str (Z.of_nat retries) @@ "): "
    @@ error_msg_detail in
  if (retries <=? current_try)%nat then
    let st := set_error (Some error_msg) st in
    (Finished RetriesExhausted, cancel st)
  else (AtLoop current_try, st).

(** The [except] clauses of [download_segment], entered with the value of
    [current_try] before the increment and the local [response]. *)
Definition segment_except (segment_index : Z) (current_try : nat)
    (response : option http_response) (e : py_exn) (st : state)
    : worker_state * state :=
  match exn_kind e with
  | OtherException =>
      let st := set_error
        (Some ("Segment " @@ str segment_index @@ " critical error: " @@ exn_text e)) st in
      (Finished CriticalError, cancel st)
  | ValueError =>
      retry_or_give_up segment_index (S current_try) (exn_text e) st
  | Timeout | RequestException =>
      let current_try := S current_try in
      let error_msg_detail := exn_text e in
      match exn_response e with
      | Some status_code =>
          if status_code =? 401 then
            retry_or_give_up segment_index current_try
              (error_msg_detail @@ " (Unauthorized)") st
          else if status_code =? 403 then
            retry_or_give_up segment_index current_try
              (error_msg_detail @@ " (Forbidden)") st
          else if response_is_416 response then
            let error_msg_detail :=
              error_msg_detail @@ " (Range Not Satisfiable - Server Issue?)" in
            let st := set_error
              (Some ("Segment " @@ str segment_index @@ " failed: " @@ error_msg_detail)) st in
            (Finished RangeNotSatisfiable, cancel st)
          else retry_or_give_up segment_index current_try error_msg_detail st
      | None => retry_or_give_up segment_index current_try error_msg_detail st
      end
  end.

Definition size_mismatch (expected_size got : Z) : py_exn :=
  {| exn_kind := ValueError;
     exn_text := "Size mismatch. Expected " @@ str expected_size @@ ", got " @@ str got;
     exn_response := None |}.

(** One step of a thread that runs [download_segment] on segment [g]: the
    [while] test; the response to the request, with [raise_for_status] and
    the opening of the part file; a chunk of the stream; or the end of the
    stream with the size check.  Other actors move between the steps, so
    also while the request is under way. *)
Definition download_segment_step (g : segment) (w : worker_state) (st : state)
    : worker_state * state :=
  let segment_index := seg_index g in
  match w with
  | Finished _ => (w, st)
  | AtLoop current_try =>
      if (current_try <? retries)%nat && negb (is_cancelled st)
      then (Requesting current_try, st)
      else (Finished LoopEnded, st)
  | Requesting current_try =>
      let request_headers :=
        _get_request_headers
          (Some ("bytes=" @@ str (start_byte g) @@ "-" @@ str (end_byte g))) in
      let a := net_get_segment env (url st) request_headers current_try in
      match att_request a with
      | CallRaises e => segment_except segment_index current_try None e st
      | StatusRaises r text =>
          segment_except segment_index current_try (Some r) (http_error r text) st
      | ResponseOk r =>
          match open_part segment_index st with
          | Some st => (Streaming current_try r 0 (att_chunks a) (att_end a), st)
          | None =>
              segment_except segment_index current_try (Some r)
                (file_not_found (part_file_path segment_index)) st
          end
      end
  | Streaming current_try r written pending fin =>
      match pending with
      | (len, now) :: rest =>
          if is_cancelled st then (Finished CancelObserved, st)
          else if 0 <? len then
            let st := write_part segment_index len st in
            (Streaming current_try r (written + len) rest fin,
             _update_progress len now st)
          else (Streaming current_try r written rest fin, st)
      | [] =>
          match fin with
          | StreamRaises e => segment_except segment_index current_try (Some r) e st
          | StreamEnd =>
              let expected_size := (end_byte g - start_byte g) + 1 in
              if written =? expected_size then (Finished SegmentComplete, st)
              else segment_except segment_index current_try (Some r)
                     (size_mismatch expected_size written) st
          end
      end
  end.

(* ---- merge_parts ---- *)

(** The [for part_file in sorted_part_files] loop, the output file open. *)
Fixpoint copy_parts (parts : list Z) (st : state) : merge_outcome * state :=
  match parts with
  | [] => (MergeCopied, st)
  | i :: rest =>
      match match fs_temp st with
            | Some files => lookup_file i files
            | None => None
            end with
      | None =>
          if is_cancelled st then
            (MergeAborted,
             set_error (or_else (error st) "Cancelled during download, merge aborted.") st)
          else
            (MergeRaises
               {| exn_kind := OtherException;
                  exn_text := "Merge failed, missing part file: "
                              @@ part_file_path i @@ ". This should not happen.";
                  exn_response := None |}, st)
      | Some size => copy_parts rest (write_output size st)
      end
  end.

Definition merge_failed (e : py_exn) (st : state) : bool * state :=
  (false, set_error (Some ("Failed to merge parts: " @@ exn_text e)) st).

Definition merge_parts (st : state) : bool * state :=
  match part_files st with
  | [] =>
      let st :=
        if is_cancelled st
        then set_error (or_else (error st) "Cancelled before any parts downloaded.") st
        else set_error (Some "No part files found to merge.") st in
      (false, st)
  | _ :: _ =>
      let sorted_part_files := sorted (part_files st) in
      let st := set_fs_output (Some 0) st in
      match copy_parts sorted_part_files st with
      | (MergeAborted, st) => (false, st)
      | (MergeRaises e, st) => merge_failed e st
      | (MergeCopied, st) =>
          match fs_output st with
          | None => merge_failed (file_not_found (output_path cfg)) st
          | Some final_size =>
              if (0 <? total_size st) && (1 <? Z.abs (final_size - total_size st))
              then
                (false,
                 set_error
                   (Some (merged_size_error final_size (total_size st))) st)
              else (true, st)
          end
      end
  end.

(* ---- fallback_download ---- *)

(** The [for chunk in response.iter_content(...)] loop of the fallback,
    the output file open. *)
Fixpoint read_stream (events : list stream_event) (fin : stream_end) (st : state)
    : stream_result * state :=
  match events with
  | [] =>
      (match fin with
       | StreamEnd => StreamDone
       | StreamRaises e => StreamFailed e
       end, st)
  | UserCancels :: rest => read_stream rest fin (cancel st)
  | KeyboardInterrupt :: _ => (StreamInterrupted, st)
  | Chunk len now :: rest =>
      if is_cancelled st then (StreamCancelled, st)
      else if 0 <? len then
        let st := write_output len st in
        read_stream rest fin (_update_progress len now st)
      else read_stream rest fin st
  end.

(** The two [except] clauses of [fallback_download]. *)
Definition fallback_except (e : py_exn) (st : state) : call_result * state :=
  match exn_kind e with
  | Timeout | RequestException =>
      let error_msg_detail := exn_text e in
      let error_msg_detail :=
        match exn_response e with
        | Some status_code =>
            if status_code =? 401
            then error_msg_detail @@ " (Unauthorized - Check API Key?)"
            else if status_code =? 403
            then error_msg_detail @@ " (Forbidden - Permissions Issue?)"
            else error_msg_detail
        | None => error_msg_detail
        end in
      (Returns false,
       set_error (Some ("Fallback download RequestException: " @@ error_msg_detail)) st)
  | ValueError | OtherException =>
      (Returns false,
       set_error
         (Some ("Fallback download failed with unexpected error: " @@ exn_text e)) st)
  end.

Definition fallback_download (st : state) : call_result * state :=
  let st := set_connection_type "Single" st in
  let st := manager_update
    {| upd_status := None; upd_progress := None; upd_speed := None;
       upd_error := None; upd_connection_type := Some (connection_type st) |} st in
  let st := set_start_time
    (if Qeq_bool (_start_time st) 0 then clock_fallback env else _start_time st) st in
  let st := set_rate (_start_time st) 0 (_speed st) st in
  let st := set_downloaded 0 st in
  let fallback_url := url st in
  let request_headers := _get_request_headers None in
  let exchange := net_get_fallback env fallback_url request_headers in
  match fb_request exchange with
  | CallRaises e => fallback_except e st
  | StatusRaises r text => fallback_except (http_error r text) st
  | ResponseOk response =>
      let final_get_url := resp_url response in
      let st := if String.eqb final_get_url fallback_url then st
                else set_url final_get_url st in
      match (if total_size st <=? 0 then
               match content_length response with
               | inr e => inr e
               | inl get_size =>
                   inl (if 0 <? get_size then set_total_size get_size st
                        else set_total_size 0 st)
               end
             else inl st) with
      | inr e => fallback_except e st
      | inl st =>
          let st := set_fs_output (Some 0) st in
          match read_stream (fb_events exchange) (fb_end exchange) st with
          | (StreamCancelled, st) => (Returns false, st)
          | (StreamInterrupted, st) => (RaisesKeyboardInterrupt, st)
          | (StreamFailed e, st) => fallback_except e st
          | (StreamDone, st) =>
              let st :=
                if (0 <? total_size st) && negb (downloaded st =? total_size st)
                then set_error
                       (Some ("Fallback download size mismatch. Expected "
                              @@ str (total_size st) @@ ", got "
                              @@ str (downloaded st) @@ ".")) st
                else st in
              (Returns true, st)
          end
      end
  end.

(* ---- the segment threads and the orchestrator's loops ---- *)

Definition is_finished (w : worker_state) : bool :=
  match w with Finished _ => true | _ => false end.

(** The thread of segment [i] takes one step. *)
Fixpoint step_thread (i : Z) (ths : list thread) (st : state)
    : list thread * state :=
  match ths with
  | [] => ([], st)
  | t :: rest =>
      if seg_index (th_segment t) =? i then
        let (w, st) := download_segment_step (th_segment t) (th_state t) st in
        ({| th_segment := th_segment t; th_state := w |} :: rest, st)
      else
        let (rest, st) := step_thread i rest st in
        (t :: rest, st)
  end.

(** [t.is_alive()] for the thread of segment [i]. *)
Definition is_alive (ths : list thread) (i : Z) : bool :=
  match find (fun t => seg_index (th_segment t) =? i) ths with
  | Some t => negb (is_finished (th_state t))
  | None => false
  end.

Definition thread_ids (ths : list thread) : list Z :=
  map (fun t => seg_index (th_segment t)) ths.

(** One step of the orchestrator: an iteration of the loop that starts the
    threads, or an iteration of the waiting loop. *)
Definition orchestrator_step (p : pool) : pool :=
  match orch p with
  | Starting [] =>
      {| orch := Waiting (thread_ids (threads p));
         threads := threads p; shared := shared p |}
  | Starting (g :: todo) =>
      if is_cancelled (shared p) then
        {| orch := Waiting (thread_ids (threads p));
           threads := threads p; shared := shared p |}
      else
        {| orch := Starting todo;
           threads := threads p ++ [{| th_segment := g; th_state := AtLoop 0 |}];
           shared := shared p |}
  | Waiting [] =>
      {| orch := LoopLeft; threads := threads p; shared := shared p |}
  | Waiting ((_ :: _) as active_threads) =>
      if is_cancelled (shared p) then
        {| orch := LoopLeft; threads := threads p;
           shared := set_error (or_else (error (shared p)) "Cancelled") (shared p) |}
      else
        {| orch := Waiting (filter (is_alive (threads p)) active_threads);
           threads := threads p; shared := shared p |}
  | LoopLeft | Interrupted => p
  end.

Definition orchestrator_done (p : pool) : bool :=
  match orch p with
  | LoopLeft | Interrupted => true
  | _ => false
  end.

Definition pool_step (a : actor) (p : pool) : pool :=
  match a with
  | Orchestrator => orchestrator_step p
  | Worker i =>
      let (ths, st) := step_thread i (threads p) (shared p) in
      {| orch := orch p; threads := ths; shared := st |}
  | User =>
      {| orch := orch p; threads := threads p; shared := cancel (shared p) |}
  | Interrupt =>
      {| orch := Interrupted; threads := threads p; shared := shared p |}
  end.

(** The actors move as the schedule says until the orchestrator leaves its
    waiting loop. *)
Fixpoint run_schedule (sched : list actor) (p : pool) : pool :=
  match sched with
  | [] => p
  | a :: rest =>
      if orchestrator_done p then p else run_schedule rest (pool_step a p)
  end.

Fixpoint iterate {A : Type} (n : nat) (f : A -> A) (x : A) : A :=
  match n with
  | O => x
  | S n => iterate n f (f x)
  end.

(** The steps a thread can still take: for each try left, the loop test,
    the request, its chunks and the end of the stream. *)
Fixpoint tries_cost (tries_left : nat) (g : segment) (current_try : nat)
    (st : state) : nat :=
  match tries_left with
  | O => O
  | S k =>
      let request_headers :=
        _get_request_headers
          (Some ("bytes=" @@ str (start_byte g) @@ "-" @@ str (end_byte g))) in
      let a := net_get_segment env (url st) request_headers current_try in
      (3 + List.length (att_chunks a) + tries_cost k g (S current_try) st)%nat
  end.

Definition worker_cost (g : segment) (w : worker_state) (st : state) : nat :=
  match w with
  | Finished _ => O
  | AtLoop current_try => S (tries_cost (retries - current_try) g current_try st)
  | Requesting current_try =>
      let request_headers :=
        _get_request_headers
          (Some ("bytes=" @@ str (start_byte g) @@ "-" @@ str (end_byte g))) in
      let a := net_get_segment env (url st) request_headers current_try in
      (3 + List.length (att_chunks a)
       + tries_cost (retries - S current_try) g (S current_try) st)%nat
  | Streaming current_try _ _ pending _ =>
      (2 + List.length pending
       + tries_cost (retries - S current_try) g (S current_try) st)%nat
  end.

(** A thread runs alone until it returns ([worker_cost] steps are enough,
    see [run_thread_finishes]). *)
Definition run_thread (t : thread) (st : state) : thread * state :=
  let (w, st) :=
    iterate (worker_cost (th_segment t) (th_state t) st)
      (fun ws => download_segment_step (th_segment t) (fst ws) (snd ws))
      (th_state t, st) in
  ({| th_segment := th_segment t; th_state := w |}, st).

(** [download_segment(segment_index, start_byte, end_byte)] as one
    uninterrupted call. *)
Definition download_segment (segment_index start_byte end_byte : Z) (st : state)
    : state :=
  snd (run_thread
         {| th_segment := {| seg_index := segment_index;
                             start_byte := start_byte;
                             end_byte := end_byte |};
            th_state := AtLoop 0 |} st).

Fixpoint run_threads_out (ths : list thread) (st : state) : list thread * state :=
  match ths with
  | [] => ([], st)
  | t :: rest =>
      let (t, st) := run_thread t st in
      let (rest, st) := run_threads_out rest st in
      (t :: rest, st)
  end.

(** When the schedule is used up: the orchestrator finishes starting the
    threads, every thread runs until it returns, and the orchestrator goes
    round its waiting loop until it leaves it. *)
Definition complete (p : pool) : pool :=
  if orchestrator_done p then p
  else
    let p :=
      match orch p with
      | Starting todo => iterate (S (List.length todo)) orchestrator_step p
      | _ => p
      end in
    let (ths, st) := run_threads_out (threads p) (shared p) in
    let p := {| orch := orch p; threads := ths; shared := st |} in
    orchestrator_step (orchestrator_step p).

(** The threads and the orchestrator from [self.threads = []] to the end of
    the waiting loop.  Threads still alive at that point (the loop is left
    on cancellation without joining them) are not followed further. *)
Definition run_threads (segments : list segment) (st : state) : pool :=
  complete (run_schedule (schedule env)
              {| orch := Starting segments; threads := []; shared := st |}).

(* ---- download ---- *)

(** "Post-Download Checks (Multi-Connection)". *)
Definition post_download_checks (expected_final_size : Z) (st : state) : state :=
  if is_cancelled st then st
  else if truthy (error st) then st
  else if negb (downloaded st =? expected_final_size) then
    if 0 <? expected_final_size then
      set_error
        (Some ("Multi-download size mismatch. Expected " @@ str expected_final_size
               @@ ", got " @@ str (downloaded st) @@ ".")) st
    else st
  else st.

(** "Merge Parts (only if no error/cancellation so far)". *)
Definition merge_stage (st : state) : bool * state :=
  if negb (truthy (error st)) && negb (is_cancelled st)
  then merge_parts st
  else (false, st).

(** The [else] branch of the strategy: threads, checks, merge. *)
Definition multi_branch (segments : list segment) (expected_final_size : Z)
    (st : state) : call_result * state :=
  let p := run_threads segments st in
  match orch p with
  | Interrupted => (RaisesKeyboardInterrupt, shared p)
  | _ =>
      let st := post_download_checks expected_final_size (shared p) in
      let (success, st) := merge_stage st in
      (Returns success, st)
  end.

(** "Fallback or Initial Single Connection". *)
Definition fallback_branch (st : state) : call_result * state :=
  match fallback_download st with
  | (RaisesKeyboardInterrupt, st) => (RaisesKeyboardInterrupt, st)
  | (Returns success, st) =>
      let st :=
        if negb success && negb (truthy (error st))
        then set_error (or_else (error st) "Single connection download failed.") st
        else st in
      (Returns success, st)
  end.

(** "Ensure temp directory exists and is clean": the inner [try]. *)
Definition clean_temp_dir (st : state) : state + py_exn :=
  match (if is_some (fs_temp st) then rmtree_temp st else inl st) with
  | inl st => mkdir_temp st
  | inr e => inr e
  end.

(** The head of the multi-connection branch: connection type, a clean temp
    directory, the segments and their part files; [inr] is the early
    [return False] when the temp directory cannot be set up. *)
Definition multi_prepare (st : state) : (list segment * state) + state :=
  let st := set_connection_type
    ("Multi (" @@ str (num_connections cfg) @@ ")") st in
  let st := manager_update
    {| upd_status := None; upd_progress := None; upd_speed := None;
       upd_error := None; upd_connection_type := Some (connection_type st) |} st in
  match clean_temp_dir st with
  | inr e =>
      inr (set_error
             (Some ("Failed to create temp directory " @@ temp_dir cfg @@ ": "
                    @@ exn_text e)) st)
  | inl st =>
      let st := set_part_files [] st in
      let segments := calculate_segments (total_size st) (num_connections cfg) in
      let st := set_part_files (map seg_index segments) st in
      inl (segments, st)
  end.

(** The [try] block of [download]. *)
Definition download_try (supports_ranges : bool) (st : state)
    : call_result * state :=
  let use_multi :=
    use_multi_connection supports_ranges (num_connections cfg) (total_size st) in
  let expected_final_size := total_size st in
  if use_multi then
    match multi_prepare st with
    | inr st => (Returns false, st)
    | inl ([], st) =>
        let st := set_error
          (Some "No valid download segments calculated for multi-connection.") st in
        fallback_branch st
    | inl ((_ :: _) as segments, st) =>
        multi_branch segments expected_final_size st
    end
  else fallback_branch st.

(** The [except KeyboardInterrupt] clause: [success] after the [try]. *)
Definition download_except (r : call_result * state) : bool * state :=
  match r with
  | (Returns success, st) => (success, st)
  | (RaisesKeyboardInterrupt, st) => (false, cancel st)
  end.

Definition final_progress (success : bool) (st : state) : Q :=
  if success then 100%Q
  else if 0 <? total_size st then
    let p := (inject_Z (downloaded st) / inject_Z (total_size st) * 100)%Q in
    if Qeq_bool p 0 then 0%Q else p
  else 0%Q.

(** The [finally] clause of [download] and its [return success]. *)
Definition download_finally (r : bool * state) : bool * state :=
  let (success, st) := r in
  let st := _cleanup_temp success st in
  let st :=
    let final_status :=
      if success then "completed"
      else if is_cancelled st then "cancelled" else "failed" in
    manager_update
      {| upd_status := Some final_status;
         upd_progress := Some (Qmin 100 (final_progress success st));
         upd_speed := Some 0%Q;
         upd_error := Some (error st);
         upd_connection_type := Some (connection_type st) |} st in
  (success, st).

(** The top of [download]: reset, and removal of a leftover temp directory
    (with [success=False], so of the output file too). *)
Definition download_start (st : state) : state :=
  let st := set_start_time (clock_start env) st in
  let st := set_downloaded 0 st in
  let st := set_error None st in
  if is_some (fs_temp st) then _cleanup_temp false st else st.

(** [download] up to the strategy decision. *)
Definition download_probe (st : state) : bool * state :=
  let st := download_start st in
  let '(final_url, supports_ranges, st) := _get_range_support_and_url st in
  (supports_ranges, st).

Definition download (st : state) : bool * state :=
  let (supports_ranges, st) := download_probe st in
  download_finally (download_except (download_try supports_ranges st)).

(** The segment threads of a download as its waiting loop leaves them; none
    when the single-connection branch is taken. *)
Definition download_threads (st : state) : list thread :=
  let (supports_ranges, st) := download_probe st in
  if use_multi_connection supports_ranges (num_connections cfg) (total_size st)
  then
    match multi_prepare st with
    | inl ((_ :: _) as segments, st) => threads (run_threads segments st)
    | _ => []
    end
  else [].

End Downloader.

(** The status that the final update of a download reports. *)
Definition final_status (cfg : config) (env : environment) (st : state)
    : option string :=
  match rev (notifications (snd (download cfg env st))) with
  | u :: _ => upd_status u
  | [] => None
  end.

(** An update that carries every field, as the final one does. *)
Definition is_snapshot (u : status_update) : bool :=
  is_some (upd_status u) && is_some (upd_progress u) && is_some (upd_speed u)
  && is_some (upd_error u) && is_some (upd_connection_type u).

(* ------------------------------------------------------------------ *)
(** ** Sample jobs *)

Definition sample_cfg : config :=
  {| initial_url := "https://example.org/model.bin";
     output_path := "/models/model.bin";
     temp_dir := "/models/.model.bin.parts_job1";
     requested_connections := 2;
     chunk_size := 8192;
     manager := true;
     download_id := Some "job1";
     api_key := None |}.

Definition sample_response (accept_ranges : option string) (size : int_header)
    : http_response :=
  {| resp_truthy := true; resp_status_code := 200;
     resp_url := "https://cdn.example.org/model.bin";
     resp_accept_ranges := accept_ranges; resp_content_length := size |}.

Definition connection_reset : py_exn :=
  {| exn_kind := RequestException; exn_text := "connection reset";
     exn_response := None |}.

Definition has_range (r : string) (hs : headers) : bool :=
  existsb (fun h => String.eqb (fst h) "Range" && String.eqb (snd h) r) hs.

(** A range-capable server and a 20 MiB file asked for with two
    connections: every request for the first segment fails with a
    connection error, the second segment arrives in one chunk; the second
    thread runs first, nobody cancels. *)
Definition env_one_segment_fails : environment :=
  {| clock_start := 1000;
     clock_fallback := 1000;
     net_head := fun _ _ =>
       ResponseOk (sample_response (Some "bytes") (HeaderInt 20971520));
     net_get_segment := fun _ hs _ =>
       if has_range "bytes=0-10485759" hs
       then {| att_request := CallRaises connection_reset;
               att_chunks := []; att_end := StreamEnd |}
       else {| att_request := ResponseOk (sample_response None HeaderAbsent);
               att_chunks := [(10485760, 1001%Q)]; att_end := StreamEnd |};
     net_get_fallback := fun _ _ =>
       {| fb_request := CallRaises connection_reset;
          fb_events := []; fb_end := StreamEnd |};
     schedule := [Orchestrator; Orchestrator; Worker 1; Worker 1; Worker 1;
                  Worker 0; Worker 0; Worker 0; Orchestrator] |}.

(** The same file, both segments arriving in one chunk each. *)
Definition env_segments_arrive : environment :=
  {| clock_start := 1000;
     clock_fallback := 1000;
     net_head := net_head env_one_segment_fails;
     net_get_segment := fun _ _ _ =>
       {| att_request := ResponseOk (sample_response None HeaderAbsent);
          att_chunks := [(10485760, 1001%Q)]; att_end := StreamEnd |};
     net_get_fallback := net_get_fallback env_one_segment_fails;
     schedule := [Orchestrator; Worker 0; Orchestrator; Worker 1; Worker 0] |}.

(** A server that answers the probe with the given [Accept-Ranges] value
    and streams 100 bytes in two chunks, or 90 when it falls short. *)
Definition env_single (accept_ranges : option string) (last_chunk : Z)
    : environment :=
  {| clock_start := 1000;
     clock_fallback := 1000;
     net_head := fun _ _ => ResponseOk (sample_response accept_ranges (HeaderInt 100));
     net_get_segment := fun _ _ _ =>
       {| att_request := CallRaises connection_reset;
          att_chunks := []; att_end := StreamEnd |};
     net_get_fallback := fun _ _ =>
       {| fb_request := ResponseOk (sample_response None (HeaderInt 100));
          fb_events := [Chunk 60 1001%Q; Chunk last_chunk 1002%Q];
          fb_end := StreamEnd |};
     schedule := [] |}.

Definition sample_state : state := init sample_cfg (Some 20971520) None None.

(** The job as a segment thread leaves it on its last failed try, just
    before it calls [cancel()]. *)
Definition state_with_segment_error : state :=
  set_error (Some "Segment 0 failed (Try 3/3): connection reset") sample_state.

(** Two parts on disk, the second 760 bytes short of its segment. *)
Definition state_before_merge : state :=
  set_part_files [0; 1]
    (init sample_cfg (Some 20971520) (Some [(0, 10485760); (1, 10485000)]) None).

(* ------------------------------------------------------------------ *)
(** ** Vocabulary of the job-level properties *)

(** From [st] to [st']: the cancellation flag, once set, stays set, and the
    manager has received further updates of which none is a snapshot. *)
Definition advances (st st' : state) : Prop :=
  (cancel_event st = true -> cancel_event st' = true)
  /\ exists l, notifications st' = notifications st ++ l
               /\ Forall (fun u => is_snapshot u = false) l.

(** A thread that gave up after its last try has set the flag. *)
Definition gave_up (t : thread) : Prop :=
  th_state t = Finished RetriesExhausted.

Definition gave_up_cancels (ths : list thread) (st : state) : Prop :=
  forall t, In t ths -> gave_up t -> cancel_event st = true.

(** The bytes that a stream of the fallback delivers. *)
Fixpoint received (events : list stream_event) : Z :=
  match events with
  | [] => 0
  | Chunk len _ :: rest => (if 0 <? len then len else 0) + received rest
  | _ :: rest => received rest
  end.

Definition is_chunk (e : stream_event) : bool :=
  match e with Chunk _ _ => true | _ => false end.

(** The size of the concatenation of the listed parts. *)
Fixpoint parts_size (files : list (Z * Z)) (parts : list Z) : Z :=
  match parts with
  | [] => 0
  | i :: rest =>
      match lookup_file i files with
      | Some size => size
      | None => 0
      end + parts_size files rest
  end.

Definition all_present (files : list (Z * Z)) (parts : list Z) : Prop :=
  Forall (fun i => is_some (lookup_file i files) = true) parts.

Definition thread_ok (w : worker_state) (st : state) : Prop :=
  w = Finished RetriesExhausted -> cancel_event st = true.

Definition pool_ok (p : pool) : Prop := gave_up_cancels (threads p) (shared p).

(** The scheduler choices by which somebody outside the threads cancels. *)
Definition is_user_action (a : actor) : bool :=
  match a with User | Interrupt => true | _ => false end.

(* ------------------------------------------------------------------ *)
(** ** Vocabulary of the further properties *)

(** Segment [i] of [num_connections] equal shares of [total_size] bytes,
    the last share taking the remainder. *)
Definition equal_share (total_size num_connections i : Z) : segment :=
  let segment_size := total_size / num_connections in
  {| seg_index := i;
     start_byte := i * segment_size;
     end_byte := if i =? num_connections - 1 then total_size - 1
                 else (i + 1) * segment_size - 1 |}.

(** A progress value, when an update carries one, is a percentage. *)
Definition bounded_progress (u : status_update) : Prop :=
  match upd_progress u with
  | Some p => (0 <= p <= 100)%Q
  | None => True
  end.

(** From [st] to [st'], what no step of a download after its reset undoes:
    a known total size stays, the total size and the byte count stay
    non-negative, a recorded error stays recorded, the flag is not set
    without an error being recorded, and the manager receives percentages. *)
Definition evolves (st st' : state) : Prop :=
  (0 < total_size st -> total_size st' = total_size st)
  /\ (0 <= total_size st -> 0 <= total_size st')
  /\ (0 <= downloaded st -> 0 <= downloaded st')
  /\ (truthy (error st) = true -> truthy (error st') = true)
  /\ (cancel_event st' = true -> cancel_event st = false ->
      truthy (error st') = true)
  /\ (0 <= downloaded st ->
      exists l, notifications st' = notifications st ++ l
                /\ Forall bounded_progress l).

(** The size of part [j] in the temp directory, if it is there. *)
Definition part_size (j : Z) (st : state) : option Z :=
  match fs_temp st with
  | Some files => lookup_file j files
  | None => None
  end.

(** From [st] to [st'] nothing happened but recording: an error, the
    flag, updates to the manager. *)
Definition only_records (st st' : state) : Prop :=
  url st' = url st /\ total_size st' = total_size st
  /\ connection_type st' = connection_type st
  /\ part_files st' = part_files st
  /\ fs_output st' = fs_output st /\ fs_temp st' = fs_temp st
  /\ downloaded st' = downloaded st
  /\ (cancel_event st = true -> cancel_event st' = true).

(** What the thread of segment [i] may change from [st] to [st']: its own
    part file and the byte count, which only grows; nothing at all on
    disk, nor the count, once the flag is set. *)
Definition thread_frame (i : Z) (st st' : state) : Prop :=
  url st' = url st /\ total_size st' = total_size st
  /\ connection_type st' = connection_type st
  /\ part_files st' = part_files st
  /\ fs_output st' = fs_output st
  /\ is_some (fs_temp st') = is_some (fs_temp st)
  /\ (forall j, j <> i -> part_size j st' = part_size j st)
  /\ downloaded st <= downloaded st'
  /\ (cancel_event st = true -> cancel_event st' = true)
  /\ (cancel_event st = true ->
      downloaded st' = downloaded st
      /\ (part_size i st' = part_size i st \/ part_size i st' = Some 0)).

(** How many steps a thread can still take once the cancellation flag is
    set. *)
Definition steps_when_cancelled (w : worker_state) : nat :=
  match w with
  | Finished _ => 0
  | AtLoop _ => 1
  | Streaming _ _ _ _ _ => 2
  | Requesting _ => 3
  end.

(** The bytes of the non-empty chunks of a segment stream. *)
Fixpoint chunk_bytes (chunks : list (Z * Q)) : Z :=
  match chunks with
  | [] => 0
  | (len, _) :: rest => (if 0 <? len then len else 0) + chunk_bytes rest
  end.

(** The text of the exception that [merge_parts] raises for a missing part. *)
Definition missing_part_error (cfg : config) (i : Z) : string :=
  "Failed to merge parts: Merge failed, missing part file: "
  @@ part_file_path cfg i @@ ". This should not happen.".

(** A failure that [download_segment] treats as "range not satisfiable":
    an HTTP error other than 401 and 403 while the local [response] is
    truthy and has status 416. *)
Definition escalates_416 (response : option http_response) (e : py_exn) : bool :=
  match exn_kind e, exn_response e with
  | (Timeout | RequestException), Some code =>
      negb (code =? 401) && negb (code =? 403) && response_is_416 response
  | _, _ => false
  end.

(** What the threads phase and the merge leave as the strategy decided
    them. *)
Definition keeps_plan (st st' : state) : Prop :=
  url st' = url st /\ total_size st' = total_size st
  /\ connection_type st' = connection_type st
  /\ part_files st' = part_files st
  /\ (cancel_event st = true -> cancel_event st' = true).

(** The threads of a pool run planned segments, in the order of the plan,
    and the segments still to start are the rest of it. *)
Definition follows_plan (segments : list segment) (p : pool) : Prop :=
  exists rest,
    segments = map th_segment (threads p) ++ rest
    /\ (forall todo, orch p = Starting todo -> rest = todo).

(** Past the loop that starts the threads, every planned segment has its
    thread unless the job was cancelled or interrupted. *)
Definition all_started (segments : list segment) (p : pool) : Prop :=
  (exists todo, orch p = Starting todo)
  \/ orch p = Interrupted
  \/ cancel_event (shared p) = true
  \/ map th_segment (threads p) = segments.

(** The hint that the single-connection download appends to the text of a
    request error that carries a 401 or 403 response. *)
Definition auth_hint (e : py_exn) : string :=
  match exn_response e with
  | Some status_code =>
      if status_code =? 401 then " (Unauthorized - Check API Key?)"
      else if status_code =? 403 then " (Forbidden - Permissions Issue?)"
      else ""
  | None => ""
  end.

(** The exception that a request raises: from the call itself or from
    [raise_for_status]. *)
Definition raised_by (o : request_outcome) : option py_exn :=
  match o with
  | CallRaises e => Some e
  | StatusRaises r text => Some (http_error r text)
  | ResponseOk _ => None
  end.

(** The server of [env_single], the job interrupted from the keyboard
    after the first chunk. *)
Definition env_interrupted : environment :=
  {| clock_start := 1000;
     clock_fallback := 1000;
     net_head := net_head (env_single None 40);
     net_get_segment := net_get_segment (env_single None 40);
     net_get_fallback := fun _ _ =>
       {| fb_request := ResponseOk (sample_response None (HeaderInt 100));
          fb_events := [Chunk 60 1001%Q; KeyboardInterrupt; Chunk 40 1002%Q];
          fb_end := StreamEnd |};
     schedule := [] |}.

(** The same server answering the GET with 401. *)
Definition env_unauthorized : environment :=
  {| clock_start := 1000;
     clock_fallback := 1000;
     net_head := net_head (env_single None 40);
     net_get_segment := net_get_segment (env_single None 40);
     net_get_fallback := fun _ _ =>
       {| fb_request :=
            StatusRaises
              {| resp_truthy := false; resp_status_code := 401;
                 resp_url := "https://cdn.example.org/model.bin";
                 resp_accept_ranges := None; resp_content_length := HeaderAbsent |}
              "401 Client Error: Unauthorized for url";
          fb_events := []; fb_end := StreamEnd |};
     schedule := [] |}.

(** The pool of a multi-connection download as the orchestrator leaves its
    waiting loop; none when the single-connection branch is taken. *)
Definition download_pool (cfg : config) (env : environment) (st : state)
    : option pool :=
  let (supports_ranges, st) := download_probe cfg env st in
  if use_multi_connection supports_ranges (num_connections cfg) (total_size st)
  then
    match multi_prepare cfg st with
    | inl ((_ :: _) as segments, st) => Some (run_threads cfg env segments st)
    | _ => None
    end
  else None.

(** The update that [cancel()] sends when it takes effect. *)
Definition cancel_update : status_update :=
  {| upd_status := Some "cancelled"; upd_progress := None; upd_speed := None;
     upd_error := Some (Some "Download cancelled by user");
     upd_connection_type := None |}.





(* ================================================================== *)
(** * Properties *)

(* ------------------------------------------------------------------ *)
(** ** Segment calculation *)

Section SegmentLoop.

Variables total n s : Z.
Hypothesis s_pos : 1 <= s.

Lemma segment_loop_break (indices : list Z) (c : Z) :
  total <= c -> segment_loop total n s indices c = [].
Proof.
  intros Hc. destruct indices as [|i rest]; simpl; [reflexivity|].
  destruct (Z.leb_spec total c); [reflexivity | lia].
Qed.

(** From any position inside the file, with the last index still to come,
    the loop yields full-size segments followed by one that ends the file. *)
Lemma segment_loop_shape (m k : nat) (c : Z) :
  (1 <= m)%nat -> Z.of_nat k + Z.of_nat m = n -> 0 <= c < total ->
  exists init g,
    segment_loop total n s (map Z.of_nat (seq k m)) c = init ++ [g]
    /\ contiguous c (init ++ [g])
    /\ Forall (fun h => seg_len h = s) init
    /\ Forall (fun h => 1 <= seg_len h) (init ++ [g])
    /\ end_byte g = total - 1
    /\ sum_len (init ++ [g]) = total - c
    /\ (total <= c + s -> init = []).
Proof.
  revert k c. induction m as [|m IH]; intros k c Hm Hk Hc; [lia|].
  cbn [seq map segment_loop].
  destruct (Z.leb_spec total c) as [Hge|_]; [lia|].
  destruct (Z.eqb_spec (Z.of_nat k) (n - 1)) as [Hlast|Hnot].
  - (* the last index: the segment runs to the end of the file *)
    assert (m = 0%nat) by lia. subst m. cbn [seq map segment_loop].
    destruct (Z.leb_spec c (total - 1)); [|lia].
    destruct (Z.ltb_spec (total - 1) total); [|lia].
    cbn [andb].
    exists [], {| seg_index := Z.of_nat k; start_byte := c; end_byte := total - 1 |}.
    cbn. unfold seg_len; cbn.
    repeat split; auto; try lia.
    constructor; [cbn; lia | constructor].
  - set (e := Z.min (c + s - 1) (total - 1)).
    destruct (Z.leb_spec c e) as [_|Hbad]; [|unfold e in Hbad; lia].
    destruct (Z.ltb_spec e total) as [_|Hbad]; [|unfold e in Hbad; lia].
    cbn [andb].
    set (g0 := {| seg_index := Z.of_nat k; start_byte := c; end_byte := e |}).
    destruct (Z.le_gt_cases total (c + s)) as [Hclip|Hroom].
    + (* the segment is clipped at the end of the file: the loop stops *)
      assert (He : e = total - 1) by (unfold e; lia).
      rewrite segment_loop_break by lia.
      exists [], g0. cbn. unfold seg_len; cbn.
      repeat split; auto; try lia.
      constructor; [cbn; lia | constructor].
    + assert (He : e = c + s - 1) by (unfold e; lia).
      destruct (IH (S k) (e + 1)) as (init & g & Heq & Hcont & Hfull & Hpos & Hend & Hsum & _);
        try lia.
      exists (g0 :: init), g. rewrite Heq. cbn.
      repeat split; auto; try lia.
      * constructor; [unfold seg_len; cbn; lia | exact Hfull].
      * constructor; [unfold seg_len; cbn; lia | exact Hpos].
      * change (seg_len g0 + sum_len (init ++ [g]) = total - c).
        rewrite Hsum. unfold seg_len; cbn. lia.
Qed.

End SegmentLoop.

Lemma contiguous_ordered (segs : list segment) :
  forall from, contiguous from segs -> Forall (fun h => 1 <= seg_len h) segs ->
  forall i j a b, (i < j)%nat ->
    nth_error segs i = Some a -> nth_error segs j = Some b ->
    from <= start_byte a /\ end_byte a < start_byte b.
Proof.
  induction segs as [|g rest IH]; intros from Hc Hp i j a b Hij Ha Hb.
  - destruct i; discriminate.
  - destruct Hc as [Hs Hc]. inversion Hp as [|? ? Hg Hrest]; subst.
    unfold seg_len in Hg.
    destruct j as [|j]; [lia|]. cbn in Hb.
    destruct i as [|i]; cbn in Ha.
    + injection Ha as <-. split; [lia|].
      destruct j as [|j].
      * destruct rest as [|h rest']; [discriminate|]. cbn in Hb. injection Hb as <-.
        destruct Hc as [Hh _]. lia.
      * destruct rest as [|h rest']; [discriminate|].
        destruct (IH _ Hc Hrest 0%nat (S j) h b) as [H1 H2]; [lia|reflexivity|exact Hb|].
        destruct Hc as [Hh _].
        inversion Hrest as [|? ? Hh1 _]; subst. unfold seg_len in Hh1. lia.
    + destruct (IH _ Hc Hrest i j a b) as [H1 H2]; [lia|exact Ha|exact Hb|].
      split; lia.
Qed.

Lemma contiguous_non_overlapping (segs : list segment) (from : Z) :
  contiguous from segs -> Forall (fun h => 1 <= seg_len h) segs ->
  non_overlapping segs.
Proof.
  intros Hc Hp i j a b Hij Ha Hb x [Hxa Hxb]. unfold covers in *.
  destruct (Nat.lt_total i j) as [Hlt|[Heq|Hgt]]; [|contradiction|].
  - destruct (contiguous_ordered segs from Hc Hp i j a b Hlt Ha Hb). lia.
  - destruct (contiguous_ordered segs from Hc Hp j i b a Hgt Hb Ha). lia.
Qed.

(** C2. For every total size >= 1 and connection count >= 1 the segment
    calculation yields a non-empty list [init ++ [g]] of segments that is
    contiguous from byte 0, pairwise non-overlapping, whose lengths sum to
    the total size, where every non-final segment has length
    [total_size / num_connections] (floor) and the last segment ends at
    [total_size - 1]. *)
Theorem calculate_segments_partition (total_size num_connections : Z) :
  1 <= total_size -> 1 <= num_connections ->
  exists init g,
    calculate_segments total_size num_connections = init ++ [g]
    /\ contiguous 0 (init ++ [g])
    /\ non_overlapping (init ++ [g])
    /\ sum_len (init ++ [g]) = total_size
    /\ Forall (fun h => seg_len h = total_size / num_connections) init
    /\ end_byte g = total_size - 1.
Proof.
  intros Ht Hn. unfold calculate_segments, range.
  set (q := total_size / num_connections).
  assert (Hq : 0 <= q) by (apply Z.div_pos; lia).
  set (s := if q =? 0 then total_size else q).
  assert (Hs : 1 <= s) by (unfold s; destruct (Z.eqb_spec q 0); lia).
  destruct (segment_loop_shape total_size num_connections s Hs
              (Z.to_nat num_connections) 0%nat 0)
    as (init & g & Heq & Hcont & Hfull & Hpos & Hend & Hsum & Hone); try lia.
  exists init, g. rewrite Heq.
  repeat split; auto.
  - eapply contiguous_non_overlapping; eauto.
  - lia.
  - unfold s in *. destruct (Z.eqb_spec q 0) as [Hz|Hnz].
    + rewrite Hone by lia. constructor.
    + exact Hfull.
Qed.

Lemma calculate_segments_partition_witness :
  exists init g,
    calculate_segments 52428800 4 = init ++ [g]
    /\ contiguous 0 (init ++ [g])
    /\ non_overlapping (init ++ [g])
    /\ sum_len (init ++ [g]) = 52428800
    /\ Forall (fun h => seg_len h = 52428800 / 4) init
    /\ end_byte g = 52428800 - 1.
Proof. apply (calculate_segments_partition 52428800 4); lia. Defined.

Lemma range_cons (n : Z) :
  1 <= n -> range n = 0 :: map Z.of_nat (seq 1 (Z.to_nat n - 1)).
Proof.
  intros Hn. unfold range.
  replace (Z.to_nat n) with (S (Z.to_nat n - 1)) at 1 by lia.
  reflexivity.
Qed.

(* ------------------------------------------------------------------ *)
(** ** Cancellation *)

Lemma cancel_sets_flag (cfg : config) (st : state) :
  cancel_event (cancel cfg st) = true.
Proof.
  unfold cancel, is_cancelled, manager_update.
  destruct (cancel_event st) eqn:E; cbn; [exact E|].
  destruct (manager_attached cfg); reflexivity.
Qed.

Lemma cancel_when_set (cfg : config) (st : state) :
  cancel_event st = true -> cancel cfg st = st.
Proof. intros E. unfold cancel, is_cancelled. rewrite E. reflexivity. Qed.

Lemma cancel_records_default (cfg : config) (st : state) :
  cancel_event st = false ->
  error (cancel cfg st) = Some "Download cancelled by user".
Proof.
  intros E. unfold cancel, is_cancelled, manager_update. rewrite E. cbn.
  destruct (manager_attached cfg); reflexivity.
Qed.

(** C4. [cancel()] on a job whose error field already holds a segment's
    error, the flag not yet set: the flag is set, and the recorded error is
    replaced by the default text instead of being kept. *)
Theorem cancel_overwrites_recorded_error :
  cancel_event state_with_segment_error = false
  /\ error state_with_segment_error
     = Some "Segment 0 failed (Try 3/3): connection reset"
  /\ cancel_event (cancel sample_cfg state_with_segment_error) = true
  /\ error (cancel sample_cfg state_with_segment_error)
     = Some "Download cancelled by user".
Proof. repeat split. Qed.

(* ------------------------------------------------------------------ *)
(** ** Progress *)

Lemma interval_elapsed_positive (x : Q) :
  Qle_bool STATUS_UPDATE_INTERVAL x = true -> Qpos_b x = true.
Proof.
  intros H. apply Qle_bool_iff in H. unfold STATUS_UPDATE_INTERVAL in H.
  unfold Qpos_b. destruct (Qle_bool x 0) eqn:E; [|reflexivity].
  apply Qle_bool_iff in E. lra.
Qed.

Lemma Qpos_b_true (x : Q) : (0 < x)%Q -> Qpos_b x = true.
Proof.
  intros H. unfold Qpos_b. destruct (Qle_bool x 0) eqn:E; [|reflexivity].
  apply Qle_bool_iff in E. lra.
Qed.

(** C8. When [_update_progress] computes a notification (the interval has
    elapsed or the byte count has reached the total), the update sent holds
    [min(downloaded / total * 100, 100)] as progress when the total is
    positive and 0 when it is unknown; the speed is the byte delta since the
    previous notification divided by the elapsed time whenever time has
    passed, which is always so when the total is unknown and the chunk is
    not empty; and the baseline is moved to this notification. *)
Theorem update_progress_notification (cfg : config) (chunk_len : Z) (now : Q)
    (st : state) :
  manager_attached cfg = true ->
  let d := downloaded st + chunk_len in
  let elapsed := (now - _last_update_time st)%Q in
  let delta := (inject_Z (d - _last_downloaded_bytes st) / elapsed)%Q in
  Qle_bool STATUS_UPDATE_INTERVAL elapsed = true \/ d = total_size st ->
  let st' := _update_progress cfg chunk_len now st in
  exists progress speed,
    notifications st'
    = notifications st
      ++ [{| upd_status := None; upd_progress := Some progress;
             upd_speed := Some speed; upd_error := None;
             upd_connection_type := None |}]
    /\ (0 < total_size st ->
        progress = Qmin (inject_Z d / inject_Z (total_size st) * 100) 100)
    /\ (total_size st <= 0 -> progress = 0%Q)
    /\ ((0 < elapsed)%Q -> speed = delta)
    /\ (total_size st = 0 -> 0 <= downloaded st -> 0 < chunk_len -> speed = delta)
    /\ downloaded st' = d
    /\ _speed st' = speed
    /\ _last_update_time st' = now
    /\ _last_downloaded_bytes st' = d.
Proof.
  intros Hm d elapsed delta Htrig st'.
  assert (Hcond : Qle_bool STATUS_UPDATE_INTERVAL elapsed || (d =? total_size st) = true).
  { destruct Htrig as [H|H]; [rewrite H; reflexivity|].
    apply orb_true_iff. right. apply Z.eqb_eq. exact H. }
  unfold st', _update_progress. cbn [downloaded total_size _last_update_time
    _last_downloaded_bytes _speed set_downloaded].
  fold d. fold elapsed. rewrite Hcond.
  unfold manager_update. rewrite Hm. cbn.
  eexists. eexists. split; [reflexivity|].
  repeat split.
  - intros Ht. destruct (Z.ltb_spec 0 (total_size st)); [reflexivity|lia].
  - intros Ht. destruct (Z.ltb_spec 0 (total_size st)); [lia|reflexivity].
  - intros He. rewrite (Qpos_b_true _ He). reflexivity.
  - intros Ht Hd Hc.
    assert (He : Qle_bool STATUS_UPDATE_INTERVAL elapsed = true).
    { destruct Htrig as [H|H]; [exact H|]. lia. }
    rewrite (interval_elapsed_positive _ He). reflexivity.
Qed.

Lemma update_progress_notification_witness :
  exists progress speed,
    notifications (_update_progress sample_cfg 4096 (3 # 4)
                     (set_total_size 0 sample_state))
    = notifications (set_total_size 0 sample_state)
      ++ [{| upd_status := None; upd_progress := Some progress;
             upd_speed := Some speed; upd_error := None;
             upd_connection_type := None |}]
    /\ progress = 0%Q
    /\ speed = (inject_Z 4096 / ((3 # 4) - 0))%Q.
Proof.
  destruct (update_progress_notification sample_cfg 4096 (3 # 4)
              (set_total_size 0 sample_state))
    as (progress & speed & Hlog & _ & Hzero & _ & Hspeed & _);
    [reflexivity | left; reflexivity |].
  exists progress, speed. split; [exact Hlog|]. split.
  - apply Hzero. simpl. lia.
  - apply Hspeed; simpl; lia.
Defined.

(* ------------------------------------------------------------------ *)
(** ** The range probe *)

(** C5 (as stated) fails: an [Accept-Ranges] value that differs from
    ["bytes"] only by letter case is accepted, because the value is
    lower-cased before the comparison. *)
Lemma probe_accepts_uppercase_counterexample :
  net_head (env_single (Some "BYTES") 40) (initial_url sample_cfg)
    (_get_request_headers sample_cfg None)
  = ResponseOk (sample_response (Some "BYTES") (HeaderInt 100))
  /\ "BYTES" <> "bytes"
  /\ snd (fst (_get_range_support_and_url sample_cfg
                 (env_single (Some "BYTES") 40) sample_state)) = true.
Proof. repeat split. discriminate. Qed.

(** C5 (amended). The probe returns a value on every outcome of the HEAD
    request: when the call or the status check raises (whatever the class
    of the exception), or when the size header it consults cannot be read,
    it returns the original URL and [False]; when the response passes it
    returns the response's URL and [True] exactly when the [Accept-Ranges]
    header is present and its lower-cased value is ["bytes"]. *)
Theorem probe_result (cfg : config) (env : environment) (st : state) :
  let outcome := net_head env (initial_url cfg) (_get_request_headers cfg None) in
  let result := fst (_get_range_support_and_url cfg env st) in
  (forall e, outcome = CallRaises e -> result = (initial_url cfg, false))
  /\ (forall r text, outcome = StatusRaises r text ->
        result = (initial_url cfg, false))
  /\ (forall r text, outcome = ResponseOk r -> total_size st <= 0 ->
        resp_content_length r = HeaderMalformed text ->
        result = (initial_url cfg, false))
  /\ (forall r, outcome = ResponseOk r ->
        (total_size st <= 0 ->
         forall text, resp_content_length r <> HeaderMalformed text) ->
        fst result = resp_url r
        /\ (snd result = true <->
            exists v, resp_accept_ranges r = Some v /\ lower v = "bytes")).
Proof.
  intros outcome result. unfold result, _get_range_support_and_url, head_try.
  fold outcome. split; [|split; [|split]].
  - intros e ->. destruct (exn_kind e); reflexivity.
  - intros r text ->. reflexivity.
  - intros r text -> Ht Hcl. cbn [total_size set_url].
    destruct (Z.leb_spec (total_size st) 0); [|lia].
    unfold content_length. rewrite Hcl. reflexivity.
  - intros r -> Hsize. cbn [total_size set_url].
    set (supports := String.eqb _ "bytes").
    assert (Hiff : supports = true <->
                   exists v, resp_accept_ranges r = Some v /\ lower v = "bytes").
    { unfold supports. split.
      - intros Hb. apply String.eqb_eq in Hb.
        destruct (resp_accept_ranges r) as [v|]; [|discriminate].
        exists v. split; [reflexivity|exact Hb].
      - intros (v & Hv & Hl). rewrite Hv. apply String.eqb_eq. exact Hl. }
    destruct (Z.leb_spec (total_size st) 0) as [Hle|Hgt];
      [|split; [reflexivity|exact Hiff]].
    unfold content_length.
    destruct (resp_content_length r) as [|n|text] eqn:Hcl.
    + split; [reflexivity|exact Hiff].
    + split; [reflexivity|exact Hiff].
    + exfalso. exact (Hsize Hle text eq_refl).
Qed.

Lemma probe_result_witness :
  fst (_get_range_support_and_url sample_cfg (env_single (Some "bytes") 40)
         sample_state)
  = ("https://cdn.example.org/model.bin", true)
  /\ fst (_get_range_support_and_url sample_cfg (env_single None 40) sample_state)
     = ("https://cdn.example.org/model.bin", false).
Proof.
  split.
  - destruct (probe_result sample_cfg (env_single (Some "bytes") 40) sample_state)
      as (_ & _ & _ & Hok).
    destruct (Hok (sample_response (Some "bytes") (HeaderInt 100)) eq_refl)
      as [Hurl Hiff]; [discriminate|].
    apply injective_projections; [exact Hurl|].
    apply Hiff. exists "bytes". split; reflexivity.
  - destruct (probe_result sample_cfg (env_single None 40) sample_state)
      as (_ & _ & _ & Hok).
    destruct (Hok (sample_response None (HeaderInt 100)) eq_refl)
      as [Hurl Hiff]; [discriminate|].
    apply injective_projections; [exact Hurl|].
    destruct (snd (fst (_get_range_support_and_url sample_cfg
                          (env_single None 40) sample_state))) eqn:E;
      [|reflexivity].
    destruct Hiff as [Hex _]. destruct (Hex eq_refl) as (v & Hv & _). discriminate.
Defined.

(* ------------------------------------------------------------------ *)
(** ** What every step of a job preserves *)

Lemma advances_refl (st : state) : advances st st.
Proof.
  split; [auto|]. exists []. rewrite app_nil_r. split; [reflexivity|constructor].
Qed.

Lemma advances_trans (a b c : state) :
  advances a b -> advances b c -> advances a c.
Proof.
  intros [Hc1 (l1 & Hl1 & Hq1)] [Hc2 (l2 & Hl2 & Hq2)]. split; [auto|].
  exists (l1 ++ l2). rewrite Hl2, Hl1, app_assoc. split; [reflexivity|].
  apply Forall_app. split; assumption.
Qed.

Lemma advances_silent (st st' : state) :
  cancel_event st' = cancel_event st -> notifications st' = notifications st ->
  advances st st'.
Proof.
  intros Hc Hn. split; [rewrite Hc; auto|].
  exists []. rewrite app_nil_r. split; [exact Hn|constructor].
Qed.

Lemma advances_update (cfg : config) (u : status_update) (st : state) :
  is_snapshot u = false -> advances st (manager_update cfg u st).
Proof.
  intros Hu. unfold manager_update. destruct (manager_attached cfg).
  - split; [auto|]. exists [u]. split; [reflexivity|]. constructor; [exact Hu|constructor].
  - apply advances_refl.
Qed.

Lemma advances_cancel (cfg : config) (st : state) : advances st (cancel cfg st).
Proof.
  unfold cancel, is_cancelled. destruct (cancel_event st) eqn:E; cbn [negb].
  - apply advances_refl.
  - eapply advances_trans; [|apply advances_update; reflexivity].
    split; [rewrite E; discriminate|].
    exists []. rewrite app_nil_r. split; [reflexivity|constructor].
Qed.

(** Peels the outermost operation off the target state. *)
Ltac adv_step :=
  match goal with
  | |- advances ?s ?s => apply advances_refl
  | |- advances ?s (cancel _ ?t) =>
      apply (advances_trans s t); [|apply advances_cancel]
  | |- advances ?s (manager_update _ _ ?t) =>
      apply (advances_trans s t); [|apply advances_update; reflexivity]
  | |- advances ?s (set_url _ ?t) =>
      apply (advances_trans s t); [|apply advances_silent; reflexivity]
  | |- advances ?s (set_total_size _ ?t) =>
      apply (advances_trans s t); [|apply advances_silent; reflexivity]
  | |- advances ?s (set_downloaded _ ?t) =>
      apply (advances_trans s t); [|apply advances_silent; reflexivity]
  | |- advances ?s (set_error _ ?t) =>
      apply (advances_trans s t); [|apply advances_silent; reflexivity]
  | |- advances ?s (set_part_files _ ?t) =>
      apply (advances_trans s t); [|apply advances_silent; reflexivity]
  | |- advances ?s (set_connection_type _ ?t) =>
      apply (advances_trans s t); [|apply advances_silent; reflexivity]
  | |- advances ?s (set_start_time _ ?t) =>
      apply (advances_trans s t); [|apply advances_silent; reflexivity]
  | |- advances ?s (set_rate _ _ _ ?t) =>
      apply (advances_trans s t); [|apply advances_silent; reflexivity]
  | |- advances ?s (set_fs_temp _ ?t) =>
      apply (advances_trans s t); [|apply advances_silent; reflexivity]
  | |- advances ?s (set_fs_output _ ?t) =>
      apply (advances_trans s t); [|apply advances_silent; reflexivity]
  | |- advances _ (if ?c then _ else _) => destruct c
  | |- advances _ (match (if ?c then _ else _) with _ => _ end) => destruct c
  | |- advances _ (match ?x with _ => _ end) => destruct x
  | |- advances _ (snd (if ?c then _ else _)) => destruct c
  | |- advances _ (snd (match ?x with _ => _ end)) => destruct x
  | |- advances _ (snd (_, _)) => cbn [snd]
  end.

Ltac adv := repeat adv_step.

Lemma advances_update_progress (cfg : config) (n : Z) (now : Q) (st : state) :
  advances st (_update_progress cfg n now st).
Proof. unfold _update_progress. cbv zeta. adv. Qed.

Lemma advances_write_part (i n : Z) (st : state) : advances st (write_part i n st).
Proof. unfold write_part. adv. Qed.

Lemma advances_write_output (n : Z) (st : state) : advances st (write_output n st).
Proof. unfold write_output. adv. Qed.

Lemma advances_cleanup cfg (b : bool) (st : state) :
  advances st (_cleanup_temp cfg b st).
Proof. unfold _cleanup_temp, rmtree_temp, unlink_output. cbv zeta. adv. Qed.

Lemma advances_retry_or_give_up cfg i t detail st :
  advances st (snd (retry_or_give_up cfg i t detail st)).
Proof. unfold retry_or_give_up. cbv zeta. adv. Qed.

Lemma advances_segment_except cfg i t response e st :
  advances st (snd (segment_except cfg i t response e st)).
Proof.
  unfold segment_except. cbv zeta.
  destruct (exn_kind e); try apply advances_retry_or_give_up;
    try (cbn [snd]; adv; fail);
    destruct (exn_response e) as [code|]; try apply advances_retry_or_give_up;
    destruct (code =? 401); try apply advances_retry_or_give_up;
    destruct (code =? 403); try apply advances_retry_or_give_up;
    destruct (response_is_416 response); try apply advances_retry_or_give_up;
    cbn [snd]; adv.
Qed.

Lemma advances_download_segment_step cfg env g w st :
  advances st (snd (download_segment_step cfg env g w st)).
Proof.
  unfold download_segment_step. cbv zeta.
  destruct w as [t|t|t r written pending fin|why].
  - destruct ((t <? retries)%nat && negb (is_cancelled st)); cbn; adv.
  - destruct (att_request _); try apply advances_segment_except.
    unfold open_part. destruct (fs_temp st); [cbn [snd]; adv|].
    apply advances_segment_except.
  - destruct pending as [|[len now] rest].
    + destruct fin; [|apply advances_segment_except].
      destruct (written =? _); [cbn; adv|apply advances_segment_except].
    + destruct (is_cancelled st); [cbn; adv|].
      destruct (0 <? len); [|cbn; adv]. cbn [snd].
      eapply advances_trans; [apply advances_write_part|].
      apply advances_update_progress.
  - cbn. adv.
Qed.

Lemma advances_cancelled (st st' : state) :
  advances st st' -> cancel_event st = true -> cancel_event st' = true.
Proof. intros [H _]. exact H. Qed.

Lemma retry_or_give_up_ok cfg i t detail st :
  thread_ok (fst (retry_or_give_up cfg i t detail st))
            (snd (retry_or_give_up cfg i t detail st)).
Proof.
  unfold retry_or_give_up, thread_ok. cbv zeta.
  destruct (retries <=? t)%nat; cbn [fst snd]; intros H.
  - apply cancel_sets_flag.
  - discriminate.
Qed.

Lemma segment_except_ok cfg i t response e st :
  thread_ok (fst (segment_except cfg i t response e st))
            (snd (segment_except cfg i t response e st)).
Proof.
  unfold segment_except. cbv zeta.
  destruct (exn_kind e); try apply retry_or_give_up_ok;
    try (intros H; discriminate);
    destruct (exn_response e) as [code|]; try apply retry_or_give_up_ok;
    destruct (code =? 401); try apply retry_or_give_up_ok;
    destruct (code =? 403); try apply retry_or_give_up_ok;
    destruct (response_is_416 response); try apply retry_or_give_up_ok;
    intros H; discriminate.
Qed.

Lemma download_segment_step_ok cfg env g w st :
  thread_ok w st ->
  thread_ok (fst (download_segment_step cfg env g w st)) (snd (download_segment_step cfg env g w st)).
Proof.
  intros Hok. unfold download_segment_step. cbv zeta.
  destruct w as [t|t|t r written pending fin|why].
  - destruct ((t <? retries)%nat && negb (is_cancelled st));
      intros H; discriminate.
  - destruct (att_request _); try apply segment_except_ok.
    unfold open_part. destruct (fs_temp st); [intros H; discriminate|].
    apply segment_except_ok.
  - destruct pending as [|[len now] rest].
    + destruct fin; [|apply segment_except_ok].
      destruct (written =? _); [intros H; discriminate|apply segment_except_ok].
    + destruct (is_cancelled st); [intros H; discriminate|].
      destruct (0 <? len); intros H; discriminate.
  - exact Hok.
Qed.

Lemma gave_up_cancels_advances ths st st' :
  gave_up_cancels ths st -> advances st st' -> gave_up_cancels ths st'.
Proof.
  intros Hok Hadv t Hin Hg. eapply advances_cancelled; eauto.
Qed.

Lemma step_thread_ok cfg env i ths st :
  gave_up_cancels ths st ->
  gave_up_cancels (fst (step_thread cfg env i ths st))
                  (snd (step_thread cfg env i ths st))
  /\ advances st (snd (step_thread cfg env i ths st)).
Proof.
  revert st. induction ths as [|t rest IH]; intros st Hok; cbn [step_thread].
  - split; [intros t []|apply advances_refl].
  - destruct (seg_index (th_segment t) =? i).
    + pose proof (download_segment_step_ok cfg env (th_segment t) (th_state t) st) as Hw.
      pose proof (advances_download_segment_step cfg env (th_segment t) (th_state t) st) as Ha.
      destruct (download_segment_step cfg env (th_segment t) (th_state t) st) as [w st'].
      cbn [fst snd] in *. split; [|exact Ha].
      intros t' [<-|Hin] Hg.
      * apply Hw; [|exact Hg]. intros Hw0. apply (Hok t); [left; reflexivity|exact Hw0].
      * eapply advances_cancelled; [exact Ha|]. apply (Hok t'); [right; exact Hin|exact Hg].
    + destruct (IH st) as [Hrest Ha].
      { intros t' Hin. apply Hok. right. exact Hin. }
      destruct (step_thread cfg env i rest st) as [rest' st']. cbn [fst snd] in *.
      split; [|exact Ha].
      intros t' [<-|Hin] Hg.
      * eapply advances_cancelled; [exact Ha|]. apply (Hok t); [left; reflexivity|exact Hg].
      * apply (Hrest t'); assumption.
Qed.

Lemma orchestrator_step_ok (p : pool) :
  pool_ok p ->
  pool_ok (orchestrator_step p) /\ advances (shared p) (shared (orchestrator_step p)).
Proof.
  unfold pool_ok, orchestrator_step. intros Hok.
  destruct (orch p) as [[|g todo]|[|i active]| |]; cbn [threads shared];
    try (split; [exact Hok|apply advances_refl]).
  - destruct (is_cancelled (shared p)); cbn [threads shared];
      (split; [|apply advances_refl]); [exact Hok|].
    intros t Hin Hg. apply in_app_or in Hin. destruct Hin as [Hin|[<-|[]]].
    + apply (Hok t); assumption.
    + discriminate.
  - destruct (is_cancelled (shared p)); cbn [threads shared];
      [|split; [exact Hok|apply advances_refl]].
    assert (Ha : advances (shared p)
                   (set_error (or_else (error (shared p)) "Cancelled") (shared p)))
      by adv.
    split; [|exact Ha]. eapply gave_up_cancels_advances; eauto.
Qed.

Lemma pool_step_ok cfg env a p :
  pool_ok p ->
  pool_ok (pool_step cfg env a p)
  /\ advances (shared p) (shared (pool_step cfg env a p)).
Proof.
  intros Hok. destruct a as [|i| |]; cbn [pool_step].
  - apply orchestrator_step_ok. exact Hok.
  - pose proof (step_thread_ok cfg env i (threads p) (shared p) Hok) as H.
    destruct (step_thread cfg env i (threads p) (shared p)) as [ths st].
    exact H.
  - unfold pool_ok. cbn [threads shared].
    split; [|apply advances_cancel].
    intros t _ _. apply cancel_sets_flag.
  - split; [exact Hok|apply advances_refl].
Qed.

Lemma run_schedule_ok cfg env sched p :
  pool_ok p ->
  pool_ok (run_schedule cfg env sched p)
  /\ advances (shared p) (shared (run_schedule cfg env sched p)).
Proof.
  revert p. induction sched as [|a rest IH]; intros p Hok; cbn [run_schedule].
  - split; [exact Hok|apply advances_refl].
  - destruct (orchestrator_done p); [split; [exact Hok|apply advances_refl]|].
    destruct (pool_step_ok cfg env a p Hok) as [H1 H2].
    destruct (IH _ H1) as [H3 H4].
    split; [exact H3|eapply advances_trans; eauto].
Qed.

Lemma iterate_orchestrator_ok n p :
  pool_ok p ->
  pool_ok (iterate n orchestrator_step p)
  /\ advances (shared p) (shared (iterate n orchestrator_step p)).
Proof.
  revert p. induction n as [|n IH]; intros p Hok; cbn [iterate].
  - split; [exact Hok|apply advances_refl].
  - destruct (orchestrator_step_ok p Hok) as [H1 H2].
    destruct (IH _ H1) as [H3 H4].
    split; [exact H3|eapply advances_trans; eauto].
Qed.

Lemma iterate_worker_ok cfg env g n w st :
  thread_ok w st ->
  let r := iterate n (fun ws => download_segment_step cfg env g (fst ws) (snd ws)) (w, st) in
  thread_ok (fst r) (snd r) /\ advances st (snd r).
Proof.
  revert w st. induction n as [|n IH]; intros w st Hok; cbn [iterate].
  - split; [exact Hok|apply advances_refl].
  - pose proof (download_segment_step_ok cfg env g w st Hok) as H1.
    pose proof (advances_download_segment_step cfg env g w st) as H2.
    cbn [fst snd].
    destruct (download_segment_step cfg env g w st) as [w' st']. cbn [fst snd] in *.
    destruct (IH w' st' H1) as [H3 H4].
    split; [exact H3|eapply advances_trans; eauto].
Qed.

Lemma run_thread_ok cfg env t st :
  thread_ok (th_state t) st ->
  thread_ok (th_state (fst (run_thread cfg env t st))) (snd (run_thread cfg env t st))
  /\ advances st (snd (run_thread cfg env t st)).
Proof.
  intros Hok. unfold run_thread.
  pose proof (iterate_worker_ok cfg env (th_segment t)
                (worker_cost cfg env (th_segment t) (th_state t) st)
                (th_state t) st Hok) as H.
  cbv zeta in H.
  destruct (iterate _ _ _) as [w st']. exact H.
Qed.

Lemma run_threads_out_ok cfg env ths st :
  gave_up_cancels ths st ->
  gave_up_cancels (fst (run_threads_out cfg env ths st))
                  (snd (run_threads_out cfg env ths st))
  /\ advances st (snd (run_threads_out cfg env ths st)).
Proof.
  revert st. induction ths as [|t rest IH]; intros st Hok; cbn [run_threads_out].
  - split; [intros t []|apply advances_refl].
  - destruct (run_thread_ok cfg env t st) as [H1 H2].
    { intros Hg. apply (Hok t); [left; reflexivity|exact Hg]. }
    destruct (run_thread cfg env t st) as [t' st1]. cbn [fst snd] in *.
    destruct (IH st1) as [H3 H4].
    { intros u Hin Hg. eapply advances_cancelled; [exact H2|].
      apply (Hok u); [right; exact Hin|exact Hg]. }
    destruct (run_threads_out cfg env rest st1) as [rest' st2]. cbn [fst snd] in *.
    split; [|eapply advances_trans; eauto].
    intros u [<-|Hin] Hg.
    + eapply advances_cancelled; [exact H4|]. apply H1. exact Hg.
    + apply (H3 u); assumption.
Qed.

Lemma complete_ok cfg env p :
  pool_ok p ->
  pool_ok (complete cfg env p) /\ advances (shared p) (shared (complete cfg env p)).
Proof.
  intros Hok. unfold complete.
  destruct (orchestrator_done p); [split; [exact Hok|apply advances_refl]|].
  set (p1 := match orch p with
             | Starting todo => iterate (S (List.length todo)) orchestrator_step p
             | _ => p
             end).
  assert (H1 : pool_ok p1 /\ advances (shared p) (shared p1)).
  { unfold p1. destruct (orch p);
      try (split; [exact Hok|apply advances_refl]).
    apply iterate_orchestrator_ok. exact Hok. }
  destruct H1 as [H1 H1a].
  pose proof (run_threads_out_ok cfg env (threads p1) (shared p1) H1) as H2.
  destruct (run_threads_out cfg env (threads p1) (shared p1)) as [ths st].
  cbn [fst snd] in H2. destruct H2 as [H2 H2a].
  set (p2 := {| orch := orch p1; threads := ths; shared := st |}).
  assert (H3 : pool_ok p2) by exact H2.
  destruct (orchestrator_step_ok p2 H3) as [H4 H4a].
  destruct (orchestrator_step_ok _ H4) as [H5 H5a].
  split; [exact H5|].
  eapply advances_trans; [exact H1a|].
  eapply advances_trans; [exact H2a|].
  eapply advances_trans; [exact H4a|exact H5a].
Qed.

Lemma run_threads_ok cfg env segments st :
  pool_ok (run_threads cfg env segments st)
  /\ advances st (shared (run_threads cfg env segments st)).
Proof.
  unfold run_threads.
  set (p0 := {| orch := Starting segments; threads := []; shared := st |}).
  assert (H0 : pool_ok p0) by (intros t []).
  destruct (run_schedule_ok cfg env (schedule env) p0 H0) as [H1 H1a].
  destruct (complete_ok cfg env _ H1) as [H2 H2a].
  split; [exact H2|]. eapply advances_trans; [exact H1a|exact H2a].
Qed.

(* ------------------------------------------------------------------ *)
(** ** The threads return and the orchestrator leaves its loop *)

Lemma url_manager_update cfg u st : url (manager_update cfg u st) = url st.
Proof. unfold manager_update. destruct (manager_attached cfg); reflexivity. Qed.

Lemma url_cancel cfg st : url (cancel cfg st) = url st.
Proof.
  unfold cancel. destruct (negb (is_cancelled st)); [|reflexivity].
  cbv zeta. rewrite url_manager_update. reflexivity.
Qed.

Lemma url_update_progress cfg n now st : url (_update_progress cfg n now st) = url st.
Proof.
  unfold _update_progress. cbv zeta.
  destruct (_ || _); [|reflexivity]. rewrite url_manager_update. reflexivity.
Qed.

Lemma url_write_part i n st : url (write_part i n st) = url st.
Proof.
  unfold write_part. destruct (fs_temp st); [|reflexivity].
  destruct (lookup_file i l); reflexivity.
Qed.

Lemma retry_or_give_up_shape cfg i t detail st :
  url (snd (retry_or_give_up cfg i t detail st)) = url st
  /\ (is_finished (fst (retry_or_give_up cfg i t detail st)) = true
      \/ ((t < retries)%nat /\ fst (retry_or_give_up cfg i t detail st) = AtLoop t)).
Proof.
  unfold retry_or_give_up. cbv zeta.
  destruct (Nat.leb_spec retries t); cbn [fst snd].
  - rewrite url_cancel. split; [reflexivity|left; reflexivity].
  - split; [reflexivity|right; split; [assumption|reflexivity]].
Qed.

Lemma segment_except_shape cfg i t response e st :
  url (snd (segment_except cfg i t response e st)) = url st
  /\ (is_finished (fst (segment_except cfg i t response e st)) = true
      \/ ((S t < retries)%nat
          /\ fst (segment_except cfg i t response e st) = AtLoop (S t))).
Proof.
  unfold segment_except. cbv zeta.
  destruct (exn_kind e); try apply retry_or_give_up_shape;
    try (cbn [fst snd]; rewrite url_cancel; (split; [reflexivity|left; reflexivity]));
    destruct (exn_response e) as [code|]; try apply retry_or_give_up_shape;
    destruct (code =? 401); try apply retry_or_give_up_shape;
    destruct (code =? 403); try apply retry_or_give_up_shape;
    destruct (response_is_416 response); try apply retry_or_give_up_shape;
    cbn [fst snd]; rewrite url_cancel; (split; [reflexivity|left; reflexivity]).
Qed.

Lemma tries_cost_url cfg env k g t st st' :
  url st' = url st -> tries_cost cfg env k g t st' = tries_cost cfg env k g t st.
Proof.
  intros Hu. revert t. induction k as [|k IH]; intros t; cbn [tries_cost].
  - reflexivity.
  - rewrite Hu, IH. reflexivity.
Qed.

Lemma worker_cost_except cfg env g t response e st (bound : nat) :
  (tries_cost cfg env (retries - S t) g (S t) st < bound)%nat ->
  (worker_cost cfg env g (fst (segment_except cfg (seg_index g) t response e st))
     (snd (segment_except cfg (seg_index g) t response e st)) <= bound)%nat.
Proof.
  intros Hb.
  destruct (segment_except_shape cfg (seg_index g) t response e st) as [Hu [Hf|[Ht Hw]]].
  - destruct (fst (segment_except cfg (seg_index g) t response e st));
      try discriminate. cbn. lia.
  - rewrite Hw. cbn [worker_cost]. rewrite (tries_cost_url _ _ _ _ _ _ _ Hu). lia.
Qed.

(** A step of a thread that has not returned uses up some of its cost. *)
Lemma download_segment_step_cost cfg env g w st :
  is_finished w = false ->
  (worker_cost cfg env g (fst (download_segment_step cfg env g w st))
     (snd (download_segment_step cfg env g w st)) < worker_cost cfg env g w st)%nat.
Proof.
  intros Hw. unfold download_segment_step. cbv zeta.
  destruct w as [t|t|t r written pending fin|why]; [| | |discriminate].
  - cbn [worker_cost].
    destruct (Nat.ltb_spec t retries) as [Ht|Ht]; cbn [andb]; [|cbn; lia].
    destruct (negb (is_cancelled st)); [|cbn; lia].
    replace (retries - t)%nat with (S (retries - S t)) by lia.
    cbn [tries_cost fst snd worker_cost]. cbv zeta. lia.
  - cbn [worker_cost]. cbv zeta.
    set (a := net_get_segment env (url st) _ t).
    set (rest := tries_cost cfg env (retries - S t) g (S t) st).
    destruct (att_request a).
    + eapply Nat.le_lt_trans;
        [apply (worker_cost_except cfg env g t _ _ st (S rest)); unfold rest; lia|lia].
    + eapply Nat.le_lt_trans;
        [apply (worker_cost_except cfg env g t _ _ st (S rest)); unfold rest; lia|lia].
    + unfold open_part. destruct (fs_temp st).
      * cbn [fst snd worker_cost].
        rewrite (tries_cost_url cfg env _ g (S t) st) by reflexivity.
        fold rest. lia.
      * eapply Nat.le_lt_trans;
        [apply (worker_cost_except cfg env g t _ _ st (S rest)); unfold rest; lia|lia].
  - cbn [worker_cost].
    set (rest := tries_cost cfg env (retries - S t) g (S t) st).
    destruct pending as [|[len now] more].
    + cbn [List.length].
      destruct fin.
      * destruct (written =? _); [cbn; lia|].
        eapply Nat.le_lt_trans;
        [apply (worker_cost_except cfg env g t _ _ st (S rest)); unfold rest; lia|lia].
      * eapply Nat.le_lt_trans;
        [apply (worker_cost_except cfg env g t _ _ st (S rest)); unfold rest; lia|lia].
    + destruct (is_cancelled st); [cbn; lia|].
      destruct (0 <? len); cbn [fst snd worker_cost List.length].
      * rewrite (tries_cost_url cfg env _ g (S t) st)
          by (rewrite url_update_progress, url_write_part; reflexivity).
        fold rest. lia.
      * fold rest. lia.
Qed.

Lemma iterate_worker_finishes cfg env g n w st :
  (worker_cost cfg env g w st <= n)%nat ->
  is_finished
    (fst (iterate n (fun ws => download_segment_step cfg env g (fst ws) (snd ws)) (w, st)))
  = true.
Proof.
  revert w st. induction n as [|n IH]; intros w st Hn; cbn [iterate fst snd].
  - destruct w; cbn in Hn; try lia. reflexivity.
  - destruct (is_finished w) eqn:Hf.
    + destruct w; try discriminate. cbn [download_segment_step].
      apply IH. cbn. lia.
    + pose proof (download_segment_step_cost cfg env g w st Hf) as Hc.
      destruct (download_segment_step cfg env g w st) as [w' st']. cbn [fst snd] in *.
      apply IH. lia.
Qed.

Lemma run_thread_finishes cfg env t st :
  is_finished (th_state (fst (run_thread cfg env t st))) = true
  /\ th_segment (fst (run_thread cfg env t st)) = th_segment t.
Proof.
  unfold run_thread.
  pose proof (iterate_worker_finishes cfg env (th_segment t)
                (worker_cost cfg env (th_segment t) (th_state t) st)
                (th_state t) st (Nat.le_refl _)) as H.
  destruct (iterate _ _ _) as [w st']. cbn [fst] in *. split; [exact H|reflexivity].
Qed.

Lemma run_threads_out_finishes cfg env ths st :
  Forall (fun t => is_finished (th_state t) = true)
         (fst (run_threads_out cfg env ths st)).
Proof.
  revert st. induction ths as [|t rest IH]; intros st; cbn [run_threads_out].
  - constructor.
  - destruct (run_thread_finishes cfg env t st) as [Hf _].
    destruct (run_thread cfg env t st) as [t' st1]. cbn [fst] in Hf.
    specialize (IH st1).
    destruct (run_threads_out cfg env rest st1) as [rest' st2]. cbn [fst] in *.
    constructor; assumption.
Qed.

Lemma finished_not_alive ths i :
  Forall (fun t => is_finished (th_state t) = true) ths -> is_alive ths i = false.
Proof.
  intros Hall. unfold is_alive.
  destruct (find _ ths) as [t|] eqn:Hfind; [|reflexivity].
  apply find_some in Hfind. destruct Hfind as [Hin _].
  rewrite Forall_forall in Hall. rewrite (Hall t Hin). reflexivity.
Qed.

Lemma filter_none {A : Type} (f : A -> bool) (l : list A) :
  (forall x, f x = false) -> filter f l = [].
Proof.
  intros Hf. induction l as [|x l IH]; cbn; [reflexivity|].
  rewrite Hf. exact IH.
Qed.

Lemma past_starting_step (q : pool) :
  (forall rest, orch q <> Starting rest) ->
  forall rest, orch (orchestrator_step q) <> Starting rest.
Proof.
  intros Hq rest. unfold orchestrator_step.
  destruct (orch q) as [todo|[|i a]| |] eqn:Ho.
  - exfalso. exact (Hq todo eq_refl).
  - discriminate.
  - destruct (is_cancelled (shared q)); discriminate.
  - rewrite Ho. discriminate.
  - rewrite Ho. discriminate.
Qed.

Lemma past_starting_iterate n (q : pool) :
  (forall rest, orch q <> Starting rest) ->
  forall rest, orch (iterate n orchestrator_step q) <> Starting rest.
Proof.
  revert q. induction n as [|n IH]; intros q Hq; cbn [iterate]; [exact Hq|].
  apply IH. apply past_starting_step. exact Hq.
Qed.

Lemma starting_ends n p todo :
  orch p = Starting todo -> (List.length todo < n)%nat ->
  forall rest, orch (iterate n orchestrator_step p) <> Starting rest.
Proof.
  revert p todo. induction n as [|n IH]; intros p todo Ho Hn; [lia|].
  cbn [iterate].
  destruct todo as [|g todo'].
  - apply past_starting_iterate. intros rest.
    unfold orchestrator_step. rewrite Ho. discriminate.
  - destruct (is_cancelled (shared p)) eqn:Hc.
    + apply past_starting_iterate. intros rest.
      unfold orchestrator_step. rewrite Ho, Hc. discriminate.
    + apply (IH _ todo'); [|cbn in Hn; lia].
      unfold orchestrator_step. rewrite Ho, Hc. reflexivity.
Qed.

(** Whatever the schedule, the orchestrator ends out of its waiting loop. *)
Lemma complete_done cfg env p : orchestrator_done (complete cfg env p) = true.
Proof.
  unfold complete. destruct (orchestrator_done p) eqn:Hd; [exact Hd|].
  set (p1 := match orch p with
             | Starting todo => iterate (S (List.length todo)) orchestrator_step p
             | _ => p
             end).
  assert (H1 : forall rest, orch p1 <> Starting rest).
  { unfold p1. destruct (orch p) as [todo| | |] eqn:Ho; try (intros; discriminate).
    - intros rest. eapply starting_ends; [exact Ho|lia].
    - intros rest. rewrite Ho. discriminate.
    - intros rest. rewrite Ho. discriminate.
    - intros rest. rewrite Ho. discriminate. }
  pose proof (run_threads_out_finishes cfg env (threads p1) (shared p1)) as H2.
  destruct (run_threads_out cfg env (threads p1) (shared p1)) as [ths st].
  cbn [fst] in H2.
  unfold orchestrator_done, orchestrator_step at 2. cbn [orch threads shared].
  destruct (orch p1) as [rest|[|i a]| |] eqn:Ho.
  - exfalso. exact (H1 rest eq_refl).
  - reflexivity.
  - destruct (is_cancelled st); [reflexivity|].
    unfold orchestrator_step. cbn [orch threads shared].
    rewrite filter_none; [reflexivity|].
    intros x. apply finished_not_alive. exact H2.
  - reflexivity.
  - reflexivity.
Qed.

Lemma run_threads_done cfg env segments st :
  orchestrator_done (run_threads cfg env segments st) = true.
Proof. apply complete_done. Qed.

(* ------------------------------------------------------------------ *)
(** ** The stages of [download] *)

Lemma advances_read_stream cfg events fin st :
  advances st (snd (read_stream cfg events fin st)).
Proof.
  revert st. induction events as [|e rest IH]; intros st; cbn [read_stream].
  - cbn. adv.
  - destruct e as [len now| |].
    + destruct (is_cancelled st); [cbn; adv|].
      destruct (0 <? len); [|apply IH].
      eapply advances_trans; [|apply IH].
      eapply advances_trans; [apply advances_write_output|].
      apply advances_update_progress.
    + eapply advances_trans; [apply advances_cancel|apply IH].
    + cbn. adv.
Qed.

Lemma advances_fallback_except e st : advances st (snd (fallback_except e st)).
Proof. unfold fallback_except. cbv zeta. destruct (exn_kind e); cbn [snd]; adv. Qed.

Lemma advances_fallback_download cfg env st :
  advances st (snd (fallback_download cfg env st)).
Proof.
  unfold fallback_download. cbv zeta.
  match goal with
  | |- advances _ (snd match fb_request ?x with _ => _ end) => set (exchange := x)
  end.
  set (st1 := set_downloaded 0 _).
  assert (H1 : advances st st1) by (unfold st1; adv).
  eapply advances_trans; [exact H1|].
  destruct (fb_request exchange) as [e|r text|response];
    try apply advances_fallback_except.
  set (st2 := if String.eqb _ _ then st1 else _).
  assert (H2 : advances st1 st2) by (unfold st2; adv).
  eapply advances_trans; [exact H2|].
  destruct (total_size st2 <=? 0).
  - destruct (content_length response) as [n|e]; [|apply advances_fallback_except].
    set (st3 := if 0 <? n then _ else _).
    assert (H3 : advances st2 st3) by (unfold st3; adv).
    eapply advances_trans; [exact H3|].
    pose proof (advances_read_stream cfg (fb_events exchange) (fb_end exchange)
                  (set_fs_output (Some 0) st3)) as H4.
    assert (H5 : advances st3 (set_fs_output (Some 0) st3)) by adv.
    destruct (read_stream cfg _ _ _) as [[| |e|] st4]; cbn [snd] in *.
    + adv; eapply advances_trans; eauto.
    + eapply advances_trans; eauto.
    + eapply advances_trans; [exact H5|].
      eapply advances_trans; [exact H4|apply advances_fallback_except].
    + eapply advances_trans; eauto.
  - pose proof (advances_read_stream cfg (fb_events exchange) (fb_end exchange)
                  (set_fs_output (Some 0) st2)) as H4.
    assert (H5 : advances st2 (set_fs_output (Some 0) st2)) by adv.
    destruct (read_stream cfg _ _ _) as [[| |e|] st4]; cbn [snd] in *.
    + adv; eapply advances_trans; eauto.
    + eapply advances_trans; eauto.
    + eapply advances_trans; [exact H5|].
      eapply advances_trans; [exact H4|apply advances_fallback_except].
    + eapply advances_trans; eauto.
Qed.

Lemma advances_fallback_branch cfg env st :
  advances st (snd (fallback_branch cfg env st)).
Proof.
  unfold fallback_branch.
  pose proof (advances_fallback_download cfg env st) as H.
  destruct (fallback_download cfg env st) as [[success|] st1]; cbn [snd] in *.
  - adv; exact H.
  - exact H.
Qed.

Lemma advances_copy_parts cfg parts st :
  advances st (snd (copy_parts cfg parts st)).
Proof.
  revert st. induction parts as [|i rest IH]; intros st; cbn [copy_parts].
  - cbn. adv.
  - destruct (match fs_temp st with Some files => lookup_file i files | None => None end).
    + eapply advances_trans; [apply advances_write_output|apply IH].
    + destruct (is_cancelled st); cbn [snd]; adv.
Qed.

Lemma advances_merge_parts cfg st : advances st (snd (merge_parts cfg st)).
Proof.
  unfold merge_parts. cbv zeta.
  destruct (part_files st) as [|i rest]; [cbn [snd]; adv|].
  pose proof (advances_copy_parts cfg (sorted (i :: rest)) (set_fs_output (Some 0) st)) as H.
  assert (H0 : advances st (set_fs_output (Some 0) st)) by adv.
  destruct (copy_parts cfg _ _) as [[| |e] st1]; cbn [snd] in *.
  - destruct (fs_output st1).
    + destruct (_ && _); cbn [snd]; adv; eapply advances_trans; eauto.
    + unfold merge_failed. cbn [snd]. adv. eapply advances_trans; eauto.
  - eapply advances_trans; eauto.
  - unfold merge_failed. cbn [snd]. adv. eapply advances_trans; eauto.
Qed.

Lemma advances_post_download_checks expected st :
  advances st (post_download_checks expected st).
Proof. unfold post_download_checks. adv. Qed.

Lemma advances_merge_stage cfg st : advances st (snd (merge_stage cfg st)).
Proof.
  unfold merge_stage. destruct (_ && _); [apply advances_merge_parts|cbn; adv].
Qed.

Lemma advances_multi_branch cfg env segments expected st :
  advances st (snd (multi_branch cfg env segments expected st)).
Proof.
  unfold multi_branch. cbv zeta.
  destruct (run_threads_ok cfg env segments st) as [_ H1].
  assert (H2 : advances st (snd (let (success, st0) :=
              merge_stage cfg (post_download_checks expected
                 (shared (run_threads cfg env segments st)))
            in (Returns success, st0)))).
  { pose proof (advances_merge_stage cfg (post_download_checks expected
                 (shared (run_threads cfg env segments st)))) as H3.
    destruct (merge_stage cfg _) as [success st3]. cbn [snd] in *.
    eapply advances_trans; [exact H1|].
    eapply advances_trans; [apply advances_post_download_checks|exact H3]. }
  destruct (orch (run_threads cfg env segments st)); try exact H2.
  exact H1.
Qed.

Lemma advances_multi_prepare cfg st :
  match multi_prepare cfg st with
  | inl (_, st') => advances st st'
  | inr st' => advances st st'
  end.
Proof.
  unfold multi_prepare, clean_temp_dir, rmtree_temp, mkdir_temp. cbv zeta.
  match goal with
  | |- context [if is_some (fs_temp ?s) then _ else _] => set (st1 := s)
  end.
  assert (H1 : advances st st1) by (unfold st1; adv).
  destruct (is_some (fs_temp st1)) eqn:E; cbn [is_some fs_temp set_fs_temp];
    rewrite ?E; (eapply advances_trans; [exact H1|adv]).
Qed.

Lemma advances_download_try cfg env supports st :
  advances st (snd (download_try cfg env supports st)).
Proof.
  unfold download_try. cbv zeta.
  destruct (use_multi_connection _ _ _); [|apply advances_fallback_branch].
  pose proof (advances_multi_prepare cfg st) as H.
  destruct (multi_prepare cfg st) as [[segments st1]|st1]; [|exact H].
  eapply advances_trans; [exact H|].
  destruct segments as [|g rest].
  - eapply advances_trans; [|apply advances_fallback_branch]. adv.
  - apply advances_multi_branch.
Qed.

Lemma advances_probe cfg env st :
  advances st (snd (_get_range_support_and_url cfg env st)).
Proof.
  unfold _get_range_support_and_url, head_try. cbv zeta.
  destruct (net_head env _ _) as [e|r text|response].
  - destruct (exn_kind e); cbn [snd]; adv.
  - cbn [exn_kind http_error snd]. adv.
  - destruct (total_size (set_url (resp_url response) st) <=? 0); [|cbn [snd]; adv].
    destruct (content_length response) as [n|e].
    + cbn [snd]. adv.
    + destruct (exn_kind e); cbn [snd]; adv.
Qed.

Lemma advances_download_start cfg env st :
  advances st (download_start cfg env st).
Proof.
  unfold download_start. cbv zeta.
  destruct (is_some _); [eapply advances_trans; [|apply advances_cleanup]|]; adv.
Qed.

Lemma advances_download_probe cfg env st :
  advances st (snd (download_probe cfg env st)).
Proof.
  unfold download_probe. cbv zeta.
  pose proof (advances_probe cfg env (download_start cfg env st)) as H.
  destruct (_get_range_support_and_url cfg env _) as [[final_url supports] st1].
  cbn [snd] in *.
  eapply advances_trans; [apply advances_download_start|exact H].
Qed.

Lemma advances_download_except cfg r :
  advances (snd r) (snd (download_except cfg r)).
Proof.
  destruct r as [[success|] st]; cbn [download_except snd]; adv.
Qed.

(* ------------------------------------------------------------------ *)
(** ** The output file *)

Lemma out_manager_update cfg u st : fs_output (manager_update cfg u st) = fs_output st.
Proof. unfold manager_update. destruct (manager_attached cfg); reflexivity. Qed.

Lemma out_cancel cfg st : fs_output (cancel cfg st) = fs_output st.
Proof.
  unfold cancel. destruct (negb (is_cancelled st)); [|reflexivity].
  cbv zeta. rewrite out_manager_update. reflexivity.
Qed.

Lemma out_update_progress cfg n now st :
  fs_output (_update_progress cfg n now st) = fs_output st.
Proof.
  unfold _update_progress. cbv zeta.
  destruct (_ || _); [|reflexivity]. rewrite out_manager_update. reflexivity.
Qed.

Lemma out_fallback_except e st : fs_output (snd (fallback_except e st)) = fs_output st.
Proof. unfold fallback_except. cbv zeta. destruct (exn_kind e); reflexivity. Qed.

Lemma read_stream_keeps_output cfg events fin st :
  is_some (fs_output st) = true ->
  is_some (fs_output (snd (read_stream cfg events fin st))) = true.
Proof.
  revert st. induction events as [|e rest IH]; intros st Hs; cbn [read_stream].
  - exact Hs.
  - destruct e as [len now| |].
    + destruct (is_cancelled st); [exact Hs|].
      destruct (0 <? len); [|apply IH; exact Hs].
      apply IH. rewrite out_update_progress. unfold write_output.
      destruct (fs_output st); [reflexivity|discriminate].
    + apply IH. rewrite out_cancel. exact Hs.
    + exact Hs.
Qed.

Lemma fallback_download_success cfg env st st' :
  fallback_download cfg env st = (Returns true, st') ->
  is_some (fs_output st') = true.
Proof.
  unfold fallback_download. cbv zeta.
  match goal with
  | |- match fb_request ?x with _ => _ end = _ -> _ => set (exchange := x)
  end.
  set (st1 := set_downloaded 0 _).
  destruct (fb_request exchange) as [e|r text|response].
  - unfold fallback_except. destruct (exn_kind e); discriminate.
  - unfold fallback_except. cbn [exn_kind http_error]. discriminate.
  - set (st2 := if String.eqb _ _ then st1 else _).
    assert (Hgo : forall st3,
      match read_stream cfg (fb_events exchange) (fb_end exchange)
              (set_fs_output (Some 0) st3) with
      | (StreamDone, st0) =>
          (Returns true,
           if (0 <? total_size st0) && negb (downloaded st0 =? total_size st0)
           then set_error
                  (Some ("Fallback download size mismatch. Expected "
                         @@ str (total_size st0) @@ ", got "
                         @@ str (downloaded st0) @@ ".")) st0
           else st0)
      | (StreamCancelled, st0) => (Returns false, st0)
      | (StreamFailed e, st0) => fallback_except e st0
      | (StreamInterrupted, st0) => (RaisesKeyboardInterrupt, st0)
      end = (Returns true, st') -> is_some (fs_output st') = true).
    { intros st3.
      pose proof (read_stream_keeps_output cfg (fb_events exchange) (fb_end exchange)
                    (set_fs_output (Some 0) st3) eq_refl) as Hk.
      destruct (read_stream cfg _ _ _) as [[| |e|] st4]; cbn [snd] in Hk.
      - intros H. injection H as <-.
        destruct (_ && _); exact Hk.
      - discriminate.
      - unfold fallback_except. destruct (exn_kind e); discriminate.
      - discriminate. }
    destruct (total_size st2 <=? 0).
    + destruct (content_length response) as [n|e].
      * apply Hgo.
      * unfold fallback_except. destruct (exn_kind e); discriminate.
    + apply Hgo.
Qed.

Lemma merge_parts_success cfg st st' :
  merge_parts cfg st = (true, st') -> is_some (fs_output st') = true.
Proof.
  unfold merge_parts. cbv zeta.
  destruct (part_files st) as [|i rest]; [discriminate|].
  destruct (copy_parts cfg _ _) as [[| |e] st1]; try discriminate.
  destruct (fs_output st1) as [final_size|] eqn:Ho; [|discriminate].
  destruct (_ && _); [discriminate|].
  intros H. injection H as <-. rewrite Ho. reflexivity.
Qed.

Lemma download_try_success cfg env supports st st' :
  download_try cfg env supports st = (Returns true, st') ->
  is_some (fs_output st') = true.
Proof.
  assert (Hfb : forall s, fallback_branch cfg env s = (Returns true, st') ->
                          is_some (fs_output st') = true).
  { intros s. unfold fallback_branch.
    destruct (fallback_download cfg env s) as [[success|] s1] eqn:Hf; [|discriminate].
    destruct success; [|discriminate]. cbn [negb andb].
    intros H. injection H as <-. eapply fallback_download_success. exact Hf. }
  unfold download_try. cbv zeta.
  destruct (use_multi_connection _ _ _); [|apply Hfb].
  destruct (multi_prepare cfg st) as [[segments st1]|st1]; [|discriminate].
  destruct segments as [|g rest]; [apply Hfb|].
  unfold multi_branch. cbv zeta.
  destruct (orch _); try discriminate;
    (destruct (merge_stage cfg _) as [success st2] eqn:Hm;
     intros H; injection H as -> <-;
     unfold merge_stage in Hm;
     destruct (_ && _); [eapply merge_parts_success; exact Hm|discriminate]).
Qed.

Lemma cleanup_temp_removes cfg (success : bool) (st : state) :
  fs_temp (_cleanup_temp cfg success st) = None
  /\ fs_output (_cleanup_temp cfg success st)
     = (if success then fs_output st else None)
  /\ cancel_event (_cleanup_temp cfg success st) = cancel_event st
  /\ error (_cleanup_temp cfg success st) = error st
  /\ total_size (_cleanup_temp cfg success st) = total_size st
  /\ downloaded (_cleanup_temp cfg success st) = downloaded st
  /\ connection_type (_cleanup_temp cfg success st) = connection_type st
  /\ notifications (_cleanup_temp cfg success st) = notifications st.
Proof.
  unfold _cleanup_temp, rmtree_temp, unlink_output. cbv zeta.
  set (st1 := if is_some (fs_temp st) then _ else st).
  assert (H1 : fs_temp st1 = None /\ fs_output st1 = fs_output st
               /\ cancel_event st1 = cancel_event st /\ error st1 = error st
               /\ total_size st1 = total_size st /\ downloaded st1 = downloaded st
               /\ connection_type st1 = connection_type st
               /\ notifications st1 = notifications st).
  { unfold st1. destruct (fs_temp st) eqn:Ht; cbn; repeat split; auto. }
  destruct H1 as (Ht & Ho & Hc & He & Hts & Hd & Hct & Hn).
  destruct success; cbn [negb andb]; [repeat split; assumption|].
  destruct (fs_output st1) eqn:Ho1; cbn [is_some];
    cbn; repeat split; auto.
Qed.


(** The update that the [finally] clause sends. *)
Lemma download_finally_result cfg success st :
  let r := download_finally cfg (success, st) in
  fst r = success
  /\ fs_temp (snd r) = None
  /\ fs_output (snd r) = (if success then fs_output st else None)
  /\ cancel_event (snd r) = cancel_event st
  /\ error (snd r) = error st
  /\ total_size (snd r) = total_size st
  /\ downloaded (snd r) = downloaded st
  /\ (manager_attached cfg = true ->
      notifications (snd r)
      = notifications st
        ++ [{| upd_status :=
                 Some (if success then "completed"
                       else if cancel_event st then "cancelled" else "failed");
               upd_progress := Some (Qmin 100 (final_progress success st));
               upd_speed := Some 0%Q;
               upd_error := Some (error st);
               upd_connection_type := Some (connection_type st) |}]).
Proof.
  cbv zeta. unfold download_finally.
  destruct (cleanup_temp_removes cfg success st)
    as (Ht & Ho & Hc & He & Hts & Hd & Hct & Hn).
  unfold manager_update, is_cancelled.
  destruct (manager_attached cfg); cbn [fst snd fs_temp fs_output cancel_event
    error total_size downloaded notifications set_notifications];
    repeat split; auto; try discriminate.
  intros _. rewrite Hn, Hc, He.
  unfold final_progress.
  rewrite Hts, Hd, Hct. reflexivity.
Qed.

Lemma download_stages cfg env st :
  exists supports st1 r,
    download_probe cfg env st = (supports, st1)
    /\ download_try cfg env supports st1 = r
    /\ download cfg env st = download_finally cfg (download_except cfg r)
    /\ advances st (snd (download_except cfg r))
    /\ (fst (download_except cfg r) = true ->
        is_some (fs_output (snd (download_except cfg r))) = true).
Proof.
  pose proof (advances_download_probe cfg env st) as H1.
  unfold download.
  destruct (download_probe cfg env st) as [supports st1]. cbn [snd] in H1.
  exists supports, st1, (download_try cfg env supports st1).
  split; [reflexivity|]. split; [reflexivity|]. split; [reflexivity|]. split.
  - pose proof (advances_download_try cfg env supports st1) as H2.
    pose proof (advances_download_except cfg (download_try cfg env supports st1)) as H3.
    eapply advances_trans; [exact H1|]. eapply advances_trans; [exact H2|exact H3].
  - destruct (download_try cfg env supports st1) as [[success|] st2] eqn:Ht;
      cbn [download_except fst snd]; [|intros H; discriminate].
    intros ->. eapply download_try_success. exact Ht.
Qed.

(** The cancellation flag is never cleared: a download that starts or
    becomes cancelled ends cancelled. *)
Lemma download_keeps_cancel_flag cfg env st :
  cancel_event st = true -> cancel_event (snd (download cfg env st)) = true.
Proof.
  intros Hc.
  destruct (download_stages cfg env st) as (supports & st1 & r & _ & _ & -> & Hadv & _).
  destruct (download_except cfg r) as [success st2]. cbn [snd] in Hadv.
  destruct (download_finally_result cfg success st2) as (_ & _ & _ & Hcc & _).
  rewrite Hcc. exact (advances_cancelled _ _ Hadv Hc).
Qed.

(* ------------------------------------------------------------------ *)
(** ** The updates that carry a status *)











































(* ------------------------------------------------------------------ *)
(** ** A leftover temp directory *)

(** C9. When the temp directory of the job exists as [download] starts, the
    state on which the probe runs has neither the temp directory nor any
    file at the output path, whatever that file was; the probe does not
    bring them back.  Without a leftover temp directory the output file is
    left as it was. *)
Theorem leftover_temp_removes_output (cfg : config) (env : environment)
    (st : state) :
  (is_some (fs_temp st) = true ->
   fs_temp (download_start cfg env st) = None
   /\ fs_output (download_start cfg env st) = None
   /\ fs_temp (snd (download_probe cfg env st)) = None
   /\ fs_output (snd (download_probe cfg env st)) = None)
  /\ (fs_temp st = None ->
      fs_output (download_start cfg env st) = fs_output st).
Proof.
  assert (Hprobe : forall s,
            fs_temp (snd (_get_range_support_and_url cfg env s)) = fs_temp s
            /\ fs_output (snd (_get_range_support_and_url cfg env s)) = fs_output s).
  { intros s. unfold _get_range_support_and_url, head_try. cbv zeta.
    destruct (net_head env _ _) as [e|r text|response].
    - destruct (exn_kind e); split; reflexivity.
    - split; reflexivity.
    - destruct (total_size (set_url (resp_url response) s) <=? 0);
        [|split; reflexivity].
      destruct (content_length response) as [n|e].
      + destruct (0 <? n); split; reflexivity.
      + destruct (exn_kind e); split; reflexivity. }
  split.
  - intros Hleft.
    assert (Hstart : fs_temp (download_start cfg env st) = None
                     /\ fs_output (download_start cfg env st) = None).
    { unfold download_start. cbv zeta.
      cbn [fs_temp set_error set_downloaded set_start_time]. rewrite Hleft.
      destruct (cleanup_temp_removes cfg false
                  (set_error None (set_downloaded 0
                     (set_start_time (clock_start env) st)))) as (H1 & H2 & _).
      split; assumption. }
    destruct Hstart as [H1 H2]. split; [exact H1|]. split; [exact H2|].
    unfold download_probe. cbv zeta.
    destruct (Hprobe (download_start cfg env st)) as [H3 H4].
    destruct (_get_range_support_and_url cfg env (download_start cfg env st))
      as [[final_url supports] st1].
    cbn [snd] in *. rewrite H3, H4. split; assumption.
  - intros Hnone. unfold download_start. cbv zeta.
    cbn [fs_temp set_error set_downloaded set_start_time]. rewrite Hnone.
    reflexivity.
Qed.

Lemma leftover_temp_removes_output_witness :
  fs_output (init sample_cfg (Some 20971520) (Some [(0, 512)]) (Some 20971520))
  = Some 20971520
  /\ fs_temp (download_start sample_cfg (env_single None 40)
                (init sample_cfg (Some 20971520) (Some [(0, 512)])
                   (Some 20971520))) = None
  /\ fs_output (download_start sample_cfg (env_single None 40)
                  (init sample_cfg (Some 20971520) (Some [(0, 512)])
                     (Some 20971520))) = None.
Proof.
  split; [reflexivity|].
  destruct (leftover_temp_removes_output sample_cfg (env_single None 40)
              (init sample_cfg (Some 20971520) (Some [(0, 512)]) (Some 20971520)))
    as [H _].
  destruct (H eq_refl) as (H1 & H2 & _). split; assumption.
Defined.

(* ------------------------------------------------------------------ *)
(** ** The single stream *)

Lemma update_progress_frame cfg n now st :
  downloaded (_update_progress cfg n now st) = downloaded st + n
  /\ total_size (_update_progress cfg n now st) = total_size st
  /\ cancel_event (_update_progress cfg n now st) = cancel_event st
  /\ error (_update_progress cfg n now st) = error st
  /\ fs_output (_update_progress cfg n now st) = fs_output st.
Proof.
  unfold _update_progress, manager_update. cbv zeta.
  destruct (_ || _); [|repeat split].
  destruct (manager_attached cfg); repeat split.
Qed.

(** A stream of chunks that nobody interrupts is read to its end: every
    non-empty chunk is written and counted. *)
Lemma read_stream_chunks cfg events st :
  forallb is_chunk events = true -> cancel_event st = false ->
  let r := read_stream cfg events StreamEnd st in
  fst r = StreamDone
  /\ downloaded (snd r) = downloaded st + received events
  /\ total_size (snd r) = total_size st
  /\ cancel_event (snd r) = false
  /\ error (snd r) = error st
  /\ fs_output (snd r)
     = match fs_output st with
       | Some size => Some (size + received events)
       | None => None
       end.
Proof.
  revert st. induction events as [|e rest IH]; intros st Hall Hc; cbv zeta.
  - cbn [read_stream fst snd received]. rewrite Z.add_0_r.
    repeat split; auto.
    destruct (fs_output st); [rewrite Z.add_0_r|]; reflexivity.
  - destruct e as [len now| |]; try discriminate.
    cbn [forallb is_chunk andb] in Hall.
    cbn [read_stream received]. unfold is_cancelled. rewrite Hc.
    destruct (0 <? len).
    + destruct (update_progress_frame cfg len now (write_output len st))
        as (Hd & Ht & Hcc & He & Ho).
      assert (Hw : downloaded (write_output len st) = downloaded st
                   /\ total_size (write_output len st) = total_size st
                   /\ cancel_event (write_output len st) = cancel_event st
                   /\ error (write_output len st) = error st
                   /\ fs_output (write_output len st)
                      = match fs_output st with
                        | Some size => Some (size + len)
                        | None => None
                        end).
      { unfold write_output. destruct (fs_output st) eqn:E; cbn; rewrite ?E; auto. }
      destruct Hw as (Hwd & Hwt & Hwc & Hwe & Hwo).
      destruct (IH (_update_progress cfg len now (write_output len st)) Hall)
        as (H1 & H2 & H3 & H4 & H5 & H6).
      { rewrite Hcc, Hwc. exact Hc. }
      rewrite H1, H2, H3, H4, H5, H6, Hd, Ht, He, Ho, Hwd, Hwt, Hwe, Hwo.
      split; [reflexivity|]. split; [lia|]. split; [reflexivity|].
      split; [reflexivity|]. split; [reflexivity|].
      destruct (fs_output st); [f_equal; lia|reflexivity].
    + destruct (IH st Hall Hc) as (H1 & H2 & H3 & H4 & H5 & H6).
      rewrite H1, H2, H3, H4, H5, H6.
      split; [reflexivity|]. split; [lia|]. split; [reflexivity|].
      split; [reflexivity|]. split; [reflexivity|].
      destruct (fs_output st); [f_equal; lia|reflexivity].
Qed.

(** The fallback on a response that passes, with a readable size and an
    uninterrupted stream: it returns [True] with every byte written; when
    the count differs from the positive total the mismatch is only
    recorded. *)
Lemma fallback_download_streams cfg env st response total :
  cancel_event st = false ->
  let exchange := net_get_fallback env (url st) (_get_request_headers cfg None) in
  fb_request exchange = ResponseOk response ->
  forallb is_chunk (fb_events exchange) = true ->
  fb_end exchange = StreamEnd ->
  (0 < total_size st /\ total = total_size st)
  \/ (total_size st <= 0 /\ resp_content_length response = HeaderInt total
      /\ 0 < total) ->
  received (fb_events exchange) <> total ->
  exists st',
    fallback_download cfg env st = (Returns true, st')
    /\ cancel_event st' = false
    /\ fs_output st' = Some (received (fb_events exchange))
    /\ downloaded st' = received (fb_events exchange)
    /\ total_size st' = total
    /\ error st'
       = Some ("Fallback download size mismatch. Expected " @@ str total
               @@ ", got " @@ str (received (fb_events exchange)) @@ ".").
Proof.
  intros Hc exchange Hreq Hall Hend Htotal Hneq.
  unfold fallback_download. cbv zeta.
  set (st1 := set_downloaded 0 _).
  assert (H1 : url st1 = url st /\ cancel_event st1 = false
               /\ total_size st1 = total_size st /\ downloaded st1 = 0).
  { unfold st1, manager_update. destruct (manager_attached cfg); cbn; auto. }
  destruct H1 as (Hu & Hc1 & Ht1 & Hd1).
  rewrite Hu. fold exchange. rewrite Hreq.
  set (st2 := if String.eqb _ _ then st1 else _).
  assert (H2 : cancel_event st2 = false /\ total_size st2 = total_size st
               /\ downloaded st2 = 0).
  { unfold st2. destruct (String.eqb _ _); cbn; auto. }
  destruct H2 as (Hc2 & Ht2 & Hd2).
  assert (Hgo : forall st3,
            cancel_event st3 = false -> total_size st3 = total ->
            downloaded st3 = 0 ->
            exists st',
              match read_stream cfg (fb_events exchange) (fb_end exchange)
                      (set_fs_output (Some 0) st3) with
              | (StreamDone, st0) =>
                  (Returns true,
                   if (0 <? total_size st0) && negb (downloaded st0 =? total_size st0)
                   then set_error
                          (Some ("Fallback download size mismatch. Expected "
                                 @@ str (total_size st0) @@ ", got "
                                 @@ str (downloaded st0) @@ ".")) st0
                   else st0)
              | (StreamCancelled, st0) => (Returns false, st0)
              | (StreamFailed e, st0) => fallback_except e st0
              | (StreamInterrupted, st0) => (RaisesKeyboardInterrupt, st0)
              end = (Returns true, st')
              /\ cancel_event st' = false
              /\ fs_output st' = Some (received (fb_events exchange))
              /\ downloaded st' = received (fb_events exchange)
              /\ total_size st' = total
              /\ error st'
                 = Some ("Fallback download size mismatch. Expected " @@ str total
                         @@ ", got " @@ str (received (fb_events exchange)) @@ ".")).
  { intros st3 Hc3 Ht3 Hd3. rewrite Hend.
    destruct (read_stream_chunks cfg (fb_events exchange)
                (set_fs_output (Some 0) st3) Hall Hc3)
      as (R1 & R2 & R3 & R4 & R5 & R6).
    destruct (read_stream cfg _ _ _) as [res st4]. cbn [fst snd] in *.
    subst res. cbn [downloaded total_size fs_output set_fs_output] in *.
    rewrite Hd3 in R2. rewrite Ht3 in R3. cbn in R2, R6.
    rewrite R2, R3.
    assert (Hpos : 0 < total) by (destruct Htotal as [[? ?]|(? & ? & ?)]; lia).
    destruct (Z.ltb_spec 0 total); [|lia].
    destruct (Z.eqb_spec (received (fb_events exchange)) total); [contradiction|].
    cbn [andb negb].
    eexists. split; [reflexivity|]. cbn. repeat split; auto. }
  destruct Htotal as [[Hpos Heq]|(Hle & Hcl & Hpos)].
  - destruct (Z.leb_spec (total_size st2) 0); [lia|].
    apply Hgo; auto. lia.
  - destruct (Z.leb_spec (total_size st2) 0); [|lia].
    unfold content_length. rewrite Hcl.
    destruct (Z.ltb_spec 0 total); [|lia].
    apply Hgo; auto.
Qed.

(** C10. A download that takes the single-connection branch, whose GET
    passes and whose stream ends without exception, cancellation or
    interrupt, but delivers a byte count different from the known positive
    total: [fallback_download] returns [True], [download] returns [True],
    the output file stays with the bytes received, the recorded error is the
    size-mismatch text, and the final update reports "completed" together
    with that error. *)
Theorem fallback_mismatch_completes (cfg : config) (env : environment)
    (st st1 : state) (supports : bool) (response : http_response) (total : Z) :
  download_probe cfg env st = (supports, st1) ->
  use_multi_connection supports (num_connections cfg) (total_size st1) = false ->
  cancel_event st1 = false ->
  let exchange := net_get_fallback env (url st1) (_get_request_headers cfg None) in
  let got := received (fb_events exchange) in
  let mismatch :=
    "Fallback download size mismatch. Expected " @@ str total
    @@ ", got " @@ str got @@ "." in
  fb_request exchange = ResponseOk response ->
  forallb is_chunk (fb_events exchange) = true ->
  fb_end exchange = StreamEnd ->
  (0 < total_size st1 /\ total = total_size st1)
  \/ (total_size st1 <= 0 /\ resp_content_length response = HeaderInt total
      /\ 0 < total) ->
  got <> total ->
  fst (fallback_download cfg env st1) = Returns true
  /\ fst (download cfg env st) = true
  /\ fs_output (snd (download cfg env st)) = Some got
  /\ error (snd (download cfg env st)) = Some mismatch
  /\ (manager_attached cfg = true ->
      exists earlier final,
        notifications (snd (download cfg env st))
        = notifications st ++ earlier ++ [final]
        /\ upd_status final = Some "completed"
        /\ upd_error final = Some (Some mismatch)).
Proof.
  intros Hprobe Hgate Hc exchange got mismatch Hreq Hall Hend Htotal Hneq.
  destruct (fallback_download_streams cfg env st1 response total
              Hc Hreq Hall Hend Htotal Hneq)
    as (st2 & Hfb & Hc2 & Ho2 & Hd2 & Ht2 & He2).
  fold exchange in Ho2, Hd2, He2. fold got in Ho2, Hd2, He2. fold mismatch in He2.
  split; [rewrite Hfb; reflexivity|].
  assert (Htry : download_try cfg env supports st1 = (Returns true, st2)).
  { unfold download_try. cbv zeta. rewrite Hgate.
    unfold fallback_branch. rewrite Hfb. reflexivity. }
  pose proof (advances_download_probe cfg env st) as Ha1.
  rewrite Hprobe in Ha1. cbn [snd] in Ha1.
  pose proof (advances_download_try cfg env supports st1) as Ha2.
  rewrite Htry in Ha2. cbn [snd] in Ha2.
  unfold download. rewrite Hprobe, Htry. cbn [download_except].
  destruct (download_finally_result cfg true st2)
    as (Hs & _ & Ho & _ & He & _ & _ & Hn).
  split; [exact Hs|]. split; [rewrite Ho; exact Ho2|].
  split; [rewrite He; exact He2|].
  intros Hm.
  destruct (advances_trans _ _ _ Ha1 Ha2) as [_ (earlier & Hlog & _)].
  eexists earlier, _. rewrite (Hn Hm), Hlog, <- app_assoc.
  split; [reflexivity|]. cbn [upd_status upd_error]. rewrite He2. split; reflexivity.
Qed.

Lemma fallback_mismatch_completes_witness :
  fst (download sample_cfg (env_single None 30) (init sample_cfg None None None))
  = true
  /\ fs_output (snd (download sample_cfg (env_single None 30)
                       (init sample_cfg None None None))) = Some 90
  /\ error (snd (download sample_cfg (env_single None 30)
                   (init sample_cfg None None None)))
     = Some "Fallback download size mismatch. Expected 100, got 90.".
Proof.
  destruct (fallback_mismatch_completes sample_cfg (env_single None 30)
              (init sample_cfg None None None)
              (snd (download_probe sample_cfg (env_single None 30)
                      (init sample_cfg None None None)))
              false (sample_response None (HeaderInt 100)) 100)
    as (_ & H1 & H2 & H3 & _);
    try reflexivity.
  - left. split; [reflexivity|reflexivity].
  - discriminate.
  - repeat split; assumption.
Defined.

(** The sample jobs run as expected: two segments merged into the whole
    file, and a single stream when the server does not advertise ranges. *)
Example multi_download_completes :
  fst (download sample_cfg env_segments_arrive sample_state) = true
  /\ fs_output (snd (download sample_cfg env_segments_arrive sample_state))
     = Some 20971520
  /\ fs_temp (snd (download sample_cfg env_segments_arrive sample_state)) = None
  /\ connection_type (snd (download sample_cfg env_segments_arrive sample_state))
     = "Multi (2)"
  /\ final_status sample_cfg env_segments_arrive sample_state = Some "completed".
Proof. vm_compute. repeat split. Qed.

Example single_download_completes :
  fst (download sample_cfg (env_single None 40) (init sample_cfg None None None))
  = true
  /\ fs_output (snd (download sample_cfg (env_single None 40)
                       (init sample_cfg None None None))) = Some 100
  /\ error (snd (download sample_cfg (env_single None 40)
                   (init sample_cfg None None None))) = None
  /\ connection_type (snd (download sample_cfg (env_single None 40)
                             (init sample_cfg None None None))) = "Single".
Proof. vm_compute. repeat split. Qed.

(* ------------------------------------------------------------------ *)
(** ** Merging *)

Lemma insert_sorted_size files i l :
  parts_size files (insert_sorted i l) = parts_size files (i :: l).
Proof.
  induction l as [|j rest IH]; cbn [insert_sorted]; [reflexivity|].
  destruct (i <=? j); [reflexivity|].
  cbn [parts_size] in *. rewrite IH. lia.
Qed.

Lemma sorted_size files l : parts_size files (sorted l) = parts_size files l.
Proof.
  induction l as [|i rest IH]; [reflexivity|].
  cbn [sorted fold_right]. fold (sorted rest).
  rewrite insert_sorted_size. cbn [parts_size]. rewrite IH. reflexivity.
Qed.

Lemma insert_sorted_present files i l :
  all_present files (i :: l) -> all_present files (insert_sorted i l).
Proof.
  unfold all_present. induction l as [|j rest IH]; intros H; cbn [insert_sorted].
  - exact H.
  - destruct (i <=? j); [exact H|].
    inversion H as [|? ? Hi Hrest]; subst.
    inversion Hrest as [|? ? Hj Hrest']; subst.
    constructor; [exact Hj|]. apply IH. constructor; assumption.
Qed.

Lemma sorted_present files l : all_present files l -> all_present files (sorted l).
Proof.
  unfold all_present. induction l as [|i rest IH]; intros H; [constructor|].
  cbn [sorted fold_right]. fold (sorted rest).
  inversion H as [|? ? Hi Hrest]; subst.
  apply insert_sorted_present. constructor; [exact Hi|]. apply IH. exact Hrest.
Qed.

(** With every part in place the copy loop appends them all and touches
    nothing but the output file. *)
Lemma copy_parts_present cfg files parts st size :
  fs_temp st = Some files -> all_present files parts ->
  fs_output st = Some size ->
  exists st',
    copy_parts cfg parts st = (MergeCopied, st')
    /\ fs_output st' = Some (size + parts_size files parts)
    /\ total_size st' = total_size st
    /\ error st' = error st
    /\ cancel_event st' = cancel_event st.
Proof.
  revert st size. induction parts as [|i rest IH]; intros st size Ht Hall Ho.
  - exists st. cbn. rewrite Ho, Z.add_0_r. repeat split.
  - inversion Hall as [|? ? Hi Hrest]; subst.
    cbn [copy_parts parts_size]. rewrite Ht.
    destruct (lookup_file i files) as [n|]; [|discriminate].
    destruct (IH (write_output n st) (size + n)) as (st' & H1 & H2 & H3 & H4 & H5).
    + unfold write_output. rewrite Ho. exact Ht.
    + exact Hrest.
    + unfold write_output. rewrite Ho. reflexivity.
    + exists st'. rewrite H1, H2, H3, H4, H5.
      unfold write_output. rewrite Ho. cbn.
      split; [reflexivity|]. split; [f_equal; lia|]. repeat split.
Qed.

Lemma merge_parts_present cfg files st :
  part_files st <> [] -> fs_temp st = Some files ->
  all_present files (part_files st) ->
  let merged := parts_size files (part_files st) in
  let significant := (0 <? total_size st) && (1 <? Z.abs (merged - total_size st)) in
  fst (merge_parts cfg st) = negb significant
  /\ fs_output (snd (merge_parts cfg st)) = Some merged
  /\ cancel_event (snd (merge_parts cfg st)) = cancel_event st
  /\ error (snd (merge_parts cfg st))
     = (if significant then Some (merged_size_error merged (total_size st))
        else error st).
Proof.
  intros Hne Ht Hall merged significant. unfold merge_parts. cbv zeta.
  destruct (part_files st) as [|i rest] eqn:Hp; [contradiction|].
  destruct (copy_parts_present cfg files (sorted (i :: rest))
              (set_fs_output (Some 0) st) 0)
    as (st1 & H1 & H2 & H3 & H4 & H5);
    [exact Ht | apply sorted_present; exact Hall | reflexivity |].
  rewrite H1, H2, H3. rewrite sorted_size. cbn [Z.add total_size set_fs_output].
  fold merged. fold significant.
  destruct significant; cbn [fst snd negb fs_output cancel_event error set_error].
  - rewrite H2, H5, sorted_size. repeat split.
  - rewrite H2, H4, H5, sorted_size. repeat split.
Qed.

(** C6. A merge over part files that are all in place, the total size
    known and positive: when the concatenated size differs from the total
    by more than 1 byte, [merge_parts] returns [False] and records the
    size-mismatch error, and the job, which reaches the merge with no error
    and no cancellation, ends "failed" with no output file; when the
    difference is at most 1 byte, [merge_parts] returns [True], records
    nothing, and the job ends "completed" with the merged file. *)
Theorem merge_size_tolerance (cfg : config) (st : state) (files : list (Z * Z)) :
  part_files st <> [] -> fs_temp st = Some files ->
  all_present files (part_files st) -> 0 < total_size st ->
  truthy (error st) = false -> cancel_event st = false ->
  manager_attached cfg = true ->
  let merged := parts_size files (part_files st) in
  let job := download_finally cfg (merge_stage cfg st) in
  (1 < Z.abs (merged - total_size st) ->
   fst (merge_parts cfg st) = false
   /\ error (snd (merge_parts cfg st))
      = Some (merged_size_error merged (total_size st))
   /\ fst job = false
   /\ fs_output (snd job) = None
   /\ exists final,
        notifications (snd job) = notifications st ++ [final]
        /\ upd_status final = Some "failed"
        /\ upd_error final = Some (Some (merged_size_error merged (total_size st))))
  /\ (Z.abs (merged - total_size st) <= 1 ->
      fst (merge_parts cfg st) = true
      /\ error (snd (merge_parts cfg st)) = error st
      /\ fst job = true
      /\ fs_output (snd job) = Some merged
      /\ exists final,
           notifications (snd job) = notifications st ++ [final]
           /\ upd_status final = Some "completed").
Proof.
  intros Hne Ht Hall Hpos Herr Hc Hm merged job.
  assert (Hlog : notifications (snd (merge_parts cfg st)) = notifications st).
  { unfold merge_parts. cbv zeta.
    destruct (part_files st) as [|i rest]; [contradiction|].
    assert (Hcp : forall parts s,
              notifications (snd (copy_parts cfg parts s)) = notifications s).
    { induction parts as [|j more IH]; intros s; cbn [copy_parts]; [reflexivity|].
      destruct (match fs_temp s with
                | Some files0 => lookup_file j files0
                | None => None
                end).
      - rewrite IH. unfold write_output. destruct (fs_output s); reflexivity.
      - destruct (is_cancelled s); reflexivity. }
    specialize (Hcp (sorted (i :: rest)) (set_fs_output (Some 0) st)).
    destruct (copy_parts cfg _ _) as [[| |e] s1]; cbn [snd] in *.
    - destruct (fs_output s1); [destruct (_ && _)|]; exact Hcp.
    - exact Hcp.
    - exact Hcp. }
  destruct (merge_parts_present cfg files st Hne Ht Hall) as (H1 & H2 & H3 & H4).
  fold merged in H1, H2, H4.
  assert (Hstage : merge_stage cfg st = merge_parts cfg st).
  { unfold merge_stage, is_cancelled. rewrite Herr, Hc. reflexivity. }
  unfold job. rewrite Hstage.
  destruct (merge_parts cfg st) as [success st1]. cbn [fst snd] in *.
  destruct (download_finally_result cfg success st1)
    as (Hs & _ & Ho & _ & _ & _ & _ & Hn).
  rewrite Hs, Ho, (Hn Hm), Hlog, H3, Hc, H4.
  destruct (Z.ltb_spec 0 (total_size st)); [|lia].
  split; intros Hdiff.
  - destruct (Z.ltb_spec 1 (Z.abs (merged - total_size st))); [|lia].
    cbn [andb negb] in *. subst success.
    split; [reflexivity|]. split; [reflexivity|]. split; [reflexivity|].
    split; [reflexivity|].
    eexists. split; [reflexivity|]. split; reflexivity.
  - destruct (Z.ltb_spec 1 (Z.abs (merged - total_size st))); [lia|].
    cbn [andb negb] in *. subst success.
    split; [reflexivity|]. split; [reflexivity|]. split; [reflexivity|].
    split; [exact H2|].
    eexists. split; [reflexivity|]. reflexivity.
Qed.

Lemma merge_size_tolerance_witness :
  fst (merge_parts sample_cfg state_before_merge) = false
  /\ error (snd (merge_parts sample_cfg state_before_merge))
     = Some (merged_size_error 20970760 20971520)
  /\ fst (download_finally sample_cfg (merge_stage sample_cfg state_before_merge))
     = false.
Proof.
  unfold state_before_merge.
  destruct (merge_size_tolerance sample_cfg
              (set_part_files [0; 1]
                 (init sample_cfg (Some 20971520)
                    (Some [(0, 10485760); (1, 10485000)]) None))
              [(0, 10485760); (1, 10485000)]) as [H _];
    try reflexivity.
  - discriminate.
  - repeat constructor.
  - destruct H as (H1 & H2 & H3 & _); [reflexivity|].
    split; [exact H1|]. split; [exact H2|exact H3].
Defined.

(* ------------------------------------------------------------------ *)
(** ** A segment that gives up *)

(** A segment thread that gives up stops the other threads through
    [cancel()], so the job then ends the way a cancelled job does: in
    every multi-connection job in which a segment thread gives up after
    its last try, [download] returns [False], the cancellation flag is
    set, the final update reports "cancelled", and afterwards neither the
    output file nor the temp directory exists. *)
Lemma segment_failure_ends_cancelled (cfg : config) (env : environment)
    (st : state) :
  (exists t, In t (download_threads cfg env st) /\ gave_up t) ->
  let job := download cfg env st in
  fst job = false
  /\ cancel_event (snd job) = true
  /\ fs_output (snd job) = None
  /\ fs_temp (snd job) = None
  /\ (manager_attached cfg = true ->
      exists earlier final,
        notifications (snd job) = notifications st ++ earlier ++ [final]
        /\ upd_status final = Some "cancelled").
Proof.
  intros (t & Hin & Hg) job.
  assert (Hbody : exists st2,
            download cfg env st = download_finally cfg (false, st2)
            /\ cancel_event st2 = true /\ advances st st2).
  { unfold download_threads in Hin. unfold download.
    pose proof (advances_download_probe cfg env st) as Ha1.
    destruct (download_probe cfg env st) as [supports st1]. cbn [snd] in Ha1.
    pose proof (advances_download_try cfg env supports st1) as Ha2.
    unfold download_try in *. cbv zeta in *.
    destruct (use_multi_connection _ _ _); [|destruct Hin].
    destruct (multi_prepare cfg st1) as [[segments st1']|st1']; [|destruct Hin].
    destruct segments as [|g rest]; [destruct Hin|].
    destruct (run_threads_ok cfg env (g :: rest) st1') as [Hok _].
    assert (Hc : cancel_event (shared (run_threads cfg env (g :: rest) st1')) = true)
      by exact (Hok t Hin Hg).
    unfold multi_branch in *. cbv zeta in *.
    assert (Hmerge : merge_stage cfg
                       (post_download_checks (total_size st1)
                          (shared (run_threads cfg env (g :: rest) st1')))
                     = (false, shared (run_threads cfg env (g :: rest) st1'))).
    { unfold post_download_checks, merge_stage, is_cancelled. rewrite Hc.
      rewrite Hc. rewrite andb_false_r. reflexivity. }
    rewrite Hmerge in *.
    destruct (orch (run_threads cfg env (g :: rest) st1')); cbn [download_except snd] in *.
    - eexists. split; [reflexivity|]. split; [exact Hc|].
      eapply advances_trans; eauto.
    - eexists. split; [reflexivity|]. split; [exact Hc|].
      eapply advances_trans; eauto.
    - eexists. split; [reflexivity|]. split; [exact Hc|].
      eapply advances_trans; eauto.
    - eexists. split; [reflexivity|]. split; [apply cancel_sets_flag|].
      eapply advances_trans; [exact Ha1|].
      eapply advances_trans; [exact Ha2|apply advances_cancel]. }
  destruct Hbody as (st2 & Hd & Hc & Hadv).
  unfold job. rewrite Hd.
  destruct (download_finally_result cfg false st2)
    as (Hs & Ht & Ho & Hcc & _ & _ & _ & Hn).
  split; [exact Hs|]. split; [rewrite Hcc; exact Hc|].
  split; [exact Ho|]. split; [exact Ht|].
  intros Hm. destruct Hadv as [_ (earlier & Hlog & _)].
  eexists earlier, _. rewrite (Hn Hm), Hlog, <- app_assoc.
  split; [reflexivity|]. cbn [upd_status]. rewrite Hc. reflexivity.
Qed.

(** C1. The job of the claim, run by the code: two segments, the first
    exhausts its three tries on connection errors, the second completes,
    and nobody cancels.  [download] returns [False] and removes the output
    file and the temp directory, as the claim says; but the final update
    reports "cancelled", not "failed", and the error it carries is the
    default cancellation text, not the error of the failing segment, which
    was recorded and then overwritten. *)
Theorem segment_failure_reports_cancelled :
  existsb is_user_action (schedule env_one_segment_fails) = false
  /\ map (fun t => (seg_index (th_segment t), th_state t))
         (download_threads sample_cfg env_one_segment_fails sample_state)
     = [(0, Finished RetriesExhausted); (1, Finished SegmentComplete)]
  /\ fst (download sample_cfg env_one_segment_fails sample_state) = false
  /\ fs_output (snd (download sample_cfg env_one_segment_fails sample_state)) = None
  /\ fs_temp (snd (download sample_cfg env_one_segment_fails sample_state)) = None
  /\ final_status sample_cfg env_one_segment_fails sample_state = Some "cancelled"
  /\ final_status sample_cfg env_one_segment_fails sample_state <> Some "failed"
  /\ error (snd (download sample_cfg env_one_segment_fails sample_state))
     = Some "Download cancelled by user"
  /\ error (snd (download sample_cfg env_one_segment_fails sample_state))
     <> Some "Segment 0 failed (Try 3/3): connection reset".
Proof.
  repeat split; try reflexivity; vm_compute; try reflexivity; discriminate.
Qed.

(* ================================================================== *)
(** * Further properties of the downloader *)

(* ------------------------------------------------------------------ *)
(** ** The segments in closed form *)

Lemma segment_loop_shares (total n s : Z) (m k : nat) :
  1 <= s -> n * s <= total -> Z.of_nat k + Z.of_nat m = n ->
  segment_loop total n s (map Z.of_nat (seq k m)) (Z.of_nat k * s)
  = map (fun i => {| seg_index := i; start_byte := i * s;
                     end_byte := if i =? n - 1 then total - 1
                                 else (i + 1) * s - 1 |})
        (map Z.of_nat (seq k m)).
Proof.
  intros Hs Hns. revert k. induction m as [|m IH]; intros k Hk; [reflexivity|].
  cbn [seq map segment_loop].
  assert (Hcur : Z.of_nat k * s < total) by nia.
  destruct (Z.leb_spec total (Z.of_nat k * s)); [lia|].
  destruct (Z.eqb_spec (Z.of_nat k) (n - 1)) as [Hlast|Hnot].
  - destruct (Z.leb_spec (Z.of_nat k * s) (total - 1)); [|lia].
    destruct (Z.ltb_spec (total - 1) total); [|lia].
    cbn [andb]. f_equal.
    assert (m = 0%nat) by lia. subst m. reflexivity.
  - assert (Hend : Z.min (Z.of_nat k * s + s - 1) (total - 1)
                   = (Z.of_nat k + 1) * s - 1) by nia.
    rewrite Hend.
    destruct (Z.leb_spec (Z.of_nat k * s) ((Z.of_nat k + 1) * s - 1)); [|nia].
    destruct (Z.ltb_spec ((Z.of_nat k + 1) * s - 1) total); [|nia].
    cbn [andb]. f_equal.
    replace ((Z.of_nat k + 1) * s - 1 + 1) with (Z.of_nat (S k) * s) by lia.
    apply IH. lia.
Qed.

(** X1. With at least as many bytes as connections, the segment
    calculation yields exactly one segment per connection, numbered from 0:
    segment [i] starts at [i * (total_size // num_connections)], every
    segment but the last has that many bytes, and the last one runs to the
    end of the file, so it takes the remainder of the division. *)
Theorem calculate_segments_equal_shares (total_size num_connections : Z) :
  1 <= num_connections <= total_size ->
  calculate_segments total_size num_connections
  = map (equal_share total_size num_connections) (range num_connections)
  /\ List.length (calculate_segments total_size num_connections)
     = Z.to_nat num_connections
  /\ seg_len (equal_share total_size num_connections (num_connections - 1))
     = total_size / num_connections + total_size mod num_connections.
Proof.
  intros [Hn Ht]. set (s := total_size / num_connections).
  assert (Hs : 1 <= s).
  { unfold s. apply Z.div_le_lower_bound; lia. }
  assert (Hmul : num_connections * s <= total_size).
  { unfold s. apply Z.mul_div_le. lia. }
  assert (Heq : calculate_segments total_size num_connections
                = map (equal_share total_size num_connections)
                      (range num_connections)).
  { unfold calculate_segments, range. fold s.
    destruct (Z.eqb_spec s 0); [lia|].
    exact (segment_loop_shares total_size num_connections s
             (Z.to_nat num_connections) 0 Hs Hmul ltac:(lia)). }
  split; [exact Heq|]. split.
  - rewrite Heq. unfold range. rewrite !length_map, length_seq. reflexivity.
  - unfold seg_len, equal_share. cbn. rewrite Z.eqb_refl. fold s.
    pose proof (Z.div_mod total_size num_connections ltac:(lia)) as Hdm.
    fold s in Hdm. lia.
Qed.

Lemma calculate_segments_equal_shares_witness :
  calculate_segments 10 4
  = [{| seg_index := 0; start_byte := 0; end_byte := 1 |};
     {| seg_index := 1; start_byte := 2; end_byte := 3 |};
     {| seg_index := 2; start_byte := 4; end_byte := 5 |};
     {| seg_index := 3; start_byte := 6; end_byte := 9 |}].
Proof.
  destruct (calculate_segments_equal_shares 10 4) as [H _]; [lia|].
  rewrite H. reflexivity.
Defined.

(* ------------------------------------------------------------------ *)
(** ** What a download keeps after its reset *)

Lemma percentage_bounds (d t : Z) :
  0 <= d -> 0 < t ->
  (0 <= Qmin (inject_Z d / inject_Z t * 100) 100 <= 100)%Q.
Proof.
  intros Hd Ht. split; [|apply Q.le_min_r].
  apply Q.min_glb; [|discriminate].
  apply Qmult_le_0_compat; [|discriminate].
  unfold Qdiv. apply Qmult_le_0_compat.
  - unfold Qle. cbn. lia.
  - apply Qinv_le_0_compat. unfold Qle. cbn. lia.
Qed.

Lemma truthy_or_else (o : option string) (d : string) :
  String.eqb d "" = false -> truthy (or_else o d) = true.
Proof.
  intros Hd. unfold or_else. destruct (truthy o) eqn:E; [exact E|].
  cbn. rewrite Hd. reflexivity.
Qed.

Lemma evolves_refl (st : state) : evolves st st.
Proof.
  repeat split; auto; try discriminate.
  - intros H1 H2. congruence.
  - intros _. exists []. rewrite app_nil_r. split; [reflexivity|constructor].
Qed.

Lemma evolves_trans (a b c : state) : evolves a b -> evolves b c -> evolves a c.
Proof.
  intros (A1 & A2 & A3 & A4 & A5 & A6) (B1 & B2 & B3 & B4 & B5 & B6).
  split; [|split; [|split; [|split; [|split]]]].
  - intros H. rewrite B1; [apply A1; exact H|]. rewrite A1; exact H.
  - auto.
  - auto.
  - auto.
  - intros Hc Ha. destruct (cancel_event b) eqn:Hb.
    + apply B4. apply A5; [reflexivity|exact Ha].
    + apply B5; [exact Hc|reflexivity].
  - intros Hd. destruct (A6 Hd) as (l1 & Hl1 & Hq1).
    destruct (B6 (A3 Hd)) as (l2 & Hl2 & Hq2).
    exists (l1 ++ l2). rewrite Hl2, Hl1, app_assoc. split; [reflexivity|].
    apply Forall_app. split; assumption.
Qed.

Lemma evolves_same (st st' : state) :
  total_size st' = total_size st -> downloaded st' = downloaded st ->
  error st' = error st -> cancel_event st' = cancel_event st ->
  notifications st' = notifications st -> evolves st st'.
Proof.
  intros Ht Hd He Hc Hn. unfold evolves. rewrite Ht, Hd, He, Hc, Hn.
  apply evolves_refl.
Qed.

Lemma evolves_set_error (m : string) (st : state) :
  truthy (Some m) = true -> evolves st (set_error (Some m) st).
Proof.
  intros Hm. unfold evolves. cbn [total_size downloaded error cancel_event
    notifications set_error].
  repeat split; auto.
  intros _. exists []. rewrite app_nil_r. split; [reflexivity|constructor].
Qed.

Lemma evolves_set_error_or (d : string) (st : state) :
  String.eqb d "" = false -> evolves st (set_error (or_else (error st) d) st).
Proof.
  intros Hd. unfold evolves. cbn [total_size downloaded error cancel_event
    notifications set_error].
  pose proof (truthy_or_else (error st) d Hd) as Ht.
  repeat split; auto.
  intros _. exists []. rewrite app_nil_r. split; [reflexivity|constructor].
Qed.

Lemma evolves_update cfg (u : status_update) (st : state) :
  bounded_progress u -> evolves st (manager_update cfg u st).
Proof.
  intros Hu. unfold manager_update. destruct (manager_attached cfg);
    [|apply evolves_refl].
  unfold evolves. cbn [total_size downloaded error cancel_event notifications
    set_notifications].
  repeat split; auto.
  - intros H1 H2. congruence.
  - intros _. exists [u]. split; [reflexivity|]. constructor; [exact Hu|constructor].
Qed.

Lemma evolves_cancel cfg (st : state) : evolves st (cancel cfg st).
Proof.
  unfold cancel, is_cancelled. destruct (cancel_event st) eqn:E; cbn [negb];
    [apply evolves_refl|]. cbv zeta.
  eapply evolves_trans; [|apply evolves_update; exact I].
  unfold evolves. cbn [total_size downloaded error cancel_event notifications
    set_error set_cancel_event].
  repeat split; auto.
  intros _. exists []. rewrite app_nil_r. split; [reflexivity|constructor].
Qed.

Lemma evolves_set_total_size (v : Z) (st : state) :
  total_size st <= 0 -> 0 <= v -> evolves st (set_total_size v st).
Proof.
  intros Ht Hv. unfold evolves. cbn [total_size downloaded error cancel_event
    notifications set_total_size].
  repeat split; auto; try lia.
  - intros H1 H2. congruence.
  - intros _. exists []. rewrite app_nil_r. split; [reflexivity|constructor].
Qed.

Lemma evolves_set_downloaded (v : Z) (st : state) :
  0 <= v -> evolves st (set_downloaded v st).
Proof.
  intros Hv. unfold evolves. cbn [total_size downloaded error cancel_event
    notifications set_downloaded].
  repeat split; auto.
  - intros H1 H2. congruence.
  - intros _. exists []. rewrite app_nil_r. split; [reflexivity|constructor].
Qed.

Lemma evolves_set_downloaded_by (n : Z) (st : state) :
  0 <= n -> evolves st (set_downloaded (downloaded st + n) st).
Proof.
  intros Hn. unfold evolves. cbn [total_size downloaded error cancel_event
    notifications set_downloaded].
  repeat split; auto; try lia.
  - intros H1 H2. congruence.
  - intros _. exists []. rewrite app_nil_r. split; [reflexivity|constructor].
Qed.

(** Peels the outermost operation off the target state. *)
Ltac evo_step :=
  match goal with
  | |- evolves ?s ?s => apply evolves_refl
  | |- evolves ?s (cancel _ ?t) =>
      apply (evolves_trans s t); [|apply evolves_cancel]
  | |- evolves ?s (manager_update _ _ ?t) =>
      apply (evolves_trans s t); [|apply evolves_update; exact I]
  | |- evolves ?s (set_error (Some _) ?t) =>
      apply (evolves_trans s t); [|apply evolves_set_error; reflexivity]
  | |- evolves ?s (set_error (or_else _ _) ?t) =>
      apply (evolves_trans s t); [|apply evolves_set_error_or; reflexivity]
  | |- evolves ?s (set_url _ ?t) =>
      apply (evolves_trans s t); [|apply evolves_same; reflexivity]
  | |- evolves ?s (set_part_files _ ?t) =>
      apply (evolves_trans s t); [|apply evolves_same; reflexivity]
  | |- evolves ?s (set_connection_type _ ?t) =>
      apply (evolves_trans s t); [|apply evolves_same; reflexivity]
  | |- evolves ?s (set_start_time _ ?t) =>
      apply (evolves_trans s t); [|apply evolves_same; reflexivity]
  | |- evolves ?s (set_rate _ _ _ ?t) =>
      apply (evolves_trans s t); [|apply evolves_same; reflexivity]
  | |- evolves ?s (set_fs_temp _ ?t) =>
      apply (evolves_trans s t); [|apply evolves_same; reflexivity]
  | |- evolves ?s (set_fs_output _ ?t) =>
      apply (evolves_trans s t); [|apply evolves_same; reflexivity]
  | |- evolves _ (if ?c then _ else _) => destruct c
  | |- evolves _ (match (if ?c then _ else _) with _ => _ end) => destruct c
  | |- evolves _ (match ?x with _ => _ end) => destruct x
  | |- evolves _ (snd (if ?c then _ else _)) => destruct c
  | |- evolves _ (snd (match ?x with _ => _ end)) => destruct x
  | |- evolves _ (snd (_, _)) => cbn [snd]
  end.

Ltac evo := repeat evo_step.

Lemma evolves_update_progress cfg (n : Z) (now : Q) (st : state) :
  0 <= n -> evolves st (_update_progress cfg n now st).
Proof.
  intros Hn. unfold _update_progress. cbv zeta.
  cbn [downloaded total_size _last_update_time _last_downloaded_bytes _speed
       set_downloaded].
  destruct (_ || _).
  - unfold manager_update. destruct (manager_attached cfg).
    + unfold evolves. cbn [total_size downloaded error cancel_event notifications
        set_notifications set_rate set_downloaded].
      repeat split; auto; try lia.
      * intros H1 H2. congruence.
      * intros Hd. eexists. split; [reflexivity|].
        constructor; [|constructor]. unfold bounded_progress. cbn [upd_progress].
        destruct (Z.ltb_spec 0 (total_size st)).
        -- apply percentage_bounds; lia.
        -- split; discriminate.
    + unfold evolves. cbn [total_size downloaded error cancel_event notifications
        set_rate set_downloaded].
      repeat split; auto; try lia.
      * intros H1 H2. congruence.
      * intros _. exists []. rewrite app_nil_r. split; [reflexivity|constructor].
  - apply evolves_set_downloaded_by. exact Hn.
Qed.

Lemma evolves_write_part (i n : Z) (st : state) : evolves st (write_part i n st).
Proof. unfold write_part. evo. Qed.

Lemma evolves_write_output (n : Z) (st : state) : evolves st (write_output n st).
Proof. unfold write_output. evo. Qed.

Lemma evolves_cleanup cfg (b : bool) (st : state) :
  evolves st (_cleanup_temp cfg b st).
Proof. unfold _cleanup_temp, rmtree_temp, unlink_output. cbv zeta. evo. Qed.

Lemma evolves_retry_or_give_up cfg i t detail st :
  evolves st (snd (retry_or_give_up cfg i t detail st)).
Proof. unfold retry_or_give_up. cbv zeta. evo. Qed.

Lemma evolves_segment_except cfg i t response e st :
  evolves st (snd (segment_except cfg i t response e st)).
Proof.
  unfold segment_except. cbv zeta.
  destruct (exn_kind e); try apply evolves_retry_or_give_up;
    try (cbn [snd]; evo; fail);
    destruct (exn_response e) as [code|]; try apply evolves_retry_or_give_up;
    destruct (code =? 401); try apply evolves_retry_or_give_up;
    destruct (code =? 403); try apply evolves_retry_or_give_up;
    destruct (response_is_416 response); try apply evolves_retry_or_give_up;
    cbn [snd]; evo.
Qed.

Lemma evolves_download_segment_step cfg env g w st :
  evolves st (snd (download_segment_step cfg env g w st)).
Proof.
  unfold download_segment_step. cbv zeta.
  destruct w as [t|t|t r written pending fin|why].
  - destruct ((t <? retries)%nat && negb (is_cancelled st)); cbn; evo.
  - destruct (att_request _); try apply evolves_segment_except.
    unfold open_part. destruct (fs_temp st); [cbn [snd]; evo|].
    apply evolves_segment_except.
  - destruct pending as [|[len now] rest].
    + destruct fin; [|apply evolves_segment_except].
      destruct (written =? _); [cbn; evo|apply evolves_segment_except].
    + destruct (is_cancelled st); [cbn; evo|].
      destruct (Z.ltb_spec 0 len); [|cbn; evo]. cbn [snd].
      eapply evolves_trans; [apply evolves_write_part|].
      apply evolves_update_progress. lia.
  - cbn. evo.
Qed.

Lemma evolves_step_thread cfg env i ths st :
  evolves st (snd (step_thread cfg env i ths st)).
Proof.
  induction ths as [|t rest IH]; cbn [step_thread]; [cbn; evo|].
  destruct (seg_index (th_segment t) =? i).
  - pose proof (evolves_download_segment_step cfg env (th_segment t) (th_state t) st) as H.
    destruct (download_segment_step cfg env (th_segment t) (th_state t) st).
    exact H.
  - destruct (step_thread cfg env i rest st). exact IH.
Qed.

Lemma evolves_orchestrator_step (p : pool) :
  evolves (shared p) (shared (orchestrator_step p)).
Proof.
  unfold orchestrator_step.
  destruct (orch p) as [[|g todo]|[|i active]| |]; cbn [shared]; try apply evolves_refl.
  - destruct (is_cancelled (shared p)); cbn [shared]; apply evolves_refl.
  - destruct (is_cancelled (shared p)); cbn [shared]; evo.
Qed.

Lemma evolves_pool_step cfg env a p :
  evolves (shared p) (shared (pool_step cfg env a p)).
Proof.
  destruct a as [|i| |]; cbn [pool_step].
  - apply evolves_orchestrator_step.
  - pose proof (evolves_step_thread cfg env i (threads p) (shared p)) as H.
    destruct (step_thread cfg env i (threads p) (shared p)). exact H.
  - cbn [shared]. apply evolves_cancel.
  - cbn [shared]. apply evolves_refl.
Qed.

Lemma evolves_run_schedule cfg env sched p :
  evolves (shared p) (shared (run_schedule cfg env sched p)).
Proof.
  revert p. induction sched as [|a rest IH]; intros p; cbn [run_schedule].
  - apply evolves_refl.
  - destruct (orchestrator_done p); [apply evolves_refl|].
    eapply evolves_trans; [apply evolves_pool_step|apply IH].
Qed.

Lemma evolves_iterate_orchestrator n p :
  evolves (shared p) (shared (iterate n orchestrator_step p)).
Proof.
  revert p. induction n as [|n IH]; intros p; cbn [iterate].
  - apply evolves_refl.
  - eapply evolves_trans; [apply evolves_orchestrator_step|apply IH].
Qed.

Lemma evolves_run_thread cfg env t st :
  evolves st (snd (run_thread cfg env t st)).
Proof.
  unfold run_thread.
  assert (H : forall n w s,
            evolves s (snd (iterate n
              (fun ws => download_segment_step cfg env (th_segment t) (fst ws) (snd ws))
              (w, s)))).
  { induction n as [|n IH]; intros w s; cbn [iterate]; [apply evolves_refl|].
    cbn [fst snd].
    pose proof (evolves_download_segment_step cfg env (th_segment t) w s) as H1.
    destruct (download_segment_step cfg env (th_segment t) w s) as [w' s'].
    eapply evolves_trans; [exact H1|apply IH]. }
  specialize (H (worker_cost cfg env (th_segment t) (th_state t) st) (th_state t) st).
  destruct (iterate _ _ _). exact H.
Qed.

Lemma evolves_run_threads_out cfg env ths st :
  evolves st (snd (run_threads_out cfg env ths st)).
Proof.
  revert st. induction ths as [|t rest IH]; intros st; cbn [run_threads_out].
  - apply evolves_refl.
  - pose proof (evolves_run_thread cfg env t st) as H1.
    destruct (run_thread cfg env t st) as [t' st1]. cbn [snd] in H1.
    specialize (IH st1).
    destruct (run_threads_out cfg env rest st1) as [rest' st2]. cbn [snd] in *.
    eapply evolves_trans; eauto.
Qed.

Lemma evolves_run_threads cfg env segments st :
  evolves st (shared (run_threads cfg env segments st)).
Proof.
  unfold run_threads.
  set (p0 := {| orch := Starting segments; threads := []; shared := st |}).
  apply (evolves_trans _ (shared (run_schedule cfg env (schedule env) p0)));
    [apply (evolves_run_schedule cfg env (schedule env) p0)|].
  generalize (run_schedule cfg env (schedule env) p0). intros p.
  unfold complete. destruct (orchestrator_done p); [apply evolves_refl|].
  set (p1 := match orch p with
             | Starting todo => iterate (S (List.length todo)) orchestrator_step p
             | _ => p
             end).
  assert (H1 : evolves (shared p) (shared p1)).
  { unfold p1. destruct (orch p); try apply evolves_refl.
    apply evolves_iterate_orchestrator. }
  pose proof (evolves_run_threads_out cfg env (threads p1) (shared p1)) as H2.
  destruct (run_threads_out cfg env (threads p1) (shared p1)) as [ths s2].
  cbn [snd] in H2.
  set (p2 := {| orch := orch p1; threads := ths; shared := s2 |}).
  eapply evolves_trans; [exact H1|].
  eapply evolves_trans; [exact H2|].
  change s2 with (shared p2).
  eapply evolves_trans; apply evolves_orchestrator_step.
Qed.

Lemma evolves_read_stream cfg events fin st :
  evolves st (snd (read_stream cfg events fin st)).
Proof.
  revert st. induction events as [|e rest IH]; intros st; cbn [read_stream].
  - cbn. evo.
  - destruct e as [len now| |].
    + destruct (is_cancelled st); [cbn; evo|].
      destruct (Z.ltb_spec 0 len); [|apply IH].
      eapply evolves_trans; [|apply IH].
      eapply evolves_trans; [apply evolves_write_output|].
      apply evolves_update_progress. lia.
    + eapply evolves_trans; [apply evolves_cancel|apply IH].
    + cbn. evo.
Qed.

Lemma evolves_fallback_except e st : evolves st (snd (fallback_except e st)).
Proof. unfold fallback_except. cbv zeta. destruct (exn_kind e); cbn [snd]; evo. Qed.

Lemma evolves_fallback_download cfg env st :
  evolves st (snd (fallback_download cfg env st)).
Proof.
  unfold fallback_download. cbv zeta.
  match goal with
  | |- evolves _ (snd match fb_request ?x with _ => _ end) => set (exchange := x)
  end.
  set (st1 := set_downloaded 0 _).
  assert (H1 : evolves st st1).
  { unfold st1. eapply evolves_trans; [|apply evolves_set_downloaded; lia]. evo. }
  eapply evolves_trans; [exact H1|].
  destruct (fb_request exchange) as [e|r text|response];
    try apply evolves_fallback_except.
  set (st2 := if String.eqb _ _ then st1 else _).
  assert (H2 : evolves st1 st2) by (unfold st2; evo).
  eapply evolves_trans; [exact H2|].
  assert (Hgo : forall st3, evolves st3
            (snd match read_stream cfg (fb_events exchange) (fb_end exchange)
                         (set_fs_output (Some 0) st3) with
                 | (StreamDone, st0) =>
                     (Returns true,
                      if (0 <? total_size st0) && negb (downloaded st0 =? total_size st0)
                      then set_error
                             (Some ("Fallback download size mismatch. Expected "
                                    @@ str (total_size st0) @@ ", got "
                                    @@ str (downloaded st0) @@ ".")) st0
                      else st0)
                 | (StreamCancelled, st0) => (Returns false, st0)
                 | (StreamFailed e, st0) => fallback_except e st0
                 | (StreamInterrupted, st0) => (RaisesKeyboardInterrupt, st0)
                 end)).
  { intros st3.
    pose proof (evolves_read_stream cfg (fb_events exchange) (fb_end exchange)
                  (set_fs_output (Some 0) st3)) as H4.
    assert (H5 : evolves st3 (set_fs_output (Some 0) st3)) by evo.
    destruct (read_stream cfg _ _ _) as [[| |e|] st4]; cbn [snd] in *.
    - evo; eapply evolves_trans; eauto.
    - eapply evolves_trans; eauto.
    - eapply evolves_trans; [exact H5|].
      eapply evolves_trans; [exact H4|apply evolves_fallback_except].
    - eapply evolves_trans; eauto. }
  destruct (Z.leb_spec (total_size st2) 0) as [Hle|Hgt]; [|apply Hgo].
  destruct (content_length response) as [n|e]; [|apply evolves_fallback_except].
  set (st3 := if 0 <? n then _ else _).
  assert (H3 : evolves st2 st3).
  { unfold st3. destruct (Z.ltb_spec 0 n); apply evolves_set_total_size; lia. }
  eapply evolves_trans; [exact H3|apply Hgo].
Qed.

Lemma evolves_fallback_branch cfg env st :
  evolves st (snd (fallback_branch cfg env st)).
Proof.
  unfold fallback_branch.
  pose proof (evolves_fallback_download cfg env st) as H.
  destruct (fallback_download cfg env st) as [[success|] st1]; cbn [snd] in *.
  - evo; exact H.
  - exact H.
Qed.

Lemma evolves_copy_parts cfg parts st :
  evolves st (snd (copy_parts cfg parts st)).
Proof.
  revert st. induction parts as [|i rest IH]; intros st; cbn [copy_parts].
  - cbn. evo.
  - destruct (match fs_temp st with Some files => lookup_file i files | None => None end).
    + eapply evolves_trans; [apply evolves_write_output|apply IH].
    + destruct (is_cancelled st); cbn [snd]; evo.
Qed.

Lemma evolves_merge_parts cfg st : evolves st (snd (merge_parts cfg st)).
Proof.
  unfold merge_parts. cbv zeta.
  destruct (part_files st) as [|i rest]; [cbn [snd]; evo|].
  pose proof (evolves_copy_parts cfg (sorted (i :: rest)) (set_fs_output (Some 0) st)) as H.
  assert (H0 : evolves st (set_fs_output (Some 0) st)) by evo.
  destruct (copy_parts cfg _ _) as [[| |e] st1]; cbn [snd] in *.
  - destruct (fs_output st1).
    + destruct (_ && _); cbn [snd]; evo; eapply evolves_trans; eauto.
    + unfold merge_failed. cbn [snd]. evo. eapply evolves_trans; eauto.
  - eapply evolves_trans; eauto.
  - unfold merge_failed. cbn [snd]. evo. eapply evolves_trans; eauto.
Qed.

Lemma evolves_post_download_checks expected st :
  evolves st (post_download_checks expected st).
Proof. unfold post_download_checks. evo. Qed.

Lemma evolves_merge_stage cfg st : evolves st (snd (merge_stage cfg st)).
Proof.
  unfold merge_stage. destruct (_ && _); [apply evolves_merge_parts|cbn; evo].
Qed.

Lemma evolves_multi_branch cfg env segments expected st :
  evolves st (snd (multi_branch cfg env segments expected st)).
Proof.
  unfold multi_branch. cbv zeta.
  pose proof (evolves_run_threads cfg env segments st) as H1.
  assert (H2 : evolves st (snd (let (success, st0) :=
              merge_stage cfg (post_download_checks expected
                 (shared (run_threads cfg env segments st)))
            in (Returns success, st0)))).
  { pose proof (evolves_merge_stage cfg (post_download_checks expected
                 (shared (run_threads cfg env segments st)))) as H3.
    destruct (merge_stage cfg _) as [success st3]. cbn [snd] in *.
    eapply evolves_trans; [exact H1|].
    eapply evolves_trans; [apply evolves_post_download_checks|exact H3]. }
  destruct (orch (run_threads cfg env segments st)); try exact H2.
  exact H1.
Qed.

Lemma evolves_multi_prepare cfg st :
  match multi_prepare cfg st with
  | inl (_, st') => evolves st st'
  | inr st' => evolves st st'
  end.
Proof.
  unfold multi_prepare, clean_temp_dir, rmtree_temp, mkdir_temp. cbv zeta.
  match goal with
  | |- context [if is_some (fs_temp ?s) then _ else _] => set (st1 := s)
  end.
  assert (H1 : evolves st st1) by (unfold st1; evo).
  destruct (is_some (fs_temp st1)) eqn:E; cbn [is_some fs_temp set_fs_temp];
    rewrite ?E; (eapply evolves_trans; [exact H1|evo]).
Qed.

Lemma evolves_download_try cfg env supports st :
  evolves st (snd (download_try cfg env supports st)).
Proof.
  unfold download_try. cbv zeta.
  destruct (use_multi_connection _ _ _); [|apply evolves_fallback_branch].
  pose proof (evolves_multi_prepare cfg st) as H.
  destruct (multi_prepare cfg st) as [[segments st1]|st1]; [|exact H].
  eapply evolves_trans; [exact H|].
  destruct segments as [|g rest].
  - eapply evolves_trans; [|apply evolves_fallback_branch]. evo.
  - apply evolves_multi_branch.
Qed.

Lemma evolves_probe cfg env st :
  evolves st (snd (_get_range_support_and_url cfg env st)).
Proof.
  unfold _get_range_support_and_url, head_try. cbv zeta.
  destruct (net_head env _ _) as [e|r text|response].
  - destruct (exn_kind e); cbn [snd]; evo.
  - cbn [exn_kind http_error snd]. evo.
  - cbn [total_size set_url].
    destruct (Z.leb_spec (total_size st) 0) as [Hle|Hgt]; [|cbn [snd]; evo].
    destruct (content_length response) as [n|e].
    + cbn [snd]. destruct (Z.ltb_spec 0 n); [|evo].
      eapply evolves_trans; [|apply evolves_set_total_size; cbn; lia]. evo.
    + destruct (exn_kind e); cbn [snd]; evo.
Qed.

Lemma evolves_download_except cfg r :
  evolves (snd r) (snd (download_except cfg r)).
Proof.
  destruct r as [[success|] st]; cbn [download_except snd]; evo.
Qed.

(** A merge that fails says why. *)
Lemma merge_parts_failure_recorded cfg st :
  fst (merge_parts cfg st) = false ->
  truthy (error (snd (merge_parts cfg st))) = true.
Proof.
  unfold merge_parts. cbv zeta.
  destruct (part_files st) as [|i rest].
  - intros _. destruct (is_cancelled st); cbn [snd error set_error];
      [apply truthy_or_else|]; reflexivity.
  - assert (Hcp : forall parts s,
              fst (copy_parts cfg parts s) = MergeAborted ->
              truthy (error (snd (copy_parts cfg parts s))) = true).
    { induction parts as [|j more IH]; intros s; cbn [copy_parts];
        [discriminate|].
      destruct (match fs_temp s with
                | Some files => lookup_file j files
                | None => None
                end); [apply IH|].
      destruct (is_cancelled s); cbn [fst snd error set_error];
        [intros _; apply truthy_or_else; reflexivity|discriminate]. }
    specialize (Hcp (sorted (i :: rest)) (set_fs_output (Some 0) st)).
    destruct (copy_parts cfg _ _) as [[| |e] st1]; cbn [fst snd] in *.
    + destruct (fs_output st1); [|intros _; reflexivity].
      destruct (_ && _); [intros _; reflexivity|discriminate].
    + intros _. apply Hcp. reflexivity.
    + intros _. reflexivity.
Qed.

(** A [try] block that returns [False] without the flag being set has
    recorded an error. *)
Lemma download_try_failure_recorded cfg env supports st st2 :
  download_try cfg env supports st = (Returns false, st2) ->
  cancel_event st2 = false -> truthy (error st2) = true.
Proof.
  assert (Hfb : forall s, fallback_branch cfg env s = (Returns false, st2) ->
                          truthy (error st2) = true).
  { intros s. unfold fallback_branch.
    destruct (fallback_download cfg env s) as [[success|] s1]; [|discriminate].
    destruct success; [discriminate|]. cbn [negb andb].
    destruct (truthy (error s1)) eqn:E; cbn [negb]; intros H; injection H as <-.
    - exact E.
    - cbn [error set_error]. apply truthy_or_else. reflexivity. }
  unfold download_try. cbv zeta.
  destruct (use_multi_connection _ _ _); [|intros H _; eapply Hfb; exact H].
  destruct (multi_prepare cfg st) as [[segments st1]|st1] eqn:Hprep.
  - destruct segments as [|g rest]; [intros H _; eapply Hfb; exact H|].
    unfold multi_branch. cbv zeta.
    set (st3 := post_download_checks (total_size st)
                  (shared (run_threads cfg env (g :: rest) st1))).
    assert (Hm : forall success s, merge_stage cfg st3 = (success, s) ->
                   success = false -> cancel_event s = false ->
                   truthy (error s) = true).
    { intros success s Hms -> Hc. unfold merge_stage in Hms.
      destruct (truthy (error st3)) eqn:Et; cbn [negb andb] in Hms.
      - injection Hms as <-. exact Et.
      - destruct (is_cancelled st3) eqn:Ec; cbn [negb] in Hms.
        + injection Hms as <-. unfold is_cancelled in Ec. congruence.
        + pose proof (merge_parts_failure_recorded cfg st3) as Hf.
          rewrite Hms in Hf. apply Hf. reflexivity. }
    destruct (orch _); try discriminate;
      (destruct (merge_stage cfg st3) as [success s] eqn:Hms;
       intros H Hc; injection H as -> <-; eapply Hm; eauto).
  - intros H _. injection H as <-.
    unfold multi_prepare in Hprep. cbv zeta in Hprep.
    destruct (clean_temp_dir cfg _); [discriminate|].
    injection Hprep as <-. reflexivity.
Qed.

Lemma download_start_resets cfg env st :
  total_size (download_start cfg env st) = total_size st
  /\ cancel_event (download_start cfg env st) = cancel_event st
  /\ downloaded (download_start cfg env st) = 0
  /\ error (download_start cfg env st) = None
  /\ notifications (download_start cfg env st) = notifications st.
Proof.
  unfold download_start. cbv zeta.
  destruct (is_some _); [|repeat split].
  destruct (cleanup_temp_removes cfg false
              (set_error None (set_downloaded 0
                 (set_start_time (clock_start env) st))))
    as (_ & _ & Hc & He & Hts & Hd & _ & Hn).
  rewrite Hc, He, Hts, Hd, Hn. repeat split.
Qed.

(** [download] as its reset followed by steps that [evolves] relates. *)
Lemma download_from_start cfg env st :
  exists success st2,
    download cfg env st = download_finally cfg (success, st2)
    /\ evolves (download_start cfg env st) st2
    /\ (success = false -> cancel_event st2 = false ->
        truthy (error st2) = true).
Proof.
  unfold download, download_probe. cbv zeta.
  pose proof (evolves_probe cfg env (download_start cfg env st)) as H1.
  destruct (_get_range_support_and_url cfg env (download_start cfg env st))
    as [[final_url supports] st1]. cbn [snd] in H1.
  pose proof (evolves_download_try cfg env supports st1) as H2.
  pose proof (download_try_failure_recorded cfg env supports st1) as H3.
  destruct (download_try cfg env supports st1) as [[success|] st2];
    cbn [download_except snd] in *.
  - exists success, st2. split; [reflexivity|]. split.
    + eapply evolves_trans; eauto.
    + intros -> Hc. apply (H3 st2 eq_refl Hc).
  - exists false, (cancel cfg st2). split; [reflexivity|]. split.
    + eapply evolves_trans; [exact H1|].
      eapply evolves_trans; [exact H2|apply evolves_cancel].
    + intros _ Hc. rewrite cancel_sets_flag in Hc. discriminate.
Qed.

Lemma download_finally_log cfg success st :
  exists final,
    notifications (snd (download_finally cfg (success, st)))
    = notifications st ++ (if manager_attached cfg then [final] else [])
    /\ upd_progress final = Some (Qmin 100 (final_progress success st))
    /\ upd_error final = Some (error st).
Proof.
  destruct (download_finally_result cfg success st)
    as (_ & _ & _ & _ & _ & _ & _ & Hn).
  destruct (manager_attached cfg) eqn:Hm.
  - eexists. rewrite (Hn eq_refl). split; [reflexivity|]. split; reflexivity.
  - exists {| upd_status := None;
              upd_progress := Some (Qmin 100 (final_progress success st));
              upd_speed := None; upd_error := Some (error st);
              upd_connection_type := None |}.
    split; [|split; reflexivity].
    unfold download_finally, manager_update. rewrite Hm. cbn [snd].
    destruct (cleanup_temp_removes cfg success st) as (_ & _ & _ & _ & _ & _ & _ & H).
    rewrite H, app_nil_r. reflexivity.
Qed.

(** X2. A total size that is known and positive when [download] starts is
    never replaced: whatever the HEAD and GET responses announce, the job
    ends with the same total size.  A total size is never made negative. *)
Theorem known_size_is_kept (cfg : config) (env : environment) (st : state) :
  (0 < total_size st -> total_size (snd (download cfg env st)) = total_size st)
  /\ (0 <= total_size st -> 0 <= total_size (snd (download cfg env st))).
Proof.
  destruct (download_from_start cfg env st) as (success & st2 & -> & Hev & _).
  destruct (download_start_resets cfg env st) as (Hts & _).
  destruct Hev as (E1 & E2 & _). rewrite Hts in E1, E2.
  destruct (download_finally_result cfg success st2)
    as (_ & _ & _ & _ & _ & Hf & _).
  rewrite Hf. split; assumption.
Qed.

Lemma known_size_is_kept_witness :
  total_size (snd (download sample_cfg (env_single None 30)
                     (init sample_cfg (Some 77) None None))) = 77.
Proof.
  destruct (known_size_is_kept sample_cfg (env_single None 30)
              (init sample_cfg (Some 77) None None)) as [H _].
  apply H. reflexivity.
Defined.

(** X3. Every update that the manager receives during a download and
    that carries a progress value carries a percentage: between 0 and 100,
    the final update included. *)
Theorem progress_is_percentage (cfg : config) (env : environment) (st : state) :
  exists sent,
    notifications (snd (download cfg env st)) = notifications st ++ sent
    /\ Forall bounded_progress sent.
Proof.
  destruct (download_from_start cfg env st) as (success & st2 & -> & Hev & _).
  destruct (download_start_resets cfg env st) as (_ & _ & Hd & _ & Hn).
  destruct Hev as (_ & _ & E3 & _ & _ & E6). rewrite Hd in E3, E6.
  destruct (E6 (Z.le_refl 0)) as (l & Hl & Hq). rewrite Hn in Hl.
  destruct (download_finally_log cfg success st2) as (final & Hlog & Hp & _).
  exists (l ++ (if manager_attached cfg then [final] else [])).
  rewrite Hlog, Hl, app_assoc. split; [reflexivity|].
  apply Forall_app. split; [exact Hq|].
  destruct (manager_attached cfg); [|constructor].
  constructor; [|constructor]. unfold bounded_progress. rewrite Hp.
  split; [|apply Q.le_min_l].
  apply Q.min_glb; [discriminate|].
  unfold final_progress. destruct success; [discriminate|].
  destruct (Z.ltb_spec 0 (total_size st2)); [|discriminate].
  destruct (Qeq_bool _ 0); [discriminate|].
  apply Qmult_le_0_compat; [|discriminate].
  unfold Qdiv. apply Qmult_le_0_compat.
  - pose proof (E3 (Z.le_refl 0)). unfold Qle. cbn. lia.
  - apply Qinv_le_0_compat. unfold Qle. cbn. lia.
Qed.

(** X4. A download that returns [False], on a job whose cancellation flag
    was not set when [download] was called, ends with a non-empty error
    recorded, which is the error its final update reports. *)
Theorem failure_records_error (cfg : config) (env : environment) (st : state) :
  cancel_event st = false ->
  fst (download cfg env st) = false ->
  truthy (error (snd (download cfg env st))) = true
  /\ (manager_attached cfg = true ->
      exists earlier final,
        notifications (snd (download cfg env st)) = earlier ++ [final]
        /\ upd_error final = Some (error (snd (download cfg env st)))).
Proof.
  intros Hc.
  destruct (download_from_start cfg env st) as (success & st2 & -> & Hev & Hfail).
  destruct (download_start_resets cfg env st) as (_ & Hc0 & _).
  destruct (download_finally_result cfg success st2)
    as (Hs & _ & _ & _ & He & _).
  rewrite Hs. intros ->. rewrite He.
  assert (Ht : truthy (error st2) = true).
  { destruct (cancel_event st2) eqn:Hc2.
    - destruct Hev as (_ & _ & _ & _ & E5 & _). apply E5; [exact Hc2|].
      rewrite Hc0. exact Hc.
    - apply Hfail; reflexivity. }
  split; [exact Ht|]. intros Hm.
  destruct (download_finally_log cfg false st2) as (final & Hlog & _ & Herr).
  exists (notifications st2), final. rewrite Hlog, Hm. split; [reflexivity|exact Herr].
Qed.

Lemma failure_records_error_witness :
  truthy (error (snd (download sample_cfg env_one_segment_fails sample_state)))
  = true.
Proof.
  destruct (failure_records_error sample_cfg env_one_segment_fails sample_state)
    as [H _]; [reflexivity|vm_compute; reflexivity|exact H].
Defined.

(* ------------------------------------------------------------------ *)
(** ** The part files *)

Lemma lookup_put_same (i v : Z) (files : list (Z * Z)) :
  lookup_file i (put_file i v files) = Some v.
Proof. unfold lookup_file, put_file. cbn. rewrite Z.eqb_refl. reflexivity. Qed.

Lemma lookup_put_other (i j v : Z) (files : list (Z * Z)) :
  j <> i -> lookup_file j (put_file i v files) = lookup_file j files.
Proof.
  intros Hji. unfold lookup_file, put_file. cbn [find fst].
  destruct (Z.eqb_spec i j); [congruence|].
  induction files as [|[k size] rest IH]; [reflexivity|].
  cbn [filter fst]. destruct (Z.eqb_spec k i) as [->|Hki]; cbn [negb find fst].
  - destruct (Z.eqb_spec i j); [congruence|]. exact IH.
  - destruct (Z.eqb_spec k j); [reflexivity|exact IH].
Qed.

Lemma only_records_refl st : only_records st st.
Proof. repeat split; auto. Qed.

Lemma only_records_trans a b c :
  only_records a b -> only_records b c -> only_records a c.
Proof.
  intros (A1 & A2 & A3 & A4 & A5 & A6 & A7 & A8)
         (B1 & B2 & B3 & B4 & B5 & B6 & B7 & B8).
  unfold only_records. rewrite B1, B2, B3, B4, B5, B6, B7. repeat split; auto.
Qed.

Lemma only_records_update cfg u st : only_records st (manager_update cfg u st).
Proof.
  unfold manager_update. destruct (manager_attached cfg); repeat split; auto.
Qed.

Lemma only_records_cancel cfg st : only_records st (cancel cfg st).
Proof.
  unfold cancel, is_cancelled. destruct (cancel_event st) eqn:E; cbn [negb];
    [apply only_records_refl|]. cbv zeta.
  eapply only_records_trans; [|apply only_records_update].
  repeat split; auto.
Qed.

Lemma only_records_set_error e st : only_records st (set_error e st).
Proof. repeat split; auto. Qed.

Lemma only_records_retry_or_give_up cfg i t detail st :
  only_records st (snd (retry_or_give_up cfg i t detail st)).
Proof.
  unfold retry_or_give_up. cbv zeta. destruct (retries <=? t)%nat; cbn [snd].
  - eapply only_records_trans; [apply only_records_set_error|apply only_records_cancel].
  - apply only_records_refl.
Qed.

(** The [except] clauses of [download_segment] only record. *)
Lemma only_records_segment_except cfg i t response e st :
  only_records st (snd (segment_except cfg i t response e st)).
Proof.
  assert (Hc : forall m, only_records st (cancel cfg (set_error m st))).
  { intros m. eapply only_records_trans;
      [apply only_records_set_error|apply only_records_cancel]. }
  unfold segment_except. cbv zeta.
  destruct (exn_kind e); try apply only_records_retry_or_give_up;
    try (cbn [snd]; apply Hc);
    destruct (exn_response e) as [code|]; try apply only_records_retry_or_give_up;
    destruct (code =? 401); try apply only_records_retry_or_give_up;
    destruct (code =? 403); try apply only_records_retry_or_give_up;
    destruct (response_is_416 response); try apply only_records_retry_or_give_up;
    cbn [snd]; apply Hc.
Qed.

Lemma only_records_frame i st st' : only_records st st' -> thread_frame i st st'.
Proof.
  intros (A1 & A2 & A3 & A4 & A5 & A6 & A7 & A8).
  unfold thread_frame, part_size. rewrite A1, A2, A3, A4, A5, A6, A7.
  split; [reflexivity|]. split; [reflexivity|]. split; [reflexivity|].
  split; [reflexivity|]. split; [reflexivity|]. split; [reflexivity|].
  split; [reflexivity|]. split; [lia|]. split; [exact A8|].
  intros _. split; [reflexivity|left; reflexivity].
Qed.

Lemma thread_frame_trans i a b c :
  thread_frame i a b -> thread_frame i b c -> thread_frame i a c.
Proof.
  intros (A1 & A2 & A3 & A4 & A5 & A6 & A7 & A8 & A9 & A10)
         (B1 & B2 & B3 & B4 & B5 & B6 & B7 & B8 & B9 & B10).
  unfold thread_frame. rewrite B1, B2, B3, B4, B5, B6.
  split; [exact A1|]. split; [exact A2|]. split; [exact A3|].
  split; [exact A4|]. split; [exact A5|]. split; [exact A6|].
  split; [intros j Hj; rewrite B7, A7; auto|].
  split; [lia|]. split; [auto|].
  intros Hc. destruct (A10 Hc) as [F1 F2]. destruct (B10 (A9 Hc)) as [G1 G2].
  split; [congruence|].
  destruct G2 as [G2|G2]; [rewrite G2; exact F2|right; exact G2].
Qed.

Lemma update_progress_disk cfg n now st :
  url (_update_progress cfg n now st) = url st
  /\ total_size (_update_progress cfg n now st) = total_size st
  /\ connection_type (_update_progress cfg n now st) = connection_type st
  /\ part_files (_update_progress cfg n now st) = part_files st
  /\ fs_output (_update_progress cfg n now st) = fs_output st
  /\ fs_temp (_update_progress cfg n now st) = fs_temp st
  /\ downloaded (_update_progress cfg n now st) = downloaded st + n
  /\ cancel_event (_update_progress cfg n now st) = cancel_event st
  /\ error (_update_progress cfg n now st) = error st.
Proof.
  unfold _update_progress, manager_update. cbv zeta.
  destruct (_ || _); [|repeat split].
  destruct (manager_attached cfg); repeat split.
Qed.

(** One step of the thread of a segment stays within its frame. *)
Lemma download_segment_step_frame cfg env g w st :
  thread_frame (seg_index g) st (snd (download_segment_step cfg env g w st)).
Proof.
  unfold download_segment_step. cbv zeta.
  destruct w as [t|t|t r written pending fin|why].
  - destruct ((t <? retries)%nat && negb (is_cancelled st));
      apply only_records_frame, only_records_refl.
  - destruct (att_request _);
      try (apply only_records_frame, only_records_segment_except).
    unfold open_part. destruct (fs_temp st) as [files|] eqn:Ht;
      [|apply only_records_frame, only_records_segment_except].
    cbn [snd]. unfold thread_frame, part_size.
    cbn [url total_size connection_type part_files fs_output fs_temp downloaded
         cancel_event set_fs_temp]. rewrite Ht.
    split; [reflexivity|]. split; [reflexivity|]. split; [reflexivity|].
    split; [reflexivity|]. split; [reflexivity|]. split; [reflexivity|].
    split; [intros j Hj; apply lookup_put_other; exact Hj|].
    split; [lia|]. split; [auto|].
    intros _. split; [reflexivity|]. right. apply lookup_put_same.
  - destruct pending as [|[len now] rest].
    + destruct fin; [|apply only_records_frame, only_records_segment_except].
      destruct (written =? _);
        [apply only_records_frame, only_records_refl
        |apply only_records_frame, only_records_segment_except].
    + destruct (cancel_event st) eqn:Hc; unfold is_cancelled; rewrite Hc;
        [apply only_records_frame, only_records_refl|].
      destruct (Z.ltb_spec 0 len); [|apply only_records_frame, only_records_refl].
      cbn [snd].
      destruct (update_progress_disk cfg len now (write_part (seg_index g) len st))
        as (U1 & U2 & U3 & U4 & U5 & U6 & U7 & U8 & _).
      unfold thread_frame, part_size. rewrite U1, U2, U3, U4, U5, U6, U7, U8.
      unfold write_part. destruct (fs_temp st) as [files|] eqn:Ht;
        [destruct (lookup_file (seg_index g) files) eqn:Hl|];
        cbn [url total_size connection_type part_files fs_output fs_temp
             downloaded cancel_event set_fs_temp]; rewrite ?Ht, ?Hc;
        repeat split; auto; try lia; try discriminate.
      intros j Hj. apply lookup_put_other. exact Hj.
  - apply only_records_frame, only_records_refl.
Qed.

Lemma thread_frame_refl i st : thread_frame i st st.
Proof. apply only_records_frame, only_records_refl. Qed.

Lemma step_thread_frame cfg env i ths st :
  thread_frame i st (snd (step_thread cfg env i ths st)).
Proof.
  induction ths as [|t rest IH]; cbn [step_thread]; [apply thread_frame_refl|].
  destruct (Z.eqb_spec (seg_index (th_segment t)) i) as [Hi|Hi].
  - pose proof (download_segment_step_frame cfg env (th_segment t) (th_state t) st) as H.
    rewrite Hi in H.
    destruct (download_segment_step cfg env (th_segment t) (th_state t) st).
    exact H.
  - destruct (step_thread cfg env i rest st). exact IH.
Qed.

(** X5. A step of the thread of segment [i], at any point of any
    schedule, changes no part file but its own, touches neither the output
    file nor the URL nor the total size, and never lowers the byte count:
    the bytes of an attempt that is retried stay counted. *)
Theorem worker_owns_its_part (cfg : config) (env : environment) (i : Z)
    (p : pool) :
  let st := shared p in
  let st' := shared (pool_step cfg env (Worker i) p) in
  (forall j, j <> i -> part_size j st' = part_size j st)
  /\ fs_output st' = fs_output st
  /\ url st' = url st
  /\ total_size st' = total_size st
  /\ downloaded st <= downloaded st'.
Proof.
  cbv zeta. cbn [pool_step].
  pose proof (step_thread_frame cfg env i (threads p) (shared p)) as H.
  destruct (step_thread cfg env i (threads p) (shared p)) as [ths st'].
  cbn [snd shared] in *.
  destruct H as (H1 & H2 & _ & _ & H5 & _ & H7 & H8 & _).
  repeat split; auto.
Qed.

Lemma segment_except_steps cfg i t response e st :
  (steps_when_cancelled (fst (segment_except cfg i t response e st)) <= 1)%nat.
Proof.
  destruct (segment_except_shape cfg i t response e st) as [_ [Hf|[_ Hl]]].
  - destruct (fst (segment_except cfg i t response e st)); try discriminate.
    cbn. lia.
  - rewrite Hl. cbn. lia.
Qed.

(** With the flag set, a step brings a thread nearer to its return, and
    only the step that receives a response opens the part file. *)
Lemma cancelled_step_ends cfg env g w st :
  cancel_event st = true ->
  (steps_when_cancelled (fst (download_segment_step cfg env g w st))
   <= pred (steps_when_cancelled w))%nat
  /\ ((forall t, w <> Requesting t) ->
      fs_temp (snd (download_segment_step cfg env g w st)) = fs_temp st).
Proof.
  intros Hc. unfold download_segment_step. cbv zeta.
  assert (Hkeep : forall t response e,
            fs_temp (snd (segment_except cfg (seg_index g) t response e st))
            = fs_temp st).
  { intros t response e.
    destruct (only_records_segment_except cfg (seg_index g) t response e st)
      as (_ & _ & _ & _ & _ & H & _). exact H. }
  destruct w as [t|t|t r written pending fin|why].
  - unfold is_cancelled. rewrite Hc, andb_false_r. cbn. split; [lia|reflexivity].
  - split; [|intros H; destruct (H t eq_refl)].
    cbn [steps_when_cancelled pred].
    destruct (att_request _);
      try (eapply Nat.le_trans; [apply segment_except_steps|lia]).
    unfold open_part. destruct (fs_temp st); [cbn; lia|].
    eapply Nat.le_trans; [apply segment_except_steps|lia].
  - cbn [steps_when_cancelled pred]. destruct pending as [|[len now] rest].
    + destruct fin.
      * destruct (written =? _); [cbn; split; [lia|reflexivity]|].
        split; [apply segment_except_steps|intros _; apply Hkeep].
      * split; [apply segment_except_steps|intros _; apply Hkeep].
    + unfold is_cancelled. rewrite Hc. cbn. split; [lia|reflexivity].
  - cbn. split; [lia|reflexivity].
Qed.

(** X6. A segment thread whose next step finds the cancellation flag set
    has returned after at most three steps, wherever it stood (a step
    runs from one point where the thread waits, for the loop test, the
    response, a chunk or the end of the stream, to the next).  In those
    steps it counts no bytes and writes none: the byte count, the output
    file and the part files of the other segments are as they were, and
    its own part file is as it was or empty.  It is emptied (or created)
    only when the flag was set while a request of the thread was under
    way: the response, when it comes, still opens the part file for
    writing before the first chunk finds the flag set; a thread at the
    loop test or in its stream leaves the temp directory as it was. *)
Theorem cancelled_thread_returns (cfg : config) (env : environment)
    (g : segment) (w : worker_state) (st : state) :
  cancel_event st = true ->
  let first := download_segment_step cfg env g w st in
  let second := download_segment_step cfg env g (fst first) (snd first) in
  let third := download_segment_step cfg env g (fst second) (snd second) in
  is_finished (fst third) = true
  /\ fs_output (snd third) = fs_output st
  /\ downloaded (snd third) = downloaded st
  /\ (forall j, j <> seg_index g -> part_size j (snd third) = part_size j st)
  /\ (part_size (seg_index g) (snd third) = part_size (seg_index g) st
      \/ part_size (seg_index g) (snd third) = Some 0)
  /\ ((forall t, w <> Requesting t) -> fs_temp (snd third) = fs_temp st).
Proof.
  intros Hc first second third.
  pose proof (download_segment_step_frame cfg env g w st) as F1. fold first in F1.
  pose proof (download_segment_step_frame cfg env g (fst first) (snd first)) as F2.
  fold second in F2.
  pose proof (download_segment_step_frame cfg env g (fst second) (snd second)) as F3.
  fold third in F3.
  assert (Hc1 : cancel_event (snd first) = true).
  { destruct F1 as (_ & _ & _ & _ & _ & _ & _ & _ & H & _). exact (H Hc). }
  assert (Hc2 : cancel_event (snd second) = true).
  { destruct F2 as (_ & _ & _ & _ & _ & _ & _ & _ & H & _). exact (H Hc1). }
  destruct (cancelled_step_ends cfg env g w st Hc) as [S1 T1].
  destruct (cancelled_step_ends cfg env g (fst first) (snd first) Hc1) as [S2 T2].
  destruct (cancelled_step_ends cfg env g (fst second) (snd second) Hc2) as [S3 T3].
  fold first in S1, T1. fold second in S2, T2. fold third in S3, T3.
  pose proof (thread_frame_trans _ _ _ _ (thread_frame_trans _ _ _ _ F1 F2) F3) as F.
  destruct F as (_ & _ & _ & _ & Ho & _ & Hothers & _ & _ & Hw).
  destruct (Hw Hc) as [Hd Hown].
  split; [|split; [exact Ho|split; [exact Hd|split; [exact Hothers|split;
           [exact Hown|]]]]].
  - assert (Hz : steps_when_cancelled (fst third) = 0%nat).
    { assert (steps_when_cancelled w <= 3)%nat by (destruct w; cbn; lia). lia. }
    destruct (fst third); cbn in Hz; try discriminate. reflexivity.
  - intros Hw0.
    assert (N1 : forall t, fst first <> Requesting t).
    { intros t E. rewrite E in S1. destruct w; cbn in S1; lia. }
    assert (N2 : forall t, fst second <> Requesting t).
    { intros t E. rewrite E in S2. destruct (fst first); cbn in S2; lia. }
    rewrite (T3 N2), (T2 N1), (T1 Hw0). reflexivity.
Qed.

Lemma cancelled_thread_returns_witness :
  cancel_event (set_fs_temp (Some [(0, 5)]) (cancel sample_cfg sample_state)) = true
  /\ part_size 0 (set_fs_temp (Some [(0, 5)]) (cancel sample_cfg sample_state))
     = Some 5
  /\ part_size 0
       (snd (download_segment_step sample_cfg env_segments_arrive
               {| seg_index := 0; start_byte := 0; end_byte := 10485759 |}
               (Requesting 0)
               (set_fs_temp (Some [(0, 5)]) (cancel sample_cfg sample_state))))
     = Some 0
  /\ exists third,
       third
       = iterate 3
           (fun ws =>
              download_segment_step sample_cfg env_segments_arrive
                {| seg_index := 0; start_byte := 0; end_byte := 10485759 |}
                (fst ws) (snd ws))
           (Requesting 0,
            set_fs_temp (Some [(0, 5)]) (cancel sample_cfg sample_state))
       /\ is_finished (fst third) = true
       /\ part_size 0 (snd third) = Some 0.
Proof.
  assert (Hc : cancel_event
                 (set_fs_temp (Some [(0, 5)]) (cancel sample_cfg sample_state))
               = true) by reflexivity.
  pose proof (cancelled_thread_returns sample_cfg env_segments_arrive
                {| seg_index := 0; start_byte := 0; end_byte := 10485759 |}
                (Requesting 0)
                (set_fs_temp (Some [(0, 5)]) (cancel sample_cfg sample_state)) Hc)
    as H.
  cbv zeta in H.
  split; [exact Hc|]. split; [reflexivity|]. split; [reflexivity|].
  eexists. split; [reflexivity|].
  split; [exact (proj1 H)|reflexivity].
Defined.

(* ------------------------------------------------------------------ *)
(** ** One segment, uninterrupted *)

Lemma iterate_finished cfg env g n why st :
  iterate n (fun ws => download_segment_step cfg env g (fst ws) (snd ws))
    (Finished why, st) = (Finished why, st).
Proof. induction n as [|n IH]; cbn [iterate]; [reflexivity|exact IH]. Qed.

(** A stream that nobody cancels is written chunk by chunk into the part
    file and counted; at its end the size is checked. *)
Lemma iterate_stream cfg env g t resp chunks :
  forall n written st size,
    cancel_event st = false ->
    part_size (seg_index g) st = Some size ->
    (List.length chunks + 1 <= n)%nat ->
    written + chunk_bytes chunks = (end_byte g - start_byte g) + 1 ->
    let r := iterate n
               (fun ws => download_segment_step cfg env g (fst ws) (snd ws))
               (Streaming t resp written chunks StreamEnd, st) in
    fst r = Finished SegmentComplete
    /\ part_size (seg_index g) (snd r) = Some (size + chunk_bytes chunks)
    /\ downloaded (snd r) = downloaded st + chunk_bytes chunks
    /\ error (snd r) = error st
    /\ cancel_event (snd r) = false.
Proof.
  induction chunks as [|[len now] rest IH]; intros n written st size Hc Hp Hn Hsum;
    (destruct n as [|n]; [cbn in Hn; lia|]); cbv zeta;
    cbn [iterate fst snd]; cbn [download_segment_step].
  - cbn [chunk_bytes] in *. rewrite Z.add_0_r in Hsum.
    destruct (Z.eqb_spec written (end_byte g - start_byte g + 1)); [|contradiction].
    rewrite iterate_finished. cbn [fst snd]. rewrite !Z.add_0_r. auto.
  - cbn [chunk_bytes List.length] in *. unfold is_cancelled. rewrite Hc.
    destruct (Z.ltb_spec 0 len).
    + destruct (update_progress_disk cfg len now (write_part (seg_index g) len st))
        as (_ & _ & _ & _ & _ & U6 & U7 & U8 & U9).
      assert (Hw : part_size (seg_index g) (write_part (seg_index g) len st)
                   = Some (size + len)
                   /\ downloaded (write_part (seg_index g) len st) = downloaded st
                   /\ cancel_event (write_part (seg_index g) len st) = false
                   /\ error (write_part (seg_index g) len st) = error st).
      { unfold part_size, write_part in *.
        destruct (fs_temp st) as [files|]; [|discriminate].
        rewrite Hp. cbn. rewrite lookup_put_same. auto. }
      destruct Hw as (W1 & W2 & W3 & W4).
      destruct (IH n (written + len)
                  (_update_progress cfg len now (write_part (seg_index g) len st))
                  (size + len)) as (R1 & R2 & R3 & R4 & R5).
      * rewrite U8. exact W3.
      * unfold part_size. rewrite U6. exact W1.
      * lia.
      * lia.
      * rewrite R1, R2, R3, R4, R5, U7, U9, W2, W4.
        repeat split; auto; try lia. f_equal. lia.
    + destruct (IH n written st size Hc Hp) as (R1 & R2 & R3 & R4 & R5); try lia.
      rewrite R1, R2, R3, R4, R5. repeat split; auto; try lia.
Qed.

Lemma first_step_opens cfg env g st files r :
  cancel_event st = false -> fs_temp st = Some files ->
  let a := net_get_segment env (url st)
             (_get_request_headers cfg
                (Some ("bytes=" @@ str (start_byte g) @@ "-" @@ str (end_byte g))))
             0 in
  att_request a = ResponseOk r ->
  download_segment_step cfg env g (AtLoop 0) st = (Requesting 0, st)
  /\ download_segment_step cfg env g (Requesting 0) st
     = (Streaming 0 r 0 (att_chunks a) (att_end a),
        set_fs_temp (Some (put_file (seg_index g) 0 files)) st).
Proof.
  intros Hc Hfs a Hreq. unfold download_segment_step, is_cancelled.
  rewrite Hc. cbn [Nat.ltb Nat.leb retries andb negb]. cbv zeta. fold a.
  rewrite Hreq. unfold open_part. rewrite Hfs. split; reflexivity.
Qed.

(** X7. [download_segment] run without interruption on a job that is not
    cancelled, the temp directory in place: when the first response passes
    and its stream ends after exactly [end_byte - start_byte + 1] bytes,
    the call returns after that one request with the part file holding
    those bytes, the byte count raised by as many, and neither the error
    nor the flag touched. *)
Theorem segment_arrives (cfg : config) (env : environment)
    (segment_index start_byte end_byte : Z) (st : state) :
  cancel_event st = false -> is_some (fs_temp st) = true ->
  let a := net_get_segment env (url st)
             (_get_request_headers cfg
                (Some ("bytes=" @@ str start_byte @@ "-" @@ str end_byte))) 0 in
  (exists r, att_request a = ResponseOk r) -> att_end a = StreamEnd ->
  chunk_bytes (att_chunks a) = end_byte - start_byte + 1 ->
  let st' := download_segment cfg env segment_index start_byte end_byte st in
  part_size segment_index st' = Some (end_byte - start_byte + 1)
  /\ downloaded st' = downloaded st + (end_byte - start_byte + 1)
  /\ error st' = error st
  /\ cancel_event st' = false.
Proof.
  rename start_byte into first_byte, end_byte into last_byte.
  intros Hc Ht a (r & Hreq) Hend Hsum st'.
  destruct (fs_temp st) as [files|] eqn:Hfs; [|discriminate].
  set (g := {| seg_index := segment_index; start_byte := first_byte;
               end_byte := last_byte |}).
  destruct (first_step_opens cfg env g st files r Hc Hfs Hreq) as [Htest Hfirst].
  cbn [start_byte end_byte seg_index g] in Hfirst.
  fold g in Hfirst. fold a in Hfirst. rewrite Hend in Hfirst.
  unfold st', download_segment, run_thread. fold g. cbn [th_segment th_state].
  set (n := worker_cost cfg env g (AtLoop 0) st).
  assert (Hn : n = S (S (S (S (List.length (att_chunks a)
                                  + tries_cost cfg env 2 g 1 st))))).
  { unfold n. cbn [worker_cost]. change (retries - 0)%nat with 3%nat.
    cbn [tries_cost]. cbn [start_byte end_byte g]. fold a.
    reflexivity. }
  rewrite Hn. cbn [iterate fst snd]. rewrite Htest. cbn [fst snd]. rewrite Hfirst.
  pose proof (iterate_stream cfg env g 0 r (att_chunks a)
                (S (S (List.length (att_chunks a) + tries_cost cfg env 2 g 1 st)))
                0 (set_fs_temp (Some (put_file segment_index 0 files)) st) 0)
    as Hrun.
  cbv zeta in Hrun.
  destruct Hrun as (R1 & R2 & R3 & R4 & R5).
  - exact Hc.
  - unfold part_size. cbn [fs_temp set_fs_temp seg_index g].
    apply lookup_put_same.
  - lia.
  - cbn [start_byte end_byte g]. lia.
  - destruct (iterate _ _ _) as [w s']. cbn [fst snd] in *.
    cbn [seg_index g] in R2. rewrite R2, R3, R4, Hsum.
    cbn [downloaded error set_fs_temp]. repeat split; auto.
Qed.

Lemma segment_arrives_witness :
  part_size 1 (download_segment sample_cfg env_segments_arrive 1 10485760 20971519
                 (set_fs_temp (Some []) sample_state))
  = Some 10485760.
Proof.
  destruct (segment_arrives sample_cfg env_segments_arrive 1 10485760 20971519
              (set_fs_temp (Some []) sample_state)) as [H _];
    [reflexivity | reflexivity | eexists; reflexivity | reflexivity
    | reflexivity | exact H].
Defined.

(* ------------------------------------------------------------------ *)
(** ** Failed tries *)

(** X8. What the [except] clauses of [download_segment] do with a
    connection error, an HTTP error or a size mismatch.  On the first and
    second try the thread goes back to the loop and the job is left exactly
    as it was; on the third it gives up and sets the flag.  The exception is
    an HTTP error with a truthy 416 response: the thread then stops on any
    try, without retrying, and sets the flag.  A 416 whose response object
    is falsy is retried like any other error. *)
Theorem failed_try_is_retried (cfg : config) (segment_index : Z)
    (current_try : nat) (response : option http_response) (e : py_exn)
    (st : state) :
  exn_kind e <> OtherException ->
  let r := segment_except cfg segment_index current_try response e st in
  (escalates_416 response e = false -> (current_try < 2)%nat ->
   r = (AtLoop (S current_try), st))
  /\ (escalates_416 response e = false -> (2 <= current_try)%nat ->
      fst r = Finished RetriesExhausted /\ cancel_event (snd r) = true)
  /\ (escalates_416 response e = true ->
      fst r = Finished RangeNotSatisfiable /\ cancel_event (snd r) = true).
Proof.
  intros Hk r.
  assert (Hretry : forall detail,
            ((current_try < 2)%nat ->
             retry_or_give_up cfg segment_index (S current_try) detail st
             = (AtLoop (S current_try), st))
            /\ ((2 <= current_try)%nat ->
                fst (retry_or_give_up cfg segment_index (S current_try) detail st)
                = Finished RetriesExhausted
                /\ cancel_event
                     (snd (retry_or_give_up cfg segment_index (S current_try)
                             detail st)) = true)).
  { intros detail. unfold retry_or_give_up. cbv zeta. unfold retries.
    destruct (Nat.leb_spec 3 (S current_try)); split; intros; try lia.
    - cbn [fst snd]. split; [reflexivity|apply cancel_sets_flag].
    - reflexivity. }
  unfold r, segment_except, escalates_416. cbv zeta.
  destruct (exn_kind e); try contradiction;
    try (destruct (Hretry (exn_text e)) as [H1 H2];
         split; [intros _; exact H1|split; [intros _; exact H2|discriminate]]);
    (destruct (exn_response e) as [code|];
     [|destruct (Hretry (exn_text e)) as [H1 H2];
       split; [intros _; exact H1|split; [intros _; exact H2|discriminate]]];
     destruct (code =? 401);
     [destruct (Hretry (exn_text e @@ " (Unauthorized)")) as [H1 H2];
      split; [intros _; exact H1|split; [intros _; exact H2|discriminate]]|];
     destruct (code =? 403);
     [destruct (Hretry (exn_text e @@ " (Forbidden)")) as [H1 H2];
      split; [intros _; exact H1|split; [intros _; exact H2|discriminate]]|];
     destruct (response_is_416 response); cbn [negb andb];
     [split; [discriminate|split; [discriminate|]];
      intros _; cbn [fst snd]; split; [reflexivity|apply cancel_sets_flag]
     |destruct (Hretry (exn_text e)) as [H1 H2];
      split; [intros _; exact H1|split; [intros _; exact H2|discriminate]]]).
Qed.

Lemma failed_try_is_retried_witness :
  segment_except sample_cfg 0 0
    (Some {| resp_truthy := false; resp_status_code := 416; resp_url := "";
             resp_accept_ranges := None; resp_content_length := HeaderAbsent |})
    {| exn_kind := RequestException; exn_text := "416 Client Error";
       exn_response := Some 416 |} sample_state
  = (AtLoop 1, sample_state).
Proof.
  destruct (failed_try_is_retried sample_cfg 0 0
              (Some {| resp_truthy := false; resp_status_code := 416;
                       resp_url := ""; resp_accept_ranges := None;
                       resp_content_length := HeaderAbsent |})
              {| exn_kind := RequestException; exn_text := "416 Client Error";
                 exn_response := Some 416 |} sample_state) as [H _];
    [discriminate|].
  apply H; [reflexivity|lia].
Defined.

(* ------------------------------------------------------------------ *)
(** ** Merging without all the parts *)

Lemma insert_sorted_in (i j : Z) (l : list Z) :
  In j (insert_sorted i l) <-> j = i \/ In j l.
Proof.
  induction l as [|k rest IH]; cbn [insert_sorted].
  - cbn. intuition.
  - destruct (i <=? k); cbn [In]; [intuition|].
    rewrite IH. intuition.
Qed.

Lemma sorted_in (j : Z) (l : list Z) : In j (sorted l) <-> In j l.
Proof.
  induction l as [|i rest IH]; [reflexivity|].
  cbn [sorted fold_right]. fold (sorted rest).
  rewrite insert_sorted_in, IH. cbn. intuition.
Qed.

(** The copy loop stops at the first listed part that is not on disk. *)
Lemma copy_parts_missing cfg parts :
  forall st,
    (exists i, In i parts /\ part_size i st = None) ->
    exists j st1,
      In j parts /\ part_size j st = None
      /\ error st1 = error st /\ cancel_event st1 = cancel_event st
      /\ copy_parts cfg parts st
         = if cancel_event st
           then (MergeAborted,
                 set_error (or_else (error st1)
                              "Cancelled during download, merge aborted.") st1)
           else (MergeRaises
                   {| exn_kind := OtherException;
                      exn_text := "Merge failed, missing part file: "
                                  @@ part_file_path cfg j
                                  @@ ". This should not happen.";
                      exn_response := None |}, st1).
Proof.
  induction parts as [|k rest IH]; intros st (i & Hin & Hmiss); [destruct Hin|].
  cbn [copy_parts]. fold (part_size k st).
  destruct (part_size k st) as [size|] eqn:Hk.
  - assert (Hrest : In i rest).
    { destruct Hin as [->|H]; [congruence|exact H]. }
    assert (Hw : forall j, part_size j (write_output size st) = part_size j st).
    { intros j. unfold part_size, write_output.
      destruct (fs_output st); reflexivity. }
    assert (Hwe : error (write_output size st) = error st
                  /\ cancel_event (write_output size st) = cancel_event st).
    { unfold write_output. destruct (fs_output st); split; reflexivity. }
    destruct Hwe as [Hwe Hwc].
    destruct (IH (write_output size st)) as (j & st1 & Hj & Hjm & He & Hc & Heq).
    { exists i. split; [exact Hrest|]. rewrite Hw. exact Hmiss. }
    exists j, st1. rewrite Hw in Hjm. rewrite Hwe in He. rewrite Hwc in Hc, Heq.
    split; [right; exact Hj|]. split; [exact Hjm|]. split; [exact He|].
    split; [exact Hc|exact Heq].
  - exists k, st. split; [left; reflexivity|]. split; [exact Hk|].
    split; [reflexivity|]. split; [reflexivity|].
    unfold is_cancelled. destruct (cancel_event st); reflexivity.
Qed.

(** X9. [merge_parts] never succeeds when a listed part file is not on
    disk: it returns [False]; on a job that is not cancelled the error
    names a missing part, on a cancelled job an error already recorded is
    kept and otherwise the cancellation is given as the reason. *)
Theorem merge_needs_every_part (cfg : config) (st : state) (i : Z) :
  In i (part_files st) -> part_size i st = None ->
  fst (merge_parts cfg st) = false
  /\ (cancel_event st = false ->
      exists j, In j (part_files st) /\ part_size j st = None
                /\ error (snd (merge_parts cfg st))
                   = Some (missing_part_error cfg j))
  /\ (cancel_event st = true ->
      error (snd (merge_parts cfg st))
      = or_else (error st) "Cancelled during download, merge aborted.").
Proof.
  intros Hin Hmiss. unfold merge_parts. cbv zeta.
  destruct (part_files st) as [|k rest] eqn:Hp; [destruct Hin|].
  destruct (copy_parts_missing cfg (sorted (k :: rest)) (set_fs_output (Some 0) st))
    as (j & st1 & Hj & Hjm & He & Hc & Heq).
  { exists i. split; [apply sorted_in; exact Hin|exact Hmiss]. }
  apply (proj1 (sorted_in j (k :: rest))) in Hj.
  cbn [error cancel_event set_fs_output] in He, Hc, Heq.
  change (part_size j (set_fs_output (Some 0) st)) with (part_size j st) in Hjm.
  rewrite Heq. destruct (cancel_event st) eqn:Hcs.
  - split; [reflexivity|]. split; [discriminate|].
    intros _. cbn [snd error set_error]. rewrite He. reflexivity.
  - split; [reflexivity|]. split; [|discriminate].
    intros _. exists j. split; [exact Hj|]. split; [exact Hjm|]. reflexivity.
Qed.

Lemma merge_needs_every_part_witness :
  fst (merge_parts sample_cfg
         (set_part_files [0; 1]
            (init sample_cfg (Some 20971520) (Some [(0, 10485760)]) None)))
  = false.
Proof.
  destruct (merge_needs_every_part sample_cfg
              (set_part_files [0; 1]
                 (init sample_cfg (Some 20971520) (Some [(0, 10485760)]) None)) 1)
    as [H _]; [right; left; reflexivity|reflexivity|exact H].
Defined.

(* ------------------------------------------------------------------ *)
(** ** Strategy and threads *)

Lemma keeps_plan_refl st : keeps_plan st st.
Proof. repeat split; auto. Qed.

Lemma keeps_plan_trans a b c : keeps_plan a b -> keeps_plan b c -> keeps_plan a c.
Proof.
  intros (A1 & A2 & A3 & A4 & A5) (B1 & B2 & B3 & B4 & B5).
  unfold keeps_plan. rewrite B1, B2, B3, B4. repeat split; auto.
Qed.

Lemma thread_frame_keeps_plan i st st' : thread_frame i st st' -> keeps_plan st st'.
Proof.
  intros (H1 & H2 & H3 & H4 & _ & _ & _ & _ & H9 & _). repeat split; assumption.
Qed.

Lemma only_records_keeps_plan st st' : only_records st st' -> keeps_plan st st'.
Proof.
  intros (H1 & H2 & H3 & H4 & _ & _ & _ & H8). repeat split; assumption.
Qed.

Lemma keeps_plan_orchestrator_step (p : pool) :
  keeps_plan (shared p) (shared (orchestrator_step p)).
Proof.
  unfold orchestrator_step.
  destruct (orch p) as [[|g todo]|[|i active]| |]; cbn [shared];
    try apply keeps_plan_refl;
    destruct (is_cancelled (shared p)); cbn [shared]; repeat split; auto.
Qed.

Lemma keeps_plan_pool_step cfg env a p :
  keeps_plan (shared p) (shared (pool_step cfg env a p)).
Proof.
  destruct a as [|i| |]; cbn [pool_step].
  - apply keeps_plan_orchestrator_step.
  - pose proof (step_thread_frame cfg env i (threads p) (shared p)) as H.
    destruct (step_thread cfg env i (threads p) (shared p)).
    cbn [shared snd] in *. eapply thread_frame_keeps_plan. exact H.
  - cbn [shared]. apply only_records_keeps_plan, only_records_cancel.
  - cbn [shared]. apply keeps_plan_refl.
Qed.

Lemma keeps_plan_run_schedule cfg env sched p :
  keeps_plan (shared p) (shared (run_schedule cfg env sched p)).
Proof.
  revert p. induction sched as [|a rest IH]; intros p; cbn [run_schedule].
  - apply keeps_plan_refl.
  - destruct (orchestrator_done p); [apply keeps_plan_refl|].
    eapply keeps_plan_trans; [apply keeps_plan_pool_step|apply IH].
Qed.

Lemma keeps_plan_iterate_orchestrator n p :
  keeps_plan (shared p) (shared (iterate n orchestrator_step p)).
Proof.
  revert p. induction n as [|n IH]; intros p; cbn [iterate].
  - apply keeps_plan_refl.
  - eapply keeps_plan_trans; [apply keeps_plan_orchestrator_step|apply IH].
Qed.

Lemma keeps_plan_run_thread cfg env t st :
  keeps_plan st (snd (run_thread cfg env t st)).
Proof.
  unfold run_thread.
  assert (H : forall n w s,
            keeps_plan s (snd (iterate n
              (fun ws => download_segment_step cfg env (th_segment t) (fst ws) (snd ws))
              (w, s)))).
  { induction n as [|n IH]; intros w s; cbn [iterate]; [apply keeps_plan_refl|].
    cbn [fst snd].
    pose proof (download_segment_step_frame cfg env (th_segment t) w s) as H1.
    destruct (download_segment_step cfg env (th_segment t) w s) as [w' s'].
    eapply keeps_plan_trans; [eapply thread_frame_keeps_plan; exact H1|apply IH]. }
  specialize (H (worker_cost cfg env (th_segment t) (th_state t) st) (th_state t) st).
  destruct (iterate _ _ _). exact H.
Qed.

Lemma keeps_plan_run_threads_out cfg env ths st :
  keeps_plan st (snd (run_threads_out cfg env ths st))
  /\ map th_segment (fst (run_threads_out cfg env ths st)) = map th_segment ths.
Proof.
  revert st. induction ths as [|t rest IH]; intros st; cbn [run_threads_out].
  - split; [apply keeps_plan_refl|reflexivity].
  - pose proof (keeps_plan_run_thread cfg env t st) as H1.
    destruct (run_thread_finishes cfg env t st) as [_ Hseg].
    destruct (run_thread cfg env t st) as [t' st1]. cbn [fst snd] in *.
    destruct (IH st1) as [H2 H3].
    destruct (run_threads_out cfg env rest st1) as [rest' st2]. cbn [fst snd] in *.
    split; [eapply keeps_plan_trans; eauto|].
    cbn [map]. rewrite Hseg, H3. reflexivity.
Qed.

Lemma step_thread_segments cfg env i ths st :
  map th_segment (fst (step_thread cfg env i ths st)) = map th_segment ths.
Proof.
  induction ths as [|t rest IH]; cbn [step_thread]; [reflexivity|].
  destruct (seg_index (th_segment t) =? i).
  - destruct (download_segment_step cfg env (th_segment t) (th_state t) st).
    reflexivity.
  - destruct (step_thread cfg env i rest st). cbn [fst map] in *.
    rewrite IH. reflexivity.
Qed.

Lemma follows_plan_orchestrator_step segments p :
  follows_plan segments p -> follows_plan segments (orchestrator_step p).
Proof.
  intros (rest & Hseg & Hrest). unfold orchestrator_step, follows_plan.
  destruct (orch p) as [[|g todo]|[|i active]| |] eqn:Ho; cbn [threads orch].
  - exists rest. split; [exact Hseg|discriminate].
  - destruct (is_cancelled (shared p)); cbn [threads orch].
    + exists rest. split; [exact Hseg|discriminate].
    + exists todo. rewrite (Hrest _ eq_refl) in Hseg.
      rewrite map_app, <- app_assoc. split; [exact Hseg|].
      intros todo' H. injection H as <-. reflexivity.
  - exists rest. split; [exact Hseg|discriminate].
  - destruct (is_cancelled (shared p)); cbn [threads orch];
      exists rest; (split; [exact Hseg|discriminate]).
  - exists rest. rewrite Ho. split; [exact Hseg|discriminate].
  - exists rest. rewrite Ho. split; [exact Hseg|discriminate].
Qed.

Lemma follows_plan_pool_step cfg env segments a p :
  follows_plan segments p -> follows_plan segments (pool_step cfg env a p).
Proof.
  intros H. destruct a as [|i| |]; cbn [pool_step].
  - apply follows_plan_orchestrator_step. exact H.
  - pose proof (step_thread_segments cfg env i (threads p) (shared p)) as Hs.
    destruct (step_thread cfg env i (threads p) (shared p)) as [ths st].
    cbn [fst] in Hs. destruct H as (rest & Hseg & Hrest).
    exists rest. cbn [threads orch]. rewrite Hs. split; assumption.
  - exact H.
  - destruct H as (rest & Hseg & _). exists rest. cbn [threads orch].
    split; [exact Hseg|discriminate].
Qed.

Lemma follows_plan_run_threads cfg env segments st :
  follows_plan segments (run_threads cfg env segments st).
Proof.
  unfold run_threads.
  set (p0 := {| orch := Starting segments; threads := []; shared := st |}).
  assert (H0 : follows_plan segments p0).
  { exists segments. split; [reflexivity|].
    intros todo H. injection H as <-. reflexivity. }
  assert (H1 : forall sched p, follows_plan segments p ->
                 follows_plan segments (run_schedule cfg env sched p)).
  { induction sched as [|a rest IH]; intros p Hp; cbn [run_schedule]; [exact Hp|].
    destruct (orchestrator_done p); [exact Hp|].
    apply IH. apply follows_plan_pool_step. exact Hp. }
  specialize (H1 (schedule env) p0 H0).
  generalize dependent (run_schedule cfg env (schedule env) p0). intros p Hp.
  unfold complete. destruct (orchestrator_done p); [exact Hp|].
  set (p1 := match orch p with
             | Starting todo => iterate (S (List.length todo)) orchestrator_step p
             | _ => p
             end).
  assert (Hp1 : follows_plan segments p1).
  { assert (Hit : forall n q, follows_plan segments q ->
                    follows_plan segments (iterate n orchestrator_step q)).
    { induction n as [|n IH]; intros q Hq; cbn [iterate]; [exact Hq|].
      apply IH. apply follows_plan_orchestrator_step. exact Hq. }
    unfold p1. destruct (orch p); try exact Hp. apply Hit. exact Hp. }
  destruct (keeps_plan_run_threads_out cfg env (threads p1) (shared p1)) as [_ Hs].
  destruct (run_threads_out cfg env (threads p1) (shared p1)) as [ths s2].
  cbn [fst] in Hs.
  apply follows_plan_orchestrator_step, follows_plan_orchestrator_step.
  destruct Hp1 as (rest & Hseg & Hrest).
  exists rest. cbn [threads orch]. rewrite Hs. split; assumption.
Qed.

Lemma keeps_plan_run_threads cfg env segments st :
  keeps_plan st (shared (run_threads cfg env segments st)).
Proof.
  unfold run_threads.
  set (p0 := {| orch := Starting segments; threads := []; shared := st |}).
  apply (keeps_plan_trans _ (shared (run_schedule cfg env (schedule env) p0)));
    [apply (keeps_plan_run_schedule cfg env (schedule env) p0)|].
  generalize (run_schedule cfg env (schedule env) p0). intros p.
  unfold complete. destruct (orchestrator_done p); [apply keeps_plan_refl|].
  set (p1 := match orch p with
             | Starting todo => iterate (S (List.length todo)) orchestrator_step p
             | _ => p
             end).
  assert (H1 : keeps_plan (shared p) (shared p1)).
  { unfold p1. destruct (orch p); try apply keeps_plan_refl.
    apply keeps_plan_iterate_orchestrator. }
  destruct (keeps_plan_run_threads_out cfg env (threads p1) (shared p1)) as [H2 _].
  destruct (run_threads_out cfg env (threads p1) (shared p1)) as [ths s2].
  cbn [snd] in H2.
  set (p2 := {| orch := orch p1; threads := ths; shared := s2 |}).
  eapply keeps_plan_trans; [exact H1|].
  eapply keeps_plan_trans; [exact H2|].
  change s2 with (shared p2).
  eapply keeps_plan_trans; apply keeps_plan_orchestrator_step.
Qed.

Lemma all_started_orchestrator_step segments p :
  follows_plan segments p -> all_started segments p ->
  all_started segments (orchestrator_step p).
Proof.
  intros (rest & Hseg & Hrest) Hall. unfold orchestrator_step, all_started.
  destruct (orch p) as [[|g todo]|[|i active]| |] eqn:Ho; cbn [threads orch shared].
  - right; right; right.
    rewrite (Hrest _ eq_refl), app_nil_r in Hseg. symmetry. exact Hseg.
  - destruct (is_cancelled (shared p)) eqn:Hc; cbn [threads orch shared].
    + right; right; left. exact Hc.
    + left. eexists. reflexivity.
  - destruct Hall as [[todo H]|[H|[H|H]]]; [congruence|congruence|auto|auto].
  - destruct Hall as [[todo H]|[H|[H|H]]]; [congruence|congruence| |];
      destruct (is_cancelled (shared p)); cbn [threads orch shared]; auto.
  - rewrite Ho. destruct Hall as [[todo H]|[H|[H|H]]]; [congruence|congruence|auto|auto].
  - rewrite Ho. auto.
Qed.

Lemma all_started_pool_step cfg env segments a p :
  follows_plan segments p -> all_started segments p ->
  all_started segments (pool_step cfg env a p).
Proof.
  intros Hplan Hall. destruct a as [|i| |].
  - apply all_started_orchestrator_step; assumption.
  - destruct (keeps_plan_pool_step cfg env (Worker i) p) as (_ & _ & _ & _ & Hc).
    pose proof (step_thread_segments cfg env i (threads p) (shared p)) as Hs.
    cbn [pool_step] in *.
    destruct (step_thread cfg env i (threads p) (shared p)) as [ths st].
    cbn [fst shared] in *. unfold all_started. cbn [orch threads shared].
    rewrite Hs. destruct Hall as [H|[H|[H|H]]]; auto.
  - right; right; left. cbn [pool_step shared]. apply cancel_sets_flag.
  - right; left. reflexivity.
Qed.

Lemma all_started_run_threads cfg env segments st :
  let p := run_threads cfg env segments st in
  orch p = Interrupted \/ cancel_event (shared p) = true
  \/ map th_segment (threads p) = segments.
Proof.
  cbv zeta.
  assert (Hinv : follows_plan segments (run_threads cfg env segments st)
                 /\ all_started segments (run_threads cfg env segments st)).
  { unfold run_threads.
    set (p0 := {| orch := Starting segments; threads := []; shared := st |}).
    assert (H0 : follows_plan segments p0 /\ all_started segments p0).
    { split.
      - exists segments. split; [reflexivity|].
        intros todo H. injection H as <-. reflexivity.
      - left. eexists. reflexivity. }
    assert (H1 : forall sched p,
               follows_plan segments p /\ all_started segments p ->
               follows_plan segments (run_schedule cfg env sched p)
               /\ all_started segments (run_schedule cfg env sched p)).
    { induction sched as [|a rest IH]; intros p Hp; cbn [run_schedule]; [exact Hp|].
      destruct (orchestrator_done p); [exact Hp|].
      apply IH. destruct Hp as [Hp1 Hp2]. split.
      - apply follows_plan_pool_step. exact Hp1.
      - apply all_started_pool_step; assumption. }
    specialize (H1 (schedule env) p0 H0).
    generalize dependent (run_schedule cfg env (schedule env) p0). intros p Hp.
    unfold complete. destruct (orchestrator_done p); [exact Hp|].
    set (p1 := match orch p with
               | Starting todo => iterate (S (List.length todo)) orchestrator_step p
               | _ => p
               end).
    assert (Hp1 : follows_plan segments p1 /\ all_started segments p1).
    { assert (Hit : forall n q,
                 follows_plan segments q /\ all_started segments q ->
                 follows_plan segments (iterate n orchestrator_step q)
                 /\ all_started segments (iterate n orchestrator_step q)).
      { induction n as [|n IH]; intros q Hq; cbn [iterate]; [exact Hq|].
        apply IH. destruct Hq as [Hq1 Hq2]. split.
        - apply follows_plan_orchestrator_step. exact Hq1.
        - apply all_started_orchestrator_step; assumption. }
      unfold p1. destruct (orch p); try exact Hp. apply Hit. exact Hp. }
    destruct (keeps_plan_run_threads_out cfg env (threads p1) (shared p1))
      as [(_ & _ & _ & _ & Hc) Hs].
    destruct (run_threads_out cfg env (threads p1) (shared p1)) as [ths s2].
    cbn [fst snd] in Hs, Hc.
    set (p2 := {| orch := orch p1; threads := ths; shared := s2 |}).
    assert (Hp2 : follows_plan segments p2 /\ all_started segments p2).
    { destruct Hp1 as [(rest & Hseg & Hrest) Hall]. split.
      - exists rest. cbn [threads orch p2]. rewrite Hs. split; assumption.
      - unfold all_started. cbn [threads orch shared p2]. rewrite Hs.
        destruct Hall as [H|[H|[H|H]]]; auto. }
    destruct Hp2 as [Ha Hb].
    pose proof (follows_plan_orchestrator_step _ _ Ha) as Ha1.
    pose proof (all_started_orchestrator_step _ _ Ha Hb) as Hb1.
    split.
    - apply follows_plan_orchestrator_step. exact Ha1.
    - apply all_started_orchestrator_step; assumption. }
  destruct Hinv as [_ [[todo H]|H]]; [|exact H].
  pose proof (run_threads_done cfg env segments st) as Hd.
  unfold orchestrator_done in Hd. rewrite H in Hd. discriminate.
Qed.

Lemma calculate_segments_nonempty total n :
  0 < total -> 1 <= n -> calculate_segments total n <> [].
Proof.
  intros Ht Hn. unfold calculate_segments, range. cbv zeta.
  set (s := if total / n =? 0 then total else total / n).
  assert (Hs : 1 <= s).
  { unfold s. destruct (Z.eqb_spec (total / n) 0); [lia|].
    pose proof (Z.div_pos total n). lia. }
  destruct (segment_loop_shape total n s Hs (Z.to_nat n) 0 0)
    as (init & g & Heq & _); try lia.
  rewrite Heq. destruct init; discriminate.
Qed.

Lemma use_multi_connection_true supports n total :
  use_multi_connection supports n total = true ->
  supports = true /\ 1 < n /\ 0 < total.
Proof.
  unfold use_multi_connection. intros H.
  apply andb_prop in H as [H _]. apply andb_prop in H as [H H3].
  apply andb_prop in H as [H1 H2].
  apply Z.ltb_lt in H2, H3. auto.
Qed.

(** The head of the multi-connection branch always delivers the planned
    segments: the temp directory is set up afresh and the plan is never
    empty when the strategy asks for several connections. *)
Lemma multi_download_shape cfg env supports st :
  use_multi_connection supports (num_connections cfg) (total_size st) = true ->
  exists segments st',
    multi_prepare cfg st = inl (segments, st')
    /\ segments <> []
    /\ segments = calculate_segments (total_size st) (num_connections cfg)
    /\ connection_type st' = "Multi (" @@ str (num_connections cfg) @@ ")"
    /\ total_size st' = total_size st
    /\ download_try cfg env supports st
       = multi_branch cfg env segments (total_size st) st'.
Proof.
  intros Hm. destruct (use_multi_connection_true _ _ _ Hm) as (_ & Hn & Ht).
  pose proof (calculate_segments_nonempty (total_size st) (num_connections cfg) Ht
                ltac:(lia)) as Hne.
  unfold download_try. cbv zeta. rewrite Hm.
  unfold multi_prepare, clean_temp_dir, rmtree_temp, mkdir_temp. cbv zeta.
  match goal with
  | |- context [if is_some (fs_temp ?s) then _ else _] => set (st1 := s)
  end.
  assert (Ht1 : total_size st1 = total_size st).
  { unfold st1, manager_update. destruct (manager_attached cfg); reflexivity. }
  assert (Hc1 : connection_type st1 = "Multi (" @@ str (num_connections cfg) @@ ")").
  { unfold st1, manager_update. destruct (manager_attached cfg); reflexivity. }
  destruct (is_some (fs_temp st1)) eqn:E; cbn [is_some fs_temp set_fs_temp];
    rewrite ?E; cbn [total_size set_part_files set_fs_temp];
    rewrite Ht1;
    destruct (calculate_segments (total_size st) (num_connections cfg))
      as [|g rest] eqn:Hseg; try contradiction;
    eexists; eexists; (split; [reflexivity|]);
    (split; [discriminate|]); (split; [reflexivity|]);
    (split; [exact Hc1|]); (split; [exact Ht1|reflexivity]).
Qed.

(** With more connections than bytes the floor segment size is 0 and is
    replaced by the total size: the first segment covers the file and the
    loop stops. *)
Lemma calculate_segments_floor_zero (total n : Z) :
  1 <= total -> total < n ->
  calculate_segments total n
  = [{| seg_index := 0; start_byte := 0; end_byte := total - 1 |}].
Proof.
  intros Ht Hlt. unfold calculate_segments. rewrite range_cons by lia.
  set (s := if total / n =? 0 then total else total / n).
  cbn [segment_loop].
  destruct (Z.leb_spec total 0); [lia|].
  assert (Hs : s = total).
  { unfold s. rewrite Z.div_small by lia. reflexivity. }
  rewrite Hs.
  destruct (Z.eqb_spec 0 (n - 1)); [lia|].
  replace (Z.min (0 + total - 1) (total - 1)) with (total - 1) by lia.
  destruct (Z.leb_spec 0 (total - 1)); [|lia].
  destruct (Z.ltb_spec (total - 1) total); [|lia].
  cbn [andb]. rewrite segment_loop_break by lia. reflexivity.
Qed.

(** C7 (as stated) fails on a job that reaches the segment calculation:
    a file of 10 MiB + 1 byte asked for with 20000000 connections passes
    the strategy test; the floor segment size is 0, a segment of that size
    would be empty, and the calculation returns the one segment that
    covers the file, not the empty list. *)
Lemma calculate_segments_single_counterexample :
  use_multi_connection true 20000000 10485761 = true
  /\ 10485761 / 20000000 = 0
  /\ calculate_segments 10485761 20000000
     = [{| seg_index := 0; start_byte := 0; end_byte := 10485760 |}]
  /\ calculate_segments 10485761 20000000 <> [].
Proof.
  assert (H : calculate_segments 10485761 20000000
              = [{| seg_index := 0; start_byte := 0; end_byte := 10485760 |}])
    by (apply (calculate_segments_floor_zero 10485761 20000000); lia).
  split; [reflexivity|]. split; [reflexivity|]. split; [exact H|].
  rewrite H. discriminate.
Qed.

(** C7 (amended). With [num_connections <= 1] or [total_size <= 0] the
    strategy test fails, so [download] takes the single-connection branch
    and calculates no segment.  When the test passes, the calculation
    never returns the empty list and the job goes on in multi-connection
    mode with the segments calculated; with more connections than bytes,
    where a segment of the floor size would be empty, these are the single
    segment [0, total_size - 1]. *)
Theorem calculate_segments_fallback (cfg : config) (env : environment)
    (supports_ranges : bool) (st : state) :
  let multi :=
    use_multi_connection supports_ranges (num_connections cfg) (total_size st) in
  let planned := calculate_segments (total_size st) (num_connections cfg) in
  (num_connections cfg <= 1 \/ total_size st <= 0 ->
   multi = false
   /\ download_try cfg env supports_ranges st = fallback_branch cfg env st)
  /\ (multi = true ->
      planned <> []
      /\ exists st',
           multi_prepare cfg st = inl (planned, st')
           /\ download_try cfg env supports_ranges st
              = multi_branch cfg env planned (total_size st) st')
  /\ (multi = true -> total_size st < num_connections cfg ->
      planned = [{| seg_index := 0; start_byte := 0;
                    end_byte := total_size st - 1 |}]).
Proof.
  cbv zeta. split; [|split].
  - intros Hcase.
    assert (Hgate : use_multi_connection supports_ranges (num_connections cfg)
                      (total_size st) = false).
    { unfold use_multi_connection. destruct Hcase as [Hc|Hc].
      - destruct (Z.ltb_spec 1 (num_connections cfg)); [lia|].
        destruct supports_ranges; reflexivity.
      - destruct (Z.ltb_spec 0 (total_size st)); [lia|].
        rewrite andb_false_r. reflexivity. }
    split; [exact Hgate|]. unfold download_try. rewrite Hgate. reflexivity.
  - intros Hm.
    destruct (multi_download_shape cfg env supports_ranges st Hm)
      as (segments & st' & Hprep & Hne & Hseg & _ & _ & Htry).
    subst segments. split; [exact Hne|].
    exists st'. split; [exact Hprep|exact Htry].
  - intros Hm Hlt.
    apply use_multi_connection_true in Hm as (_ & _ & Hpos).
    apply calculate_segments_floor_zero; lia.
Qed.

Lemma calculate_segments_fallback_witness :
  use_multi_connection true (num_connections sample_cfg)
    (total_size (init sample_cfg None None None)) = false
  /\ use_multi_connection true (num_connections sample_cfg)
       (total_size sample_state) = true
  /\ calculate_segments (total_size sample_state) (num_connections sample_cfg)
     <> [].
Proof.
  destruct (calculate_segments_fallback sample_cfg (env_single None 40) true
              (init sample_cfg None None None)) as (H1 & _).
  destruct (calculate_segments_fallback sample_cfg env_segments_arrive true
              sample_state) as (_ & H2 & _).
  cbv zeta in *.
  assert (Hm : use_multi_connection true (num_connections sample_cfg)
                 (total_size sample_state) = true) by reflexivity.
  split; [apply H1; right; simpl; lia|].
  split; [exact Hm|exact (proj1 (H2 Hm))].
Defined.

Lemma copy_parts_settled cfg parts st :
  cancel_event (snd (copy_parts cfg parts st)) = cancel_event st
  /\ connection_type (snd (copy_parts cfg parts st)) = connection_type st
  /\ total_size (snd (copy_parts cfg parts st)) = total_size st.
Proof.
  revert st. induction parts as [|i rest IH]; intros st; cbn [copy_parts].
  - repeat split.
  - destruct (match fs_temp st with Some files => lookup_file i files | None => None end).
    + destruct (IH (write_output z st)) as (H1 & H2 & H3).
      rewrite H1, H2, H3. unfold write_output.
      destruct (fs_output st); repeat split.
    + destruct (is_cancelled st); repeat split.
Qed.

Lemma merge_parts_settled cfg st :
  cancel_event (snd (merge_parts cfg st)) = cancel_event st
  /\ connection_type (snd (merge_parts cfg st)) = connection_type st
  /\ total_size (snd (merge_parts cfg st)) = total_size st.
Proof.
  unfold merge_parts. cbv zeta.
  destruct (part_files st) as [|i rest].
  - destruct (is_cancelled st); repeat split.
  - destruct (copy_parts_settled cfg (sorted (i :: rest)) (set_fs_output (Some 0) st))
      as (H1 & H2 & H3).
    destruct (copy_parts cfg _ _) as [[| |e] st1]; cbn [snd] in *;
      unfold merge_failed; cbn [snd]; auto.
    destruct (fs_output st1); cbn [snd]; auto.
    destruct (_ && _); cbn [snd]; auto.
Qed.

Lemma post_download_checks_settled expected st :
  cancel_event (post_download_checks expected st) = cancel_event st
  /\ connection_type (post_download_checks expected st) = connection_type st
  /\ total_size (post_download_checks expected st) = total_size st.
Proof.
  unfold post_download_checks.
  destruct (is_cancelled st); [repeat split|].
  destruct (truthy (error st)); [repeat split|].
  destruct (negb _); [|repeat split].
  destruct (0 <? expected); repeat split.
Qed.

Lemma cancel_settled cfg st :
  connection_type (cancel cfg st) = connection_type st
  /\ total_size (cancel cfg st) = total_size st.
Proof.
  destruct (only_records_cancel cfg st) as (_ & H2 & H3 & _). auto.
Qed.

(** The multi-connection branch, followed by the interrupt handler. *)
Lemma multi_branch_settles cfg env segments expected st :
  let p := run_threads cfg env segments st in
  let r := download_except cfg (multi_branch cfg env segments expected st) in
  connection_type (snd r) = connection_type st
  /\ (cancel_event (snd r) = true -> fst r = false)
  /\ (cancel_event (snd r) = false -> map th_segment (threads p) = segments).
Proof.
  cbv zeta. unfold multi_branch. cbv zeta.
  destruct (keeps_plan_run_threads cfg env segments st) as (_ & _ & Hct & _ & _).
  pose proof (all_started_run_threads cfg env segments st) as Hall. cbv zeta in Hall.
  set (p := run_threads cfg env segments st) in *.
  assert (Hmulti :
    orch p <> Interrupted ->
    let r := download_except cfg
               (let (success, st0) :=
                  merge_stage cfg (post_download_checks expected (shared p)) in
                (Returns success, st0)) in
    connection_type (snd r) = connection_type st
    /\ (cancel_event (snd r) = true -> fst r = false)
    /\ (cancel_event (snd r) = false -> map th_segment (threads p) = segments)).
  { intros Hni. cbv zeta.
    destruct (post_download_checks_settled expected (shared p)) as (P1 & P2 & _).
    set (st2 := post_download_checks expected (shared p)) in *.
    unfold merge_stage, is_cancelled.
    destruct (negb (truthy (error st2)) && negb (cancel_event st2)) eqn:Hg.
    - destruct (merge_parts_settled cfg st2) as (M1 & M2 & _).
      destruct (merge_parts cfg st2) as [success st3].
      cbn [download_except fst snd] in *.
      apply andb_prop in Hg as [_ Hg]. apply negb_true_iff in Hg.
      rewrite M1, M2, P2, Hct, Hg. split; [reflexivity|].
      split; [discriminate|]. intros _.
      destruct Hall as [H|[H|H]]; [contradiction| |exact H].
      rewrite P1 in Hg. congruence.
    - cbn [download_except fst snd]. rewrite P2, Hct, P1.
      split; [reflexivity|]. split; [reflexivity|].
      intros Hc. destruct Hall as [H|[H|H]]; [contradiction|congruence|exact H]. }
  destruct (orch p) eqn:Ho; try (apply Hmulti; discriminate).
  cbn [download_except fst snd].
  destruct (cancel_settled cfg (shared p)) as [C1 _].
  rewrite C1, Hct, cancel_sets_flag.
  split; [reflexivity|]. split; [reflexivity|discriminate].
Qed.

Lemma read_stream_mode cfg events fin st :
  connection_type (snd (read_stream cfg events fin st)) = connection_type st.
Proof.
  revert st. induction events as [|e rest IH]; intros st; cbn [read_stream].
  - reflexivity.
  - destruct e as [len now| |].
    + destruct (is_cancelled st); [reflexivity|].
      destruct (0 <? len); [|apply IH].
      rewrite IH.
      destruct (update_progress_disk cfg len now (write_output len st))
        as (_ & _ & H & _).
      rewrite H. unfold write_output. destruct (fs_output st); reflexivity.
    + rewrite IH. apply cancel_settled.
    + reflexivity.
Qed.

Lemma fallback_except_mode e st :
  connection_type (snd (fallback_except e st)) = connection_type st.
Proof. unfold fallback_except. destruct (exn_kind e); reflexivity. Qed.

Lemma fallback_download_mode cfg env st :
  connection_type (snd (fallback_download cfg env st)) = "Single".
Proof.
  unfold fallback_download. cbv zeta.
  match goal with
  | |- context [match fb_request ?x with _ => _ end] => set (exchange := x)
  end.
  set (st1 := set_downloaded 0 _).
  assert (H1 : connection_type st1 = "Single").
  { unfold st1, manager_update. destruct (manager_attached cfg); reflexivity. }
  destruct (fb_request exchange) as [e|r text|response];
    try (rewrite fallback_except_mode; exact H1).
  set (st2 := if String.eqb _ _ then st1 else _).
  assert (H2 : connection_type st2 = "Single").
  { unfold st2. destruct (String.eqb _ _); exact H1. }
  assert (Hread : forall st3, connection_type st3 = "Single" ->
    connection_type (snd
      match read_stream cfg (fb_events exchange) (fb_end exchange)
              (set_fs_output (Some 0) st3) with
      | (StreamDone, st) =>
          (Returns true,
           if (0 <? total_size st) && negb (downloaded st =? total_size st)
           then set_error
                  (Some ("Fallback download size mismatch. Expected "
                         @@ str (total_size st) @@ ", got "
                         @@ str (downloaded st) @@ ".")) st
           else st)
      | (StreamCancelled, st) => (Returns false, st)
      | (StreamFailed e, st) => fallback_except e st
      | (StreamInterrupted, st) => (RaisesKeyboardInterrupt, st)
      end) = "Single").
  { intros st3 H3.
    pose proof (read_stream_mode cfg (fb_events exchange) (fb_end exchange)
                  (set_fs_output (Some 0) st3)) as H4.
    destruct (read_stream cfg _ _ _) as [[| |e|] st4]; cbn [snd] in *;
      rewrite ?fallback_except_mode;
      try destruct (_ && _); cbn [connection_type set_error];
      rewrite H4; exact H3. }
  destruct (total_size st2 <=? 0); [|apply Hread; exact H2].
  destruct (content_length response) as [n|e];
    [|rewrite fallback_except_mode; exact H2].
  apply Hread. destruct (0 <? n); exact H2.
Qed.

Lemma fallback_branch_mode cfg env st :
  connection_type (snd (download_except cfg (fallback_branch cfg env st))) = "Single".
Proof.
  unfold fallback_branch.
  pose proof (fallback_download_mode cfg env st) as H.
  destruct (fallback_download cfg env st) as [[success|] st1];
    cbn [download_except snd] in *.
  - destruct (_ && _); exact H.
  - destruct (cancel_settled cfg st1) as [C _]. rewrite C. exact H.
Qed.

Lemma download_finally_mode cfg r :
  connection_type (snd (download_finally cfg r)) = connection_type (snd r)
  /\ cancel_event (snd (download_finally cfg r)) = cancel_event (snd r)
  /\ fst (download_finally cfg r) = fst r.
Proof.
  destruct r as [success st]. unfold download_finally. cbn [fst snd].
  destruct (cleanup_temp_removes cfg success st)
    as (_ & _ & Hc & _ & _ & _ & Hct & _).
  unfold manager_update.
  destruct (manager_attached cfg); cbn [fst snd connection_type cancel_event
    set_notifications]; auto.
Qed.

(** X11. The strategy decides the connection type once and for all: when
    the probe reports range support, more than one connection is
    configured and the size is known and above the threshold, the job ends
    with connection type "Multi (n)"; in every other case it ends with
    "Single" and no segment thread is ever started.  Nothing later in the
    job (a failed segment, a cancellation, the merge) changes the type. *)
Theorem strategy_decides_mode (cfg : config) (env : environment) (st : state) :
  let probe := download_probe cfg env st in
  let multi :=
    use_multi_connection (fst probe) (num_connections cfg)
      (total_size (snd probe)) in
  connection_type (snd (download cfg env st))
  = (if multi then "Multi (" @@ str (num_connections cfg) @@ ")" else "Single")
  /\ (multi = false -> download_threads cfg env st = [])
  /\ (fst probe = false \/ requested_connections cfg <= 1
      \/ total_size (snd probe) <= 0 -> multi = false).
Proof.
  cbv zeta. unfold download, download_threads.
  destruct (download_probe cfg env st) as [supports st1]. cbn [fst snd].
  split; [|split].
  - destruct (download_finally_mode cfg
                (download_except cfg (download_try cfg env supports st1)))
      as (-> & _ & _).
    destruct (use_multi_connection supports (num_connections cfg) (total_size st1))
      eqn:Hm.
    + destruct (multi_download_shape cfg env supports st1 Hm)
        as (segments & st1' & _ & _ & _ & Hct & _ & ->).
      destruct (multi_branch_settles cfg env segments (total_size st1) st1')
        as (-> & _). exact Hct.
    + unfold download_try. cbv zeta. rewrite Hm. apply fallback_branch_mode.
  - intros ->. reflexivity.
  - intros H.
    destruct (use_multi_connection supports (num_connections cfg) (total_size st1))
      eqn:Hm; [|reflexivity].
    apply use_multi_connection_true in Hm as (Hs & Hn & Ht).
    unfold num_connections in Hn.
    destruct H as [H|[H|H]]; [congruence|lia|lia].
Qed.

(** X12. In multi-connection mode a cancellation seen by the time the
    waiting loop is left always wins: if the cancel flag is set at that
    point, whoever set it (the user, a segment thread that gave up) and
    however far the segments got, or if the loops were left by a
    [KeyboardInterrupt], then nothing is merged: [download] returns
    [False] with the flag set and leaves no output file. *)
Theorem multi_cancel_never_completes (cfg : config) (env : environment)
    (st : state) (p : pool) :
  download_pool cfg env st = Some p ->
  cancel_event (shared p) = true \/ orch p = Interrupted ->
  fst (download cfg env st) = false
  /\ cancel_event (snd (download cfg env st)) = true
  /\ fs_output (snd (download cfg env st)) = None.
Proof.
  unfold download, download_pool.
  destruct (download_probe cfg env st) as [supports st1].
  destruct (use_multi_connection supports (num_connections cfg) (total_size st1))
    eqn:Hm; [|discriminate].
  destruct (multi_download_shape cfg env supports st1 Hm)
    as (segments & st1' & Hprep & Hne & _ & _ & _ & Htry).
  rewrite Hprep, Htry. destruct segments as [|g more]; [contradiction|].
  intros Hp Hstop. injection Hp as <-.
  assert (Hr : exists st2,
    download_except cfg (multi_branch cfg env (g :: more) (total_size st1) st1')
    = (false, st2) /\ cancel_event st2 = true).
  { unfold multi_branch. cbv zeta.
    set (p := run_threads cfg env (g :: more) st1') in *.
    assert (Hflag : cancel_event (shared p) = true ->
      exists st2,
        download_except cfg
          (let (success, st0) :=
             merge_stage cfg (post_download_checks (total_size st1) (shared p)) in
           (Returns success, st0)) = (false, st2) /\ cancel_event st2 = true).
    { intros Hc. unfold post_download_checks, merge_stage, is_cancelled.
      rewrite Hc. rewrite Hc. rewrite andb_false_r.
      exists (shared p). split; [reflexivity|exact Hc]. }
    destruct (orch p) eqn:Ho;
      try (apply Hflag; destruct Hstop as [H|H]; [exact H|discriminate]).
    exists (cancel cfg (shared p)). split; [reflexivity|apply cancel_sets_flag]. }
  destruct Hr as (st2 & -> & Hc).
  destruct (download_finally_result cfg false st2) as (Hfst & _ & Ho & Hcc & _).
  cbv zeta in *. rewrite Hfst, Ho, Hcc. auto.
Qed.

Lemma multi_cancel_never_completes_witness :
  exists p,
    download_pool sample_cfg env_one_segment_fails sample_state = Some p
    /\ cancel_event (shared p) = true
    /\ fst (download sample_cfg env_one_segment_fails sample_state) = false.
Proof.
  assert (Hc : match download_pool sample_cfg env_one_segment_fails sample_state with
               | Some p => cancel_event (shared p)
               | None => false
               end = true) by (vm_compute; reflexivity).
  destruct (download_pool sample_cfg env_one_segment_fails sample_state)
    as [p|] eqn:Hp; [|discriminate].
  exists p. split; [reflexivity|]. split; [exact Hc|].
  exact (proj1 (multi_cancel_never_completes sample_cfg env_one_segment_fails
                  sample_state p Hp (or_introl Hc))).
Defined.

(** X13. The segment threads follow the plan: the threads that a download
    starts run the first segments of [calculate_segments], one thread per
    segment and in the order of the plan; and in multi-connection mode
    every planned segment has its thread unless the job ends cancelled. *)
Theorem threads_follow_plan (cfg : config) (env : environment) (st : state) :
  let probe := download_probe cfg env st in
  let planned :=
    calculate_segments (total_size (snd probe)) (num_connections cfg) in
  (exists rest,
     planned = map th_segment (download_threads cfg env st) ++ rest)
  /\ (use_multi_connection (fst probe) (num_connections cfg)
        (total_size (snd probe)) = true ->
      cancel_event (snd (download cfg env st)) = false ->
      map th_segment (download_threads cfg env st) = planned).
Proof.
  cbv zeta. unfold download, download_threads.
  destruct (download_probe cfg env st) as [supports st1]. cbn [fst snd].
  destruct (use_multi_connection supports (num_connections cfg) (total_size st1))
    eqn:Hm.
  - destruct (multi_download_shape cfg env supports st1 Hm)
      as (segments & st1' & Hprep & Hne & Hseg & _ & _ & Htry).
    rewrite Hprep, Htry, <- Hseg.
    destruct segments as [|g more]; [contradiction|].
    split.
    + destruct (follows_plan_run_threads cfg env (g :: more) st1')
        as (rest & Hrest & _).
      exists rest. exact Hrest.
    + intros _ Hc.
      destruct (multi_branch_settles cfg env (g :: more) (total_size st1) st1')
        as (_ & _ & Hall).
      destruct (download_finally_mode cfg
                  (download_except cfg
                     (multi_branch cfg env (g :: more) (total_size st1) st1')))
        as (_ & Hce & _).
      rewrite Hce in Hc. exact (Hall Hc).
  - split; [|discriminate]. eexists. reflexivity.
Qed.

Lemma threads_follow_plan_witness :
  use_multi_connection
    (fst (download_probe sample_cfg env_segments_arrive sample_state))
    (num_connections sample_cfg)
    (total_size (snd (download_probe sample_cfg env_segments_arrive sample_state)))
  = true
  /\ cancel_event (snd (download sample_cfg env_segments_arrive sample_state))
     = false
  /\ map th_segment (download_threads sample_cfg env_segments_arrive sample_state)
     = calculate_segments
         (total_size (snd (download_probe sample_cfg env_segments_arrive
                             sample_state)))
         (num_connections sample_cfg).
Proof.
  assert (H1 : use_multi_connection
    (fst (download_probe sample_cfg env_segments_arrive sample_state))
    (num_connections sample_cfg)
    (total_size (snd (download_probe sample_cfg env_segments_arrive sample_state)))
    = true) by (vm_compute; reflexivity).
  assert (H2 : cancel_event
    (snd (download sample_cfg env_segments_arrive sample_state)) = false)
    by (vm_compute; reflexivity).
  split; [exact H1|]. split; [exact H2|].
  exact (proj2 (threads_follow_plan sample_cfg env_segments_arrive sample_state)
           H1 H2).
Defined.

Lemma copy_parts_counts cfg parts st :
  downloaded (snd (copy_parts cfg parts st)) = downloaded st
  /\ (fst (copy_parts cfg parts st) = MergeCopied ->
      error (snd (copy_parts cfg parts st)) = error st).
Proof.
  revert st. induction parts as [|i rest IH]; intros st; cbn [copy_parts].
  - repeat split.
  - destruct (match fs_temp st with Some files => lookup_file i files | None => None end).
    + destruct (IH (write_output z st)) as (H1 & H2).
      assert (Hw : downloaded (write_output z st) = downloaded st
                   /\ error (write_output z st) = error st).
      { unfold write_output. destruct (fs_output st); split; reflexivity. }
      destruct Hw as [Hw1 Hw2]. rewrite H1, Hw1. split; [reflexivity|].
      intros H. rewrite (H2 H). exact Hw2.
    + destruct (is_cancelled st); cbn [fst snd]; split; try reflexivity;
        discriminate.
Qed.

(** A merge that succeeds: the output is there, within one byte of a known
    total, and neither the byte counter nor the error field is touched. *)
Lemma merge_parts_success_clean cfg st :
  fst (merge_parts cfg st) = true ->
  (exists size,
     fs_output (snd (merge_parts cfg st)) = Some size
     /\ (0 < total_size st -> Z.abs (size - total_size st) <= 1))
  /\ downloaded (snd (merge_parts cfg st)) = downloaded st
  /\ error (snd (merge_parts cfg st)) = error st.
Proof.
  unfold merge_parts. cbv zeta.
  destruct (part_files st) as [|i rest]; [discriminate|].
  destruct (copy_parts_settled cfg (sorted (i :: rest)) (set_fs_output (Some 0) st))
    as (_ & _ & Ht).
  destruct (copy_parts_counts cfg (sorted (i :: rest)) (set_fs_output (Some 0) st))
    as (Hd & He).
  destruct (copy_parts cfg _ _) as [[| |e] st1]; cbn [fst snd] in *;
    unfold merge_failed; try discriminate.
  destruct (fs_output st1) as [size|] eqn:Ho; [|discriminate].
  destruct (0 <? total_size st1) eqn:Hpos; cbn [andb].
  - destruct (Z.ltb_spec 1 (Z.abs (size - total_size st1))); [discriminate|].
    intros _. cbn [snd]. split; [|split; [exact Hd|exact (He eq_refl)]].
    exists size. split; [exact Ho|]. intros _.
    cbn [total_size set_fs_output] in Ht. lia.
  - intros _. cbn [snd]. split; [|split; [exact Hd|exact (He eq_refl)]].
    exists size. split; [exact Ho|]. intros H.
    apply Z.ltb_ge in Hpos. cbn [total_size set_fs_output] in Ht. lia.
Qed.

Lemma multi_branch_success cfg env segments st st3 :
  0 < total_size st ->
  download_except cfg (multi_branch cfg env segments (total_size st) st)
  = (true, st3) ->
  cancel_event st3 = false
  /\ truthy (error st3) = false
  /\ total_size st3 = total_size st
  /\ downloaded st3 = total_size st
  /\ exists size,
       fs_output st3 = Some size /\ Z.abs (size - total_size st) <= 1.
Proof.
  intros Hpos. unfold multi_branch. cbv zeta.
  destruct (keeps_plan_run_threads cfg env segments st) as (_ & Hts & _).
  set (p := run_threads cfg env segments st) in *.
  assert (Hmain :
    download_except cfg
      (let (success, st0) :=
         merge_stage cfg (post_download_checks (total_size st) (shared p)) in
       (Returns success, st0)) = (true, st3) ->
    cancel_event st3 = false
    /\ truthy (error st3) = false
    /\ total_size st3 = total_size st
    /\ downloaded st3 = total_size st
    /\ exists size,
         fs_output st3 = Some size /\ Z.abs (size - total_size st) <= 1).
  { unfold merge_stage, is_cancelled.
    destruct (post_download_checks_settled (total_size st) (shared p))
      as (_ & _ & P3).
    assert (Hcount :
      truthy (error (post_download_checks (total_size st) (shared p))) = false ->
      cancel_event (post_download_checks (total_size st) (shared p)) = false ->
      downloaded (post_download_checks (total_size st) (shared p))
      = total_size st).
    { unfold post_download_checks, is_cancelled.
      destruct (cancel_event (shared p)) eqn:Ec; [intros; congruence|].
      destruct (truthy (error (shared p))) eqn:Ee; [intros; congruence|].
      destruct (Z.eqb_spec (downloaded (shared p)) (total_size st)) as [E|E];
        cbn [negb]; [intros _ _; exact E|].
      destruct (Z.ltb_spec 0 (total_size st)); [|lia].
      intros Hx _. cbn in Hx. discriminate. }
    set (st2 := post_download_checks (total_size st) (shared p)) in *.
    destruct (truthy (error st2)) eqn:He; cbn [negb andb];
      [cbn [download_except]; intros H; discriminate|].
    destruct (cancel_event st2) eqn:Hc; cbn [negb];
      [cbn [download_except]; intros H; discriminate|].
    pose proof (merge_parts_success_clean cfg st2) as Hm.
    destruct (merge_parts_settled cfg st2) as (M1 & _ & M3).
    destruct (merge_parts cfg st2) as [success st3'].
    cbn [download_except fst snd] in *. intros H. injection H as -> ->.
    destruct (Hm eq_refl) as ((size & Ho & Hsize) & Hd & Herr).
    rewrite M1, Herr, M3, Hd, P3, Hts, (Hcount eq_refl eq_refl).
    repeat split; auto.
    exists size. split; [exact Ho|].
    rewrite P3, Hts in Hsize. apply Hsize. exact Hpos. }
  destruct (orch p); try exact Hmain.
  cbn [download_except]. intros H. discriminate.
Qed.

(** X14. A multi-connection download that returns [True] is clean: the
    byte counter equals the total size, the output file is within one
    byte of it, and, cancellations arriving while the threads run, the job
    is not cancelled and no error is recorded. *)
Theorem multi_success_is_clean (cfg : config) (env : environment) (st : state) :
  use_multi_connection (fst (download_probe cfg env st)) (num_connections cfg)
    (total_size (snd (download_probe cfg env st))) = true ->
  fst (download cfg env st) = true ->
  cancel_event (snd (download cfg env st)) = false
  /\ truthy (error (snd (download cfg env st))) = false
  /\ downloaded (snd (download cfg env st)) = total_size (snd (download cfg env st))
  /\ exists size,
       fs_output (snd (download cfg env st)) = Some size
       /\ Z.abs (size - total_size (snd (download cfg env st))) <= 1.
Proof.
  unfold download.
  destruct (download_probe cfg env st) as [supports st1]. cbn [fst snd].
  intros Hm Hs.
  destruct (multi_download_shape cfg env supports st1 Hm)
    as (segments & st1' & _ & _ & _ & _ & Hts & Htry).
  apply use_multi_connection_true in Hm as (_ & _ & Hpos).
  rewrite Htry in *. rewrite <- Hts in *.
  destruct (download_except cfg
              (multi_branch cfg env segments (total_size st1') st1'))
    as [success st3] eqn:Hr.
  destruct (download_finally_result cfg success st3)
    as (Hfst & _ & Ho & Hc & He & Ht & Hd & _).
  cbv zeta in *. rewrite Hfst in Hs. subst success.
  destruct (multi_branch_success cfg env segments st1' st3 Hpos Hr)
    as (H1 & H2 & H3 & H4 & size & H5 & H6).
  rewrite Hc, He, Ht, Hd, Ho, H1, H2, H3, H4.
  repeat split; auto. exists size. split; [exact H5|exact H6].
Qed.

Lemma multi_success_is_clean_witness :
  use_multi_connection
    (fst (download_probe sample_cfg env_segments_arrive sample_state))
    (num_connections sample_cfg)
    (total_size (snd (download_probe sample_cfg env_segments_arrive sample_state)))
  = true
  /\ fst (download sample_cfg env_segments_arrive sample_state) = true
  /\ downloaded (snd (download sample_cfg env_segments_arrive sample_state))
     = total_size (snd (download sample_cfg env_segments_arrive sample_state)).
Proof.
  assert (H1 : use_multi_connection
    (fst (download_probe sample_cfg env_segments_arrive sample_state))
    (num_connections sample_cfg)
    (total_size (snd (download_probe sample_cfg env_segments_arrive sample_state)))
    = true) by (vm_compute; reflexivity).
  assert (H2 : fst (download sample_cfg env_segments_arrive sample_state) = true)
    by (vm_compute; reflexivity).
  split; [exact H1|]. split; [exact H2|].
  exact (proj1 (proj2 (proj2
           (multi_success_is_clean sample_cfg env_segments_arrive sample_state
              H1 H2)))).
Defined.

(* ------------------------------------------------------------------ *)
(** ** The single-connection download *)

Lemma append_empty_r (s : string) : s @@ "" = s.
Proof. induction s as [|c s IH]; cbn; [reflexivity|rewrite IH; reflexivity]. Qed.

Lemma read_stream_app cfg pre more fin st :
  forallb is_chunk pre = true -> cancel_event st = false ->
  exists st',
    read_stream cfg (pre ++ more) fin st = read_stream cfg more fin st'
    /\ cancel_event st' = false
    /\ downloaded st' = downloaded st + received pre
    /\ total_size st' = total_size st
    /\ error st' = error st
    /\ fs_output st'
       = match fs_output st with
         | Some size => Some (size + received pre)
         | None => None
         end.
Proof.
  revert st. induction pre as [|e rest IH]; intros st Hall Hc.
  - exists st. cbn [app received]. rewrite Z.add_0_r.
    repeat split; auto.
    destruct (fs_output st); [rewrite Z.add_0_r|]; reflexivity.
  - destruct e as [len now| |]; try discriminate.
    cbn [forallb is_chunk andb] in Hall.
    cbn [app read_stream received]. unfold is_cancelled. rewrite Hc.
    destruct (0 <? len).
    + destruct (update_progress_frame cfg len now (write_output len st))
        as (Hd & Ht & Hcc & He & Ho).
      assert (Hw : downloaded (write_output len st) = downloaded st
                   /\ total_size (write_output len st) = total_size st
                   /\ cancel_event (write_output len st) = cancel_event st
                   /\ error (write_output len st) = error st
                   /\ fs_output (write_output len st)
                      = match fs_output st with
                        | Some size => Some (size + len)
                        | None => None
                        end).
      { unfold write_output. destruct (fs_output st) eqn:E; cbn; rewrite ?E; auto. }
      destruct Hw as (Hwd & Hwt & Hwc & Hwe & Hwo).
      destruct (IH (_update_progress cfg len now (write_output len st)) Hall)
        as (st' & H1 & H2 & H3 & H4 & H5 & H6).
      { rewrite Hcc, Hwc. exact Hc. }
      exists st'. rewrite H1, H2, H3, H4, H5, H6, Hd, Ht, He, Ho, Hwd, Hwt, Hwe, Hwo.
      split; [reflexivity|]. split; [reflexivity|]. split; [lia|].
      split; [reflexivity|]. split; [reflexivity|].
      destruct (fs_output st); [f_equal; lia|reflexivity].
    + destruct (IH st Hall Hc) as (st' & H1 & H2 & H3 & H4 & H5 & H6).
      exists st'. rewrite H1, H2, H3, H4, H5, H6.
      split; [reflexivity|]. split; [reflexivity|]. split; [lia|].
      split; [reflexivity|]. split; [reflexivity|].
      destruct (fs_output st); [f_equal; lia|reflexivity].
Qed.

(** X15. The single-connection stream notices a cancellation only at the
    next chunk: a [cancel()] that arrives while chunks are still to come
    stops the loop with the bytes written so far and the default error,
    whereas a [cancel()] that arrives after the last chunk does not stop
    the loop, which ends normally with the flag set. *)
Theorem cancel_seen_at_next_chunk (cfg : config) (pre rest : list stream_event)
    (len : Z) (now : Q) (fin : stream_end) (st : state) :
  forallb is_chunk pre = true -> cancel_event st = false ->
  let stopped :=
    read_stream cfg (pre ++ UserCancels :: Chunk len now :: rest) fin st in
  let late := read_stream cfg (pre ++ [UserCancels]) StreamEnd st in
  (fst stopped = StreamCancelled
   /\ cancel_event (snd stopped) = true
   /\ downloaded (snd stopped) = downloaded st + received pre
   /\ error (snd stopped) = Some "Download cancelled by user")
  /\ (fst late = StreamDone
      /\ cancel_event (snd late) = true
      /\ downloaded (snd late) = downloaded st + received pre).
Proof.
  intros Hall Hc. cbv zeta.
  assert (Hcancel : forall s, cancel_event s = false ->
            downloaded (cancel cfg s) = downloaded s).
  { intros s _. destruct (only_records_cancel cfg s)
      as (_ & _ & _ & _ & _ & _ & H & _). exact H. }
  split.
  - destruct (read_stream_app cfg pre (UserCancels :: Chunk len now :: rest) fin st
                Hall Hc) as (st' & -> & Hc' & Hd & _ & _ & _).
    cbn [read_stream]. unfold is_cancelled. rewrite cancel_sets_flag.
    cbn [fst snd]. rewrite cancel_sets_flag, (Hcancel st' Hc'), Hd.
    rewrite (cancel_records_default cfg st' Hc'). repeat split.
  - destruct (read_stream_app cfg pre [UserCancels] StreamEnd st Hall Hc)
      as (st' & -> & Hc' & Hd & _ & _ & _).
    cbn [read_stream fst snd]. rewrite cancel_sets_flag, (Hcancel st' Hc'), Hd.
    repeat split.
Qed.

Lemma cancel_seen_at_next_chunk_witness :
  forallb is_chunk [Chunk 60 1001%Q] = true
  /\ cancel_event (set_fs_output (Some 0) sample_state) = false
  /\ fst (read_stream sample_cfg
            ([Chunk 60 1001%Q] ++ UserCancels :: Chunk 40 1002%Q :: [])
            StreamEnd (set_fs_output (Some 0) sample_state)) = StreamCancelled
  /\ fst (read_stream sample_cfg ([Chunk 60 1001%Q] ++ [UserCancels])
            StreamEnd (set_fs_output (Some 0) sample_state)) = StreamDone.
Proof.
  assert (H1 : forallb is_chunk [Chunk 60 1001%Q] = true) by reflexivity.
  assert (H2 : cancel_event (set_fs_output (Some 0) sample_state) = false)
    by reflexivity.
  split; [exact H1|]. split; [exact H2|].
  pose proof (cancel_seen_at_next_chunk sample_cfg [Chunk 60 1001%Q] []
                40 1002%Q StreamEnd (set_fs_output (Some 0) sample_state) H1 H2)
    as H.
  cbv zeta in H. split; [exact (proj1 (proj1 H))|exact (proj1 (proj2 H))].
Defined.

(** X16. A [KeyboardInterrupt] that leaves the [try] block of [download]
    cancels the job: [download] returns [False] with the flag set, the temp
    directory and the output file are gone, and the error is the default
    cancellation text unless the job was cancelled before. *)
Theorem interrupt_cancels_job (cfg : config) (env : environment) (st : state) :
  let probe := download_probe cfg env st in
  let r := download_try cfg env (fst probe) (snd probe) in
  fst r = RaisesKeyboardInterrupt ->
  fst (download cfg env st) = false
  /\ cancel_event (snd (download cfg env st)) = true
  /\ fs_temp (snd (download cfg env st)) = None
  /\ fs_output (snd (download cfg env st)) = None
  /\ (cancel_event (snd r) = false ->
      error (snd (download cfg env st)) = Some "Download cancelled by user").
Proof.
  cbv zeta. unfold download.
  destruct (download_probe cfg env st) as [supports st1]. cbn [fst snd].
  destruct (download_try cfg env supports st1) as [[success|] st2];
    cbn [fst snd download_except]; [discriminate|]. intros _.
  destruct (download_finally_result cfg false (cancel cfg st2))
    as (Hfst & Ht & Ho & Hc & He & _).
  cbv zeta in *. rewrite Hfst, Ht, Ho, Hc, He, cancel_sets_flag.
  repeat split. apply cancel_records_default.
Qed.

Lemma interrupt_cancels_job_witness :
  fst (download_try sample_cfg env_interrupted
         (fst (download_probe sample_cfg env_interrupted
                 (init sample_cfg None None None)))
         (snd (download_probe sample_cfg env_interrupted
                 (init sample_cfg None None None))))
  = RaisesKeyboardInterrupt
  /\ fst (download sample_cfg env_interrupted (init sample_cfg None None None))
     = false
  /\ cancel_event
       (snd (download sample_cfg env_interrupted (init sample_cfg None None None)))
     = true.
Proof.
  assert (H1 : fst (download_try sample_cfg env_interrupted
         (fst (download_probe sample_cfg env_interrupted
                 (init sample_cfg None None None)))
         (snd (download_probe sample_cfg env_interrupted
                 (init sample_cfg None None None))))
    = RaisesKeyboardInterrupt) by (vm_compute; reflexivity).
  split; [exact H1|].
  pose proof (interrupt_cancels_job sample_cfg env_interrupted
                (init sample_cfg None None None) H1) as H.
  split; [exact (proj1 H)|exact (proj1 (proj2 H))].
Defined.

(** X17. When the GET of the single-connection download fails with a
    request error (raised by the call or by [raise_for_status]),
    [fallback_download] returns [False] without opening the output file;
    the byte counter is back at 0 and the recorded error is the text of
    the exception behind "Fallback download RequestException: ", with a
    hint appended for a 401 or 403 response, whatever error was recorded
    before. *)
Theorem fallback_request_failure (cfg : config) (env : environment)
    (e : py_exn) (st : state) :
  raised_by (fb_request (net_get_fallback env (url st) (_get_request_headers cfg None)))
  = Some e ->
  exn_kind e = RequestException \/ exn_kind e = Timeout ->
  fst (fallback_download cfg env st) = Returns false
  /\ error (snd (fallback_download cfg env st))
     = Some ("Fallback download RequestException: " @@ exn_text e @@ auth_hint e)
  /\ fs_output (snd (fallback_download cfg env st)) = fs_output st
  /\ downloaded (snd (fallback_download cfg env st)) = 0
  /\ cancel_event (snd (fallback_download cfg env st)) = cancel_event st.
Proof.
  intros Hreq Hkind. unfold fallback_download. cbv zeta.
  set (st1 := set_downloaded 0 _).
  assert (Hu : url st1 = url st).
  { unfold st1, manager_update. destruct (manager_attached cfg); reflexivity. }
  assert (Hframe : fs_output st1 = fs_output st /\ downloaded st1 = 0
                   /\ cancel_event st1 = cancel_event st).
  { unfold st1, manager_update. destruct (manager_attached cfg); repeat split. }
  destruct Hframe as (Ho & Hd & Hc).
  rewrite Hu.
  assert (Hexc : fst (fallback_except e st1) = Returns false
     /\ error (snd (fallback_except e st1))
        = Some ("Fallback download RequestException: " @@ exn_text e @@ auth_hint e)
     /\ fs_output (snd (fallback_except e st1)) = fs_output st
     /\ downloaded (snd (fallback_except e st1)) = 0
     /\ cancel_event (snd (fallback_except e st1)) = cancel_event st).
  { unfold fallback_except, auth_hint.
    destruct Hkind as [-> | ->]; cbn [fst snd error set_error fs_output
      downloaded cancel_event]; rewrite Ho, Hd, Hc;
      (split; [reflexivity|]); (split; [|repeat split]);
      destruct (exn_response e) as [code|]; [| |  |];
      try destruct (code =? 401); try destruct (code =? 403);
      rewrite ?append_empty_r; reflexivity. }
  destruct (fb_request _) as [e'|r text|response]; cbn [raised_by] in Hreq;
    [| |discriminate]; injection Hreq as <-; exact Hexc.
Qed.

Lemma fallback_request_failure_witness :
  error (snd (fallback_download sample_cfg env_unauthorized
                (init sample_cfg None None None)))
  = Some ("Fallback download RequestException: "
          @@ "401 Client Error: Unauthorized for url"
          @@ " (Unauthorized - Check API Key?)").
Proof.
  refine (proj1 (proj2
    (fallback_request_failure sample_cfg env_unauthorized
       (http_error
          {| resp_truthy := false; resp_status_code := 401;
             resp_url := "https://cdn.example.org/model.bin";
             resp_accept_ranges := None; resp_content_length := HeaderAbsent |}
          "401 Client Error: Unauthorized for url")
       (init sample_cfg None None None) _ _))).
  - reflexivity.
  - left. reflexivity.
Defined.

(* ------------------------------------------------------------------ *)
(** ** Cancellation *)

(** X18. [cancel()] takes effect once.  Whatever the job, the flag is set
    when the call returns.  On a job whose flag was not set, the call
    records the default error "Download cancelled by user" in place of
    any other, sends exactly one update (status "cancelled" and that
    error) to an attached manager, and leaves the URL, the sizes, the byte
    count and the files alone.  On a job whose flag was set, and so on any
    call made after an earlier one has returned, it changes nothing and
    sends nothing. *)
Theorem cancel_takes_effect_once (cfg : config) (st : state) :
  cancel_event (cancel cfg st) = true
  /\ error (cancel cfg st)
     = (if cancel_event st then error st else Some "Download cancelled by user")
  /\ notifications (cancel cfg st)
     = notifications st
       ++ (if negb (cancel_event st) && manager_attached cfg
           then [cancel_update] else [])
  /\ only_records st (cancel cfg st)
  /\ (cancel_event st = true -> cancel cfg st = st)
  /\ cancel cfg (cancel cfg st) = cancel cfg st.
Proof.
  split; [apply cancel_sets_flag|].
  split.
  { destruct (cancel_event st) eqn:E.
    - rewrite (cancel_when_set cfg st E). reflexivity.
    - apply cancel_records_default. exact E. }
  split.
  { unfold cancel, is_cancelled, manager_update.
    destruct (cancel_event st); cbn [negb andb]; [rewrite app_nil_r; reflexivity|].
    destruct (manager_attached cfg); cbn; [reflexivity|].
    rewrite app_nil_r. reflexivity. }
  split; [apply only_records_cancel|].
  split; [apply cancel_when_set|].
  apply cancel_when_set, cancel_sets_flag.
Qed.
